(** * RapidPark: reservation engine and intake dialogue

    A shallow embedding of [app/reservations.py] (pricing, spot allocation,
    quote and reserve, arrival-time parsing, confirmation codes) and of
    [app/cartesia_agent.py] (the per-call conversation state machine),
    followed by the properties proved about them.

    Conventions of the embedding.
    - A naive UTC [datetime] is the number of microseconds elapsed since
      0001-01-01T00:00:00; a [timedelta] is a number of microseconds.  The
      range limits of both Python types (years 1..9999) are not modelled.
    - Strings are byte strings; case mapping and white space follow Python
      on the ASCII range.
    - [float] values that carry a duration in hours are the rationals they
      denote.
    - The database session is the list of rows of the [reservation] table,
      oldest first. *)

From Stdlib Require Import ZArith QArith Qround Lia Ascii String.
From stdpp Require Import base gmap strings list pretty.

Local Open Scope string_scope.
Local Open Scope Z_scope.

(** ** Python string operations *)

Module Str.

Definition code (c : ascii) : Z := Z.of_nat (nat_of_ascii c).
Definition chr (z : Z) : ascii := ascii_of_nat (Z.to_nat z).

(** [str.isspace] on the ASCII range: TAB..CR, FS..US and SPACE. *)
Definition is_space (c : ascii) : bool :=
  let n := code c in
  ((9 <=? n) && (n <=? 13)) || ((28 <=? n) && (n <=? 32)).

Definition is_upper (c : ascii) : bool := (65 <=? code c) && (code c <=? 90).
Definition is_lower (c : ascii) : bool := (97 <=? code c) && (code c <=? 122).
Definition is_digit (c : ascii) : bool := (48 <=? code c) && (code c <=? 57).
(** [\w] of the [re] module on the ASCII range. *)
Definition is_word (c : ascii) : bool :=
  is_upper c || is_lower c || is_digit c || (code c =? 95).

Definition lower_char (c : ascii) : ascii := if is_upper c then chr (code c + 32) else c.
Definition upper_char (c : ascii) : ascii := if is_lower c then chr (code c - 32) else c.

Fixpoint map_chars (f : ascii -> ascii) (s : string) : string :=
  match s with
  | EmptyString => EmptyString
  | String c s' => String (f c) (map_chars f s')
  end.

(** [s.lower()] and [s.upper()]. *)
Definition lower : string -> string := map_chars lower_char.
Definition upper : string -> string := map_chars upper_char.

Fixpoint lstrip (s : string) : string :=
  match s with
  | EmptyString => EmptyString
  | String c s' => if is_space c then lstrip s' else s
  end.

Fixpoint rstrip (s : string) : string :=
  match s with
  | EmptyString => EmptyString
  | String c s' =>
      match rstrip s' with
      | EmptyString => if is_space c then EmptyString else String c EmptyString
      | t => String c t
      end
  end.

(** [s.strip()]. *)
Definition strip (s : string) : string := rstrip (lstrip s).

(** [sub in s]. *)
Fixpoint contains (sub s : string) : bool :=
  match s with
  | EmptyString => String.prefix sub EmptyString
  | String _ s' => String.prefix sub s || contains sub s'
  end.

(** [any(word in s for word in words)]. *)
Definition contains_any (words : list string) (s : string) : bool :=
  existsb (fun w => contains w s) words.

(** [s.replace(old, new)] for a non-empty [old]: occurrences are found from
    the left and do not overlap.  [skip] counts the characters of a matched
    occurrence that are still to be dropped. *)
Fixpoint replace_from (skip : nat) (old new s : string) : string :=
  match s with
  | EmptyString => EmptyString
  | String c s' =>
      match skip with
      | S k => replace_from k old new s'
      | O =>
          if String.prefix old s
          then new +:+ replace_from (Nat.pred (String.length old)) old new s'
          else String c (replace_from O old new s')
      end
  end.

(** With an empty [old], Python puts [new] before every character and at
    the end. *)
Fixpoint intersperse (new s : string) : string :=
  match s with
  | EmptyString => new
  | String c s' => new +:+ String c (intersperse new s')
  end.

Definition replace (old new s : string) : string :=
  match old with
  | EmptyString => intersperse new s
  | _ => replace_from O old new s
  end.

(** Truthiness of a string and of an optional string. *)
Definition truthy (s : string) : bool :=
  match s with EmptyString => false | _ => true end.

Definition opt_truthy (o : option string) : bool :=
  match o with Some s => truthy s | None => false end.

(** One decimal digit, and a number zero-padded to two and to four digits
    ([%02d], [%04d]). *)
Definition digit (d : Z) : ascii := chr (48 + d mod 10).
Definition pad2 (n : Z) : string :=
  String (digit (n / 10)) (String (digit n) EmptyString).
Definition pad4 (n : Z) : string := pad2 (n / 100) +:+ pad2 (n mod 100).

(** Characters of a string, for statements about its contents. *)
Fixpoint chars (s : string) : list ascii :=
  match s with
  | EmptyString => []
  | String c s' => c :: chars s'
  end.

Fixpoint of_chars (l : list ascii) : string :=
  match l with
  | [] => EmptyString
  | c :: l' => String c (of_chars l')
  end.

End Str.

(** ** Dates and times *)

Module DT.

Definition datetime := Z.
Definition timedelta := Z.

Definition US_PER_SECOND : Z := 1000000.
Definition US_PER_MINUTE : Z := 60 * US_PER_SECOND.
Definition US_PER_HOUR : Z := 60 * US_PER_MINUTE.
Definition US_PER_DAY : Z := 24 * US_PER_HOUR.

(** [timedelta(minutes=m)], [timedelta(days=d)]. *)
Definition minutes (m : Z) : timedelta := m * US_PER_MINUTE.
Definition days (d : Z) : timedelta := d * US_PER_DAY.

(** Rounding of a rational to the nearest integer, ties to even. *)
Definition round_half_even (q : Q) : Z :=
  let n := Qnum q in
  let d := Zpos (Qden q) in
  let f := n / d in
  let r := n mod d in
  if 2 * r <? d then f
  else if d <? 2 * r then f + 1
  else if Z.even f then f else f + 1.

(** [timedelta(hours=float(h))]: the product is rounded to a whole number of
    microseconds. *)
Definition hours (h : Q) : timedelta :=
  round_half_even (h * inject_Z US_PER_HOUR)%Q.

(** The proleptic Gregorian calendar, as in CPython's [datetime]. *)
Definition _DI400Y : Z := 146097.
Definition _DI100Y : Z := 36524.
Definition _DI4Y : Z := 1461.

Definition _DAYS_IN_MONTH (m : Z) : Z :=
  nth (Z.to_nat m) [-1; 31; 28; 31; 30; 31; 30; 31; 31; 30; 31; 30; 31] 0.
Definition _DAYS_BEFORE_MONTH (m : Z) : Z :=
  nth (Z.to_nat m) [-1; 0; 31; 59; 90; 120; 151; 181; 212; 243; 273; 304; 334] 0.

Definition _is_leap (y : Z) : bool :=
  (y mod 4 =? 0) && (negb (y mod 100 =? 0) || (y mod 400 =? 0)).

Definition _days_before_year (y : Z) : Z :=
  let y := y - 1 in y * 365 + y / 4 - y / 100 + y / 400.

Definition _days_before_month (y m : Z) : Z :=
  _DAYS_BEFORE_MONTH m + (if (2 <? m) && _is_leap y then 1 else 0).

Definition _ymd2ord (y m d : Z) : Z :=
  _days_before_year y + _days_before_month y m + d.

(** Month and day of the [n]-th day (from 0) of a year. *)
Definition month_day (leapyear : bool) (n : Z) : Z * Z :=
  let month := Z.shiftr (n + 50) 5 in
  let preceding :=
    _DAYS_BEFORE_MONTH month + (if (2 <? month) && leapyear then 1 else 0) in
  if n <? preceding then
    let month := month - 1 in
    let preceding :=
      preceding - (_DAYS_IN_MONTH month + (if (month =? 2) && leapyear then 1 else 0)) in
    (month, n - preceding + 1)
  else (month, n - preceding + 1).

Definition _ord2ymd (n : Z) : Z * Z * Z :=
  let n := n - 1 in
  let n400 := n / _DI400Y in
  let n := n mod _DI400Y in
  let year := n400 * 400 + 1 in
  let n100 := n / _DI100Y in
  let n := n mod _DI100Y in
  let n4 := n / _DI4Y in
  let n := n mod _DI4Y in
  let n1 := n / 365 in
  let n := n mod 365 in
  let year := year + n100 * 100 + n4 * 4 + n1 in
  if (n1 =? 4) || (n100 =? 4) then (year - 1, 12, 31)
  else
    let leapyear := (n1 =? 3) && (negb (n4 =? 24) || (n100 =? 3)) in
    let '(month, day) := month_day leapyear n in
    (year, month, day).

(** [datetime(y, m, d, H, M, S, us)]. *)
Definition make (y m d H M S us : Z) : datetime :=
  (_ymd2ord y m d - 1) * US_PER_DAY
  + H * US_PER_HOUR + M * US_PER_MINUTE + S * US_PER_SECOND + us.

Definition toordinal (t : datetime) : Z := t / US_PER_DAY + 1.
Definition time_of_day (t : datetime) : Z := t mod US_PER_DAY.

Definition year (t : datetime) : Z := (_ord2ymd (toordinal t)).1.1.
Definition month (t : datetime) : Z := (_ord2ymd (toordinal t)).1.2.
Definition day (t : datetime) : Z := (_ord2ymd (toordinal t)).2.
Definition hour (t : datetime) : Z := time_of_day t / US_PER_HOUR.
Definition minute (t : datetime) : Z := (time_of_day t / US_PER_MINUTE) mod 60.
Definition second (t : datetime) : Z := (time_of_day t / US_PER_SECOND) mod 60.
Definition microsecond (t : datetime) : Z := t mod US_PER_SECOND.

(** [t.replace(microsecond=0)]. *)
Definition replace_microsecond_0 (t : datetime) : datetime := t - microsecond t.

(** [(b - a).total_seconds() // 60], as an integer.  The source computes it
    on binary64 values, which is exact for spans below 2^53 microseconds. *)
Definition whole_minutes (a b : datetime) : Z := (b - a) / US_PER_MINUTE.

(** [t.strftime(fmt)] for the directives the program uses; any other
    character of the format is copied.  [%Y] is the four-digit year. *)
Fixpoint strftime (fmt : string) (t : datetime) : string :=
  match fmt with
  | String "%" (String d rest) =>
      (if Ascii.eqb d "Y" then Str.pad4 (year t)
       else if Ascii.eqb d "m" then Str.pad2 (month t)
       else if Ascii.eqb d "d" then Str.pad2 (day t)
       else if Ascii.eqb d "H" then Str.pad2 (hour t)
       else if Ascii.eqb d "M" then Str.pad2 (minute t)
       else if Ascii.eqb d "S" then Str.pad2 (second t)
       else String "%" (String d EmptyString))
      +:+ strftime rest t
  | String c rest => String c (strftime rest t)
  | EmptyString => EmptyString
  end.

(** [t.isoformat()] of a datetime whose microsecond field is 0. *)
Definition isoformat (t : datetime) : string := strftime "%Y-%m-%dT%H:%M:%S" t.

End DT.

(** ** Configuration ([os.getenv] values read at import time) *)

Record config := {
  LOT_NAME : string;
  LOT_CAPACITY : Z;
  RATE_CENTS_PER_HOUR : Z;
  RATE_CENTS_PER_HOUR_CAR : Z;
  RATE_CENTS_PER_HOUR_MOTORCYCLE : Z;
  RATE_CENTS_PER_HOUR_TRUCK : Z;
  MIN_CHARGE_MINUTES : Z
}.

(** The values used when no environment variable is set. *)
Definition default_config : config := {|
  LOT_NAME := "RapidPark-A";
  LOT_CAPACITY := 50;
  RATE_CENTS_PER_HOUR := 400;
  RATE_CENTS_PER_HOUR_CAR := 400;
  RATE_CENTS_PER_HOUR_MOTORCYCLE := 300;
  RATE_CENTS_PER_HOUR_TRUCK := 600;
  MIN_CHARGE_MINUTES := 60
|}.

(** ** Tables and payloads of [app/reservations.py] *)

Module Reservation.
Record t := {
  id : option Z;
  created_at : DT.datetime;
  customer_name : string;
  email : option string;
  phone : option string;
  vehicle_reg : string;
  vehicle_type : option string;
  lot_name : string;
  spot_number : option Z;
  start_time : DT.datetime;
  end_time : DT.datetime;
  price_cents : Z;
  confirmation_code : string;
  status : string
}.
End Reservation.

Module ReservationCreate.
Record t := {
  customer_name : string;
  email : option string;
  phone : option string;
  vehicle_reg : string;
  vehicle_type : option string;
  start_time : option DT.datetime;
  end_time : option DT.datetime;
  duration_hours : option Q
}.
End ReservationCreate.

Module ReservationOut.
Record t := {
  id : Z;
  confirmation_code : string;
  lot_name : string;
  spot_number : Z;
  spot_label : string;
  vehicle_type : option string;
  start_time : DT.datetime;
  end_time : DT.datetime;
  price_cents : Z
}.
End ReservationOut.

Module QuoteIn.
Record t := {
  vehicle_reg : string;
  vehicle_type : option string;
  start_time : option string;
  end_time : option string;
  duration_hours : option Q;
  duration_minutes : option Z
}.
End QuoteIn.

Module QuoteOut.
Record t := {
  lot_name : string;
  vehicle_reg : string;
  vehicle_type : option string;
  start_time : DT.datetime;
  end_time : DT.datetime;
  duration_minutes : Z;
  duration_hours : Q;
  price_cents : Z;
  available : bool;
  suggested_spot : option Z;
  suggested_label : option string
}.
End QuoteOut.

(** The outcome of a route: a response body, or [HTTPException]. *)
Inductive outcome (A : Type) : Type :=
| Returned (body : A)
| HTTPException (status_code : Z) (detail : string).
Arguments Returned {A} body.
Arguments HTTPException {A} status_code detail.

Definition status_of {A} (o : outcome A) : Z :=
  match o with
  | Returned _ => 200
  | HTTPException code _ => code
  end.

(** The rows of the reservation table. *)
Abbreviation store := (list Reservation.t).

(** ** Overlap, pricing, codes and labels *)

Definition _overlaps (a_start a_end b_start b_end : DT.datetime) : bool :=
  negb ((a_end <=? b_start) || (b_end <=? a_start)).

(** [math.ceil(a / b)] for integers [a] and [b > 0]. *)
Definition ceil_div (a b : Z) : Z := - ((- a) / b).

(** The class names accepted by the routes. *)
Definition known_vehicle_types : list string := ["car"; "motorcycle"; "truck"].

(** [vehicle_type and vehicle_type.lower() not in {"car", "motorcycle",
    "truck"}]. *)
Definition bad_vehicle_type (vehicle_type : option string) : bool :=
  match vehicle_type with
  | Some vt => Str.truthy vt && negb (bool_decide (Str.lower vt ∈ known_vehicle_types))
  | None => false
  end.

(** [vehicle_type or None]. *)
Definition or_None (o : option string) : option string :=
  match o with
  | Some s => if Str.truthy s then Some s else None
  | None => None
  end.

(** [re.match(r"^[^\s@]+@[^\s@]+\.[^\s@]+$", email)]: one [@], no white
    space, a non-empty local part, and after the [@] a dot that is neither
    the first nor the last character; [$] also matches before one final
    newline. *)
Module EmailRe.

Definition plain (c : ascii) : bool := negb (Str.is_space c) && negb (Ascii.eqb c "@").

Fixpoint inner_dot (seen : bool) (l : list ascii) : bool :=
  match l with
  | [] => false
  | c :: l' =>
      match l' with
      | [] => false
      | _ => (seen && Ascii.eqb c ".") || inner_dot true l'
      end
  end.

Fixpoint split_at_sign (l : list ascii) : option (list ascii * list ascii) :=
  match l with
  | [] => None
  | c :: l' =>
      if Ascii.eqb c "@" then Some ([], l')
      else match split_at_sign l' with
           | Some (a, b) => Some (c :: a, b)
           | None => None
           end
  end.

Definition body_matches (l : list ascii) : bool :=
  match split_at_sign l with
  | Some (a, b) =>
      negb (bool_decide (a = [])) && forallb plain a && forallb plain b && inner_dot false b
  | None => false
  end.

Definition drop_final_newline (l : list ascii) : list ascii :=
  match reverse l with
  | c :: r => if Ascii.eqb c "010" then reverse r else l
  | [] => l
  end.

Definition matches (email : string) : bool :=
  body_matches (Str.chars email) || body_matches (drop_final_newline (Str.chars email)).

End EmailRe.

Section Engine.

Context (cfg : config).

Definition _rate_for_vehicle_type (vehicle_type : option string) : Z :=
  let vt := Str.lower (Str.strip (default "" vehicle_type)) in
  if String.eqb vt "car" then RATE_CENTS_PER_HOUR_CAR cfg
  else if String.eqb vt "motorcycle" then RATE_CENTS_PER_HOUR_MOTORCYCLE cfg
  else if String.eqb vt "truck" then RATE_CENTS_PER_HOUR_TRUCK cfg
  else RATE_CENTS_PER_HOUR cfg.

Definition _compute_price_cents (start end_ : DT.datetime) (vehicle_type : option string) : Z :=
  let total_minutes := Z.max 0 (DT.whole_minutes start end_) in
  let billable_minutes := Z.max total_minutes (MIN_CHARGE_MINUTES cfg) in
  let hours := ceil_div billable_minutes 60 in
  let rate := _rate_for_vehicle_type vehicle_type in
  hours * rate.

End Engine.

Definition _generate_code (vehicle_reg : string) (when : DT.datetime) : string :=
  "RP-" +:+ Str.upper (Str.replace " " "" vehicle_reg) +:+ "-" +:+ DT.strftime "%m%d%H%M" when.

(** [lot_name.split("-")[-1]]: what follows the last hyphen. *)
Fixpoint after_last_hyphen (s : string) : string :=
  match s with
  | EmptyString => EmptyString
  | String c s' =>
      if Str.contains "-" s' then after_last_hyphen s'
      else if Ascii.eqb c "-" then s' else s
  end.

(** [s[:1].upper()]. *)
Definition first_upper (s : string) : string :=
  match s with
  | EmptyString => EmptyString
  | String c _ => String (Str.upper_char c) EmptyString
  end.

Definition _spot_label (lot_name : string) (spot_number : option Z) : option string :=
  match spot_number with
  | None => None
  | Some n =>
      if n =? 0 then None
      else
        let zone :=
          if Str.contains "-" lot_name
          then first_upper (Str.strip (after_last_hyphen lot_name))
          else EmptyString in
        let zone := if Str.truthy zone then zone else first_upper lot_name in
        if Str.truthy zone then Some (zone +:+ pretty n) else Some (pretty n)
  end.

(** ** Spot allocation *)

(** The rows selected by [_assign_spot]: spot, start and end of the
    confirmed reservations of the lot that have a spot. *)
Definition select_rows (session : store) (lot_name : string)
  : list (Z * DT.datetime * DT.datetime) :=
  omap (fun r : Reservation.t =>
          if bool_decide (Reservation.lot_name r = lot_name)
             && bool_decide (Reservation.status r = "confirmed")
          then match Reservation.spot_number r with
               | Some spot => Some (spot, Reservation.start_time r, Reservation.end_time r)
               | None => None
               end
          else None) session.

(** [taken_by_spot.setdefault(spot, []).append((s, e))] for each row. *)
Definition taken_by_spot (rows : list (Z * DT.datetime * DT.datetime))
  : gmap Z (list (DT.datetime * DT.datetime)) :=
  foldl (fun taken '(spot, s, e) => <[spot := (default [] (taken !! spot) ++ [(s, e)])%list]> taken)
        ∅ rows.

(** [all(not _overlaps(start, end, s, e) for s, e in intervals)]. *)
Definition no_overlap (start end_ : DT.datetime) (intervals : list (DT.datetime * DT.datetime))
  : bool :=
  forallb (fun '(s, e) => negb (_overlaps start end_ s e)) intervals.

(** The loop over [range(1, LOT_CAPACITY + 1)]. *)
Fixpoint first_free (taken : gmap Z (list (DT.datetime * DT.datetime)))
    (start end_ : DT.datetime) (spots : list Z) : option Z :=
  match spots with
  | [] => None
  | spot :: rest =>
      let intervals := default [] (taken !! spot) in
      if no_overlap start end_ intervals then Some spot
      else first_free taken start end_ rest
  end.

Definition _assign_spot (cfg : config) (session : store) (lot_name : string)
    (start end_ : DT.datetime) : option Z :=
  let rows := select_rows session lot_name in
  first_free (taken_by_spot rows) start end_ (seqZ 1 (LOT_CAPACITY cfg)).

(** ** The reserve and quote routes *)

(** The primary key given to a new row. *)
Definition next_id (session : store) : Z :=
  1 + foldr (fun r m => Z.max (default 0 (Reservation.id r)) m) 0 session.

(** [round(mins / 60.0, 2)]. *)
Definition hours_2dp (mins : Z) : Q :=
  (DT.round_half_even (inject_Z (mins * 100) / inject_Z 60)%Q) # 100.

Section Routes.

Context (cfg : config).
(** [dateutil.parser.isoparse]; [None] when it raises. *)
Context (isoparse : string -> option DT.datetime).
(** [dateutil.parser.parse(text, default=now)]; [None] when it raises. *)
Context (date_parse : string -> DT.datetime -> option DT.datetime).

(** Lines 184-200 of [create_reservation]: the checks made before the
    session is opened, and the interval they resolve. *)
Definition create_reservation_checks (now : DT.datetime) (data : ReservationCreate.t)
  : outcome (DT.datetime * DT.datetime) :=
  if negb (Str.truthy (ReservationCreate.vehicle_reg data))
     || negb (Str.truthy (ReservationCreate.customer_name data))
  then HTTPException 400 "customer_name and vehicle_reg are required"
  else
    let start := default now (ReservationCreate.start_time data) in
    match ReservationCreate.end_time data, ReservationCreate.duration_hours data with
    | None, None => HTTPException 400 "Provide end_time or duration_hours"
    | end_time, duration_hours =>
        let end_ :=
          match end_time with
          | Some e => e
          | None => start + DT.hours (default 0%Q duration_hours)
          end in
        if end_ <=? start
        then HTTPException 400 "end_time must be after start_time"
        else if bad_vehicle_type (ReservationCreate.vehicle_type data)
        then HTTPException 400 "vehicle_type must be one of: car, motorcycle, truck"
        else if Str.opt_truthy (ReservationCreate.email data)
                && negb (EmailRe.matches (default "" (ReservationCreate.email data)))
        then HTTPException 400 "invalid email format"
        else Returned (start, end_)
    end.

(** [create_reservation]: the outcome, the table afterwards, and the
    reservations handed to the background e-mail task.  [now] is the clock
    read for a missing start, [created] the one read for [created_at]. *)
Definition create_reservation (session : store) (now created : DT.datetime)
    (data : ReservationCreate.t)
  : outcome ReservationOut.t * store * list Reservation.t :=
  match create_reservation_checks now data with
  | HTTPException code detail => (HTTPException code detail, session, [])
  | Returned (start, end_) =>
      let price := _compute_price_cents cfg start end_ (ReservationCreate.vehicle_type data) in
      let code := _generate_code (ReservationCreate.vehicle_reg data) start in
      match _assign_spot cfg session (LOT_NAME cfg) start end_ with
      | None =>
          (HTTPException 409 "No spots available for the requested time range", session, [])
      | Some spot =>
          let res := {|
            Reservation.id := Some (next_id session);
            Reservation.created_at := created;
            Reservation.customer_name := ReservationCreate.customer_name data;
            Reservation.email := ReservationCreate.email data;
            Reservation.phone := ReservationCreate.phone data;
            Reservation.vehicle_reg := ReservationCreate.vehicle_reg data;
            Reservation.vehicle_type := or_None (ReservationCreate.vehicle_type data);
            Reservation.lot_name := LOT_NAME cfg;
            Reservation.spot_number := Some spot;
            Reservation.start_time := start;
            Reservation.end_time := end_;
            Reservation.price_cents := price;
            Reservation.confirmation_code := code;
            Reservation.status := "confirmed"
          |} in
          let out := {|
            ReservationOut.id := next_id session;
            ReservationOut.confirmation_code := code;
            ReservationOut.lot_name := LOT_NAME cfg;
            ReservationOut.spot_number := spot;
            ReservationOut.spot_label :=
              default (if spot =? 0 then "" else pretty spot)
                      (_spot_label (LOT_NAME cfg) (Some spot));
            ReservationOut.vehicle_type := or_None (ReservationCreate.vehicle_type data);
            ReservationOut.start_time := start;
            ReservationOut.end_time := end_;
            ReservationOut.price_cents := price
          |} in
          (Returned out, (session ++ [res])%list,
           if Str.opt_truthy (ReservationCreate.email data) then [res] else [])
      end
  end.

(** Lines 400-430 of [quote]: the checks, and the interval they resolve. *)
Definition quote_checks (now : DT.datetime) (data : QuoteIn.t)
  : outcome (DT.datetime * DT.datetime) :=
  if negb (Str.truthy (QuoteIn.vehicle_reg data))
  then HTTPException 400 "vehicle_reg is required"
  else if bad_vehicle_type (QuoteIn.vehicle_type data)
  then HTTPException 400 "vehicle_type must be one of: car, motorcycle, truck"
  else
    let resolve_end (start : DT.datetime) : outcome (DT.datetime * DT.datetime) :=
      let check (end_ : DT.datetime) :=
        if end_ <=? start
        then HTTPException 400 "end_time must be after start_time"
        else Returned (start, end_) in
      if Str.opt_truthy (QuoteIn.end_time data) then
        match isoparse (default "" (QuoteIn.end_time data)) with
        | Some e => check e
        | None => HTTPException 400 "end_time must be ISO-8601"
        end
      else
        match QuoteIn.duration_hours data, QuoteIn.duration_minutes data with
        | Some h, _ => check (start + DT.hours h)
        | None, Some m => check (start + DT.minutes m)
        | None, None =>
            HTTPException 400 "Provide end_time, duration_hours, or duration_minutes"
        end in
    if Str.opt_truthy (QuoteIn.start_time data) then
      match isoparse (default "" (QuoteIn.start_time data)) with
      | Some start => resolve_end start
      | None => HTTPException 400 "start_time must be ISO-8601"
      end
    else resolve_end now.

(** [quote]: the outcome and the table afterwards. *)
Definition quote (session : store) (now : DT.datetime) (data : QuoteIn.t)
  : outcome QuoteOut.t * store :=
  match quote_checks now data with
  | HTTPException code detail => (HTTPException code detail, session)
  | Returned (start, end_) =>
      let mins := DT.whole_minutes start end_ in
      let price := _compute_price_cents cfg start end_ (QuoteIn.vehicle_type data) in
      let spot := _assign_spot cfg session (LOT_NAME cfg) start end_ in
      (Returned {|
         QuoteOut.lot_name := LOT_NAME cfg;
         QuoteOut.vehicle_reg := QuoteIn.vehicle_reg data;
         QuoteOut.vehicle_type := or_None (QuoteIn.vehicle_type data);
         QuoteOut.start_time := start;
         QuoteOut.end_time := end_;
         QuoteOut.duration_minutes := mins;
         QuoteOut.duration_hours := hours_2dp mins;
         QuoteOut.price_cents := price;
         QuoteOut.available := bool_decide (is_Some spot);
         QuoteOut.suggested_spot := spot;
         QuoteOut.suggested_label := _spot_label (LOT_NAME cfg) spot
       |}, session)
  end.

(** The text handed to the date parser by [parse_arrival]. *)
Definition arrival_text (text : string) (now : DT.datetime) : string :=
  let lowered := Str.lower text in
  let text :=
    if Str.contains "today" lowered
    then Str.replace "today" (DT.strftime "%Y-%m-%d" now) lowered
    else if Str.contains "tomorrow" lowered
    then Str.replace "tomorrow" (DT.strftime "%Y-%m-%d" (now + DT.days 1)) lowered
    else text in
  Str.replace " at " " " text.

(** [parse_arrival]; the body is the value of its ["start_time"] key. *)
Definition parse_arrival (utterance : string) (now : DT.datetime) : outcome string :=
  let text := Str.strip utterance in
  if negb (Str.truthy text) then HTTPException 400 "utterance is required"
  else
    match date_parse (arrival_text text now) now with
    | None => HTTPException 400 "Could not parse arrival time"
    | Some dt =>
        let dt := if dt <? now - DT.minutes 5 then dt + DT.days 1 else dt in
        Returned (DT.isoformat (DT.replace_microsecond_0 dt))
    end.

End Routes.

(** ** The reserve route of [parking_app.py]

    The stand-alone application has the same tables and helpers; its
    [reserve] also accepts [duration_minutes]. *)
Module ParkingApp.

Module ReserveIn.
Record t := {
  customer_name : string;
  email : option string;
  phone : option string;
  vehicle_reg : string;
  vehicle_type : option string;
  start_time : option DT.datetime;
  end_time : option DT.datetime;
  duration_hours : option Q;
  duration_minutes : option Z
}.
End ReserveIn.

Module ReserveOut.
Record t := {
  id : option Z;
  ticket_id : string;
  confirmation_code : string;
  lot_name : string;
  spot_number : Z;
  spot_label : string;
  vehicle_type : option string;
  start_time : DT.datetime;
  end_time : DT.datetime;
  duration_minutes : Z;
  duration_hours : Q;
  price_cents : Z;
  price_display : string
}.
End ReserveOut.


Section Reserve.

Context (cfg : config).



End Reserve.

End ParkingApp.

(** ** The conversation agent ([app/cartesia_agent.py]) *)

Inductive ConversationState :=
| GREETING
| COLLECT_NAME
| COLLECT_VEHICLE
| COLLECT_ARRIVAL
| COLLECT_DURATION
| COLLECT_EMAIL
| PROVIDE_QUOTE
| CONFIRM_RESERVATION
| COMPLETED.

(** Values that cross the HTTP boundary as ISO-8601 text ([isoformat] on one
    side, [fromisoformat] or [isoparse] on the other) are the instants they
    denote; a response body has the fields of the route's response model. *)
Module AgentContext.
Record t := {
  state : ConversationState;
  customer_name : option string;
  vehicle_reg : option string;
  vehicle_type : option string;
  arrival_time : option DT.datetime;
  duration_hours : option Q;
  email : option string;
  quote : option QuoteOut.t;
  reservation : option ReservationOut.t
}.

(** [AgentContext()]. *)
Definition new : t := {|
  state := GREETING; customer_name := None; vehicle_reg := None;
  vehicle_type := None; arrival_time := None; duration_hours := None;
  email := None; quote := None; reservation := None
|}.

(** Attribute assignments [context.field = v]. *)
Definition set_state (v : ConversationState) (c : t) : t :=
  {| state := v; customer_name := customer_name c; vehicle_reg := vehicle_reg c;
     vehicle_type := vehicle_type c; arrival_time := arrival_time c;
     duration_hours := duration_hours c; email := email c; quote := quote c;
     reservation := reservation c |}.
Definition set_customer_name (v : option string) (c : t) : t :=
  {| state := state c; customer_name := v; vehicle_reg := vehicle_reg c;
     vehicle_type := vehicle_type c; arrival_time := arrival_time c;
     duration_hours := duration_hours c; email := email c; quote := quote c;
     reservation := reservation c |}.
Definition set_vehicle_reg (v : option string) (c : t) : t :=
  {| state := state c; customer_name := customer_name c; vehicle_reg := v;
     vehicle_type := vehicle_type c; arrival_time := arrival_time c;
     duration_hours := duration_hours c; email := email c; quote := quote c;
     reservation := reservation c |}.
Definition set_vehicle_type (v : option string) (c : t) : t :=
  {| state := state c; customer_name := customer_name c; vehicle_reg := vehicle_reg c;
     vehicle_type := v; arrival_time := arrival_time c;
     duration_hours := duration_hours c; email := email c; quote := quote c;
     reservation := reservation c |}.
Definition set_arrival_time (v : option DT.datetime) (c : t) : t :=
  {| state := state c; customer_name := customer_name c; vehicle_reg := vehicle_reg c;
     vehicle_type := vehicle_type c; arrival_time := v;
     duration_hours := duration_hours c; email := email c; quote := quote c;
     reservation := reservation c |}.
Definition set_duration_hours (v : option Q) (c : t) : t :=
  {| state := state c; customer_name := customer_name c; vehicle_reg := vehicle_reg c;
     vehicle_type := vehicle_type c; arrival_time := arrival_time c;
     duration_hours := v; email := email c; quote := quote c;
     reservation := reservation c |}.
Definition set_email (v : option string) (c : t) : t :=
  {| state := state c; customer_name := customer_name c; vehicle_reg := vehicle_reg c;
     vehicle_type := vehicle_type c; arrival_time := arrival_time c;
     duration_hours := duration_hours c; email := v; quote := quote c;
     reservation := reservation c |}.
Definition set_quote (v : option QuoteOut.t) (c : t) : t :=
  {| state := state c; customer_name := customer_name c; vehicle_reg := vehicle_reg c;
     vehicle_type := vehicle_type c; arrival_time := arrival_time c;
     duration_hours := duration_hours c; email := email c; quote := v;
     reservation := reservation c |}.
Definition set_reservation (v : option ReservationOut.t) (c : t) : t :=
  {| state := state c; customer_name := customer_name c; vehicle_reg := vehicle_reg c;
     vehicle_type := vehicle_type c; arrival_time := arrival_time c;
     duration_hours := duration_hours c; email := email c; quote := quote c;
     reservation := v |}.
End AgentContext.

(** The calls made through [call_parking_api], indexed by the body of a
    successful response. *)
Module Api.

Record DurationOut := {
  duration_minutes : Z;
  duration_hours : Q;
  end_time : option DT.datetime
}.

Record QuoteArgs := {
  q_vehicle_reg : option string;
  q_vehicle_type : option string;
  q_start_time : option DT.datetime;
  q_duration_hours : option Q
}.

Record ReserveArgs := {
  r_customer_name : option string;
  r_email : option string;
  r_vehicle_reg : option string;
  r_vehicle_type : option string;
  r_start_time : option DT.datetime;
  r_duration_hours : option Q
}.

Inductive call : Type -> Type :=
| parse_arrival (utterance : string) : call DT.datetime
| parse_duration (utterance : string) (start_time : option DT.datetime) : call DurationOut
| quote (args : QuoteArgs) : call QuoteOut.t
| parse_email (utterance : string) : call string
| reservations (args : ReserveArgs) : call ReservationOut.t.

End Api.

(** One turn of the handler: it ends with a value, or makes a call and
    goes on with the answer, [None] when [call_parking_api] raised. *)
Inductive turn (A : Type) : Type :=
| Done (a : A)
| Call {X : Type} (c : Api.call X) (k : option X -> turn A).
Arguments Done {A} a.
Arguments Call {A X} c k.

(** The answers of the server during one turn. *)
Definition server := forall X, Api.call X -> option X.

Fixpoint run {A} (env : server) (p : turn A) : A :=
  match p with
  | Done a => a
  | Call c k => run env (k (env _ c))
  end.

(** The texts spoken by the agent, each with the values it interpolates. *)
Inductive message :=
| SayWelcome                  (* "Hello! Welcome to RapidPark ... your name please?" *)
| SayThanksAskVehicle (customer_name : string)
| SayRepeatName               (* "I didn't catch that. ..." *)
| SayGotVehicleAskArrival (vehicle_type vehicle_reg : string)
| SayRepeatVehicle            (* "I couldn't understand the vehicle registration. ..." *)
| SayArrivalAskDuration (arrival_time : option DT.datetime)
| SayRepeatArrival            (* "I couldn't understand that time. ..." *)
| SayQuoteAskEmail (duration_hours : option Q) (price_cents : Z)
                   (suggested_label : option string) (lot_name : string)
| SayRepeatDuration           (* "I couldn't understand the duration. ..." *)
| SayRepeatEmail              (* "I couldn't understand that email. ..." *)
| SayQuoteError               (* "I'm sorry, there was an error getting your quote. ..." *)
| SayConfirmDetails (customer_name vehicle_type vehicle_reg : option string)
                    (arrival_time : option DT.datetime) (duration_hours : option Q)
                    (price_cents : Z) (email : option string)
| SayReserved (confirmation_code spot_label lot_name : string) (email : option string)
| SayReserveError             (* "I'm sorry, there was an error creating your reservation: ..." *)
| SayCancelled                (* "No problem, I've cancelled this reservation. ..." *)
| SayNotUnderstood            (* "I'm sorry, I didn't understand that. ..." *)
| SayWebhookError.            (* "I'm sorry, I encountered an error. ..." *)

Module CartesiaWebhookResponse.
Record t := {
  message : message;
  context : AgentContext.t;
  end_call : bool
}.
End CartesiaWebhookResponse.

(** The registration pattern
    [\b[A-Z]{2}\d{2}[A-Z]{2}\d{4}\b|\b[A-Z]{3}-?\d{4}\b] of
    [extract_vehicle_info], searched from the left. *)
Module RegRe.

(** [n] characters of class [p] at the head of [l]. *)
Fixpoint take_class (p : ascii -> bool) (n : nat) (l : list ascii)
  : option (list ascii * list ascii) :=
  match n with
  | O => Some ([], l)
  | S n' =>
      match l with
      | c :: l' =>
          if p c then
            match take_class p n' l' with
            | Some (a, r) => Some (c :: a, r)
            | None => None
            end
          else None
      | [] => None
      end
  end.

(** [\b] after a word character. *)
Definition word_ends (rest : list ascii) : bool :=
  match rest with
  | [] => true
  | c :: _ => negb (Str.is_word c)
  end.

Definition plate (l : list ascii) : option (list ascii) :=
  '(a, r) ← take_class Str.is_upper 2 l;
  '(b, r) ← take_class Str.is_digit 2 r;
  '(c, r) ← take_class Str.is_upper 2 r;
  '(d, r) ← take_class Str.is_digit 4 r;
  if word_ends r then Some (a ++ b ++ c ++ d)%list else None.

Definition short_plate (l : list ascii) : option (list ascii) :=
  '(a, r) ← take_class Str.is_upper 3 l;
  match r with
  | c :: r' =>
      if Ascii.eqb c "-" then
        '(d, r'') ← take_class Str.is_digit 4 r';
        if word_ends r'' then Some (a ++ c :: d)%list else None
      else
        '(d, r'') ← take_class Str.is_digit 4 r;
        if word_ends r'' then Some (a ++ d)%list else None
  | [] => None
  end.

Definition here (l : list ascii) : option (list ascii) :=
  match plate l with
  | Some m => Some m
  | None => short_plate l
  end.

Fixpoint search_from (after_word : bool) (l : list ascii) : option (list ascii) :=
  match l with
  | [] => None
  | c :: l' =>
      match (if after_word then None else here l) with
      | Some m => Some m
      | None => search_from (Str.is_word c) l'
      end
  end.

Definition search (s : string) : option string :=
  Str.of_chars <$> search_from false (Str.chars s).

End RegRe.

Definition extract_vehicle_info (text : string) : option string * option string :=
  let text_lower := Str.lower text in
  let vehicle_type :=
    if Str.contains_any ["motorcycle"; "bike"; "motorbike"] text_lower then Some "motorcycle"
    else if Str.contains_any ["truck"; "van"] text_lower then Some "truck"
    else if Str.contains_any ["car"; "sedan"; "suv"] text_lower then Some "car"
    else None in
  let vehicle_reg := RegRe.search (Str.upper text) in
  (vehicle_reg, vehicle_type).

(** The word lists of the e-mail and confirmation steps. *)
Definition skip_words : list string := ["skip"; "no email"; "no thanks"; "none"].
Definition affirmative_words : list string := ["yes"; "confirm"; "correct"; "proceed"; "book"].

Definition wants_skip (user_message : string) : bool :=
  Str.contains_any skip_words (Str.lower user_message).
Definition is_affirmative (user_message : string) : bool :=
  Str.contains_any affirmative_words (Str.lower user_message).

(** A response built from the context as it is when the handler returns;
    the context is the session object itself, mutated in place. *)
Definition reply (m : message) (end_call : bool) (context : AgentContext.t)
  : CartesiaWebhookResponse.t * AgentContext.t :=
  ({| CartesiaWebhookResponse.message := m;
      CartesiaWebhookResponse.context := context;
      CartesiaWebhookResponse.end_call := end_call |}, context).

(** Lines 258-294: the end of the e-mail step, once the address is settled. *)
Definition confirm_details (context : AgentContext.t)
  : CartesiaWebhookResponse.t * AgentContext.t :=
  let context := AgentContext.set_state CONFIRM_RESERVATION context in
  match AgentContext.quote context with
  | None => reply SayQuoteError true context
  | Some quote =>
      reply (SayConfirmDetails (AgentContext.customer_name context)
               (AgentContext.vehicle_type context) (AgentContext.vehicle_reg context)
               (AgentContext.arrival_time context) (AgentContext.duration_hours context)
               (QuoteOut.price_cents quote) (AgentContext.email context))
            false context
  end.

Definition handle_conversation (user_message : string) (context : AgentContext.t)
  : turn (CartesiaWebhookResponse.t * AgentContext.t) :=
  match AgentContext.state context with
  | GREETING =>
      Done (reply SayWelcome false (AgentContext.set_state COLLECT_NAME context))
  | COLLECT_NAME =>
      if Str.truthy user_message && (2 <? Z.of_nat (String.length (Str.strip user_message)))
      then
        let name := Str.strip user_message in
        let context := AgentContext.set_customer_name (Some name) context in
        let context := AgentContext.set_state COLLECT_VEHICLE context in
        Done (reply (SayThanksAskVehicle name) false context)
      else Done (reply SayRepeatName false context)
  | COLLECT_VEHICLE =>
      let '(vehicle_reg, vehicle_type) := extract_vehicle_info user_message in
      if Str.opt_truthy vehicle_reg then
        let vtype := if Str.opt_truthy vehicle_type then default "" vehicle_type else "car" in
        let context := AgentContext.set_vehicle_reg vehicle_reg context in
        let context := AgentContext.set_vehicle_type (Some vtype) context in
        let context := AgentContext.set_state COLLECT_ARRIVAL context in
        Done (reply (SayGotVehicleAskArrival vtype (default "" vehicle_reg)) false context)
      else Done (reply SayRepeatVehicle false context)
  | COLLECT_ARRIVAL =>
      Call (Api.parse_arrival user_message) (fun result =>
        match result with
        | Some start_time =>
            let context := AgentContext.set_arrival_time (Some start_time) context in
            let context := AgentContext.set_state COLLECT_DURATION context in
            Done (reply (SayArrivalAskDuration (Some start_time)) false context)
        | None => Done (reply SayRepeatArrival false context)
        end)
  | COLLECT_DURATION =>
      Call (Api.parse_duration user_message (AgentContext.arrival_time context)) (fun result =>
        match result with
        | Some result =>
            let context :=
              AgentContext.set_duration_hours (Some (Api.duration_hours result)) context in
            Call (Api.quote {|
                    Api.q_vehicle_reg := AgentContext.vehicle_reg context;
                    Api.q_vehicle_type := AgentContext.vehicle_type context;
                    Api.q_start_time := AgentContext.arrival_time context;
                    Api.q_duration_hours := AgentContext.duration_hours context |})
              (fun quote =>
                 match quote with
                 | Some quote =>
                     let context := AgentContext.set_quote (Some quote) context in
                     let context := AgentContext.set_state COLLECT_EMAIL context in
                     Done (reply (SayQuoteAskEmail (AgentContext.duration_hours context)
                                    (QuoteOut.price_cents quote)
                                    (QuoteOut.suggested_label quote)
                                    (QuoteOut.lot_name quote))
                                 false context)
                 | None => Done (reply SayRepeatDuration false context)
                 end)
        | None => Done (reply SayRepeatDuration false context)
        end)
  | COLLECT_EMAIL =>
      if wants_skip user_message then
        Done (confirm_details (AgentContext.set_email None context))
      else
        Call (Api.parse_email user_message) (fun result =>
          match result with
          | Some email => Done (confirm_details (AgentContext.set_email (Some email) context))
          | None => Done (reply SayRepeatEmail false context)
          end)
  | CONFIRM_RESERVATION =>
      if is_affirmative user_message then
        Call (Api.reservations {|
                Api.r_customer_name := AgentContext.customer_name context;
                Api.r_email := AgentContext.email context;
                Api.r_vehicle_reg := AgentContext.vehicle_reg context;
                Api.r_vehicle_type := AgentContext.vehicle_type context;
                Api.r_start_time := AgentContext.arrival_time context;
                Api.r_duration_hours := AgentContext.duration_hours context |})
          (fun result =>
             match result with
             | Some reservation =>
                 let context := AgentContext.set_reservation (Some reservation) context in
                 let context := AgentContext.set_state COMPLETED context in
                 Done (reply (SayReserved (ReservationOut.confirmation_code reservation)
                                (ReservationOut.spot_label reservation)
                                (ReservationOut.lot_name reservation)
                                (AgentContext.email context))
                             true context)
             | None => Done (reply SayReserveError true context)
             end)
      else
        Done (reply SayCancelled true (AgentContext.set_state COMPLETED context))
  | PROVIDE_QUOTE | COMPLETED =>
      Done (reply SayNotUnderstood false context)
  end.

(** Sequencing of turns. *)
Fixpoint bind {A B} (p : turn A) (f : A -> turn B) : turn B :=
  match p with
  | Done a => f a
  | Call c k => Call c (fun x => bind (k x) f)
  end.

(** The call is the reserve call [POST /api/reservations]. *)
Definition is_reserve_call {X} (c : Api.call X) : bool :=
  match c with
  | Api.reservations _ => true
  | _ => false
  end.

(** The turn makes the reserve call, for some answers of the server. *)
Fixpoint invokes_reserve {A} (p : turn A) : Prop :=
  match p with
  | Done _ => False
  | Call c k => is_reserve_call c = true \/ exists x, invokes_reserve (k x)
  end.

(** The turn makes no call at all. *)
Definition silent {A} (p : turn A) : Prop :=
  match p with
  | Done _ => True
  | Call _ _ => False
  end.

(** ** The webhook and the session table *)

Inductive webhook_body :=
| Spoken (response : CartesiaWebhookResponse.t)
| StatusOk                    (* {"status": "ok"} *)
| WebhookFailed.              (* the reply of the [except] clause, with [end_call] set *)

(** [get_session]: the session of the call, created when missing. *)
Definition get_session (call_id : string) (sessions : gmap string AgentContext.t)
  : AgentContext.t * gmap string AgentContext.t :=
  match sessions !! call_id with
  | Some context => (context, sessions)
  | None => (AgentContext.new, <[call_id := AgentContext.new]> sessions)
  end.

Definition cartesia_webhook (call_id event_type user_message : string)
    (sessions : gmap string AgentContext.t)
  : turn (webhook_body * gmap string AgentContext.t) :=
  if negb (Str.truthy call_id) then Done (WebhookFailed, sessions)
  else
    let '(context, sessions) := get_session call_id sessions in
    if String.eqb event_type "call_started" then
      Done (Spoken (reply SayWelcome false context).1, sessions)
    else if String.eqb event_type "call_ended" then
      Done (StatusOk, delete call_id sessions)
    else
      bind (handle_conversation user_message context) (fun '(response, context) =>
        Done (Spoken response, <[call_id := context]> sessions)).

(** [DELETE /cartesia/sessions/{call_id}]. *)
Definition clear_session (call_id : string) (sessions : gmap string AgentContext.t)
  : gmap string AgentContext.t :=
  delete call_id sessions.

(** The session tables that the routes can produce from the empty one. *)
Inductive reachable : gmap string AgentContext.t -> Prop :=
| reachable_empty : reachable ∅
| reachable_webhook sessions env call_id event_type user_message :
    reachable sessions ->
    reachable (run env (cartesia_webhook call_id event_type user_message sessions)).2
| reachable_clear sessions call_id :
    reachable sessions -> reachable (clear_session call_id sessions).

(** ** Vocabulary of the specification *)

(** Half-open overlap of [a] and [b]: they share elapsed time. *)
Definition half_open_overlap (a_start a_end b_start b_end : DT.datetime) : Prop :=
  a_start < b_end /\ b_start < a_end.

(** A confirmed reservation of the lot holds spot [spot] for an interval
    that overlaps the candidate. *)
Definition conflicts (session : store) (lot_name : string) (spot : Z)
    (start end_ : DT.datetime) : Prop :=
  exists r : Reservation.t,
    r ∈ session
    /\ Reservation.lot_name r = lot_name
    /\ Reservation.status r = "confirmed"
    /\ Reservation.spot_number r = Some spot
    /\ half_open_overlap start end_ (Reservation.start_time r) (Reservation.end_time r).

(** The intervals recorded for one spot, in row order. *)
Definition intervals_of (spot : Z) (rows : list (Z * DT.datetime * DT.datetime))
  : list (DT.datetime * DT.datetime) :=
  omap (fun '(k, s, e) => if bool_decide (k = spot) then Some (s, e) else None) rows.


(** Every configured hourly rate is a price: none is negative. *)
Definition rates_nonneg (cfg : config) : Prop :=
  0 <= RATE_CENTS_PER_HOUR cfg
  /\ 0 <= RATE_CENTS_PER_HOUR_CAR cfg
  /\ 0 <= RATE_CENTS_PER_HOUR_MOTORCYCLE cfg
  /\ 0 <= RATE_CENTS_PER_HOUR_TRUCK cfg.

(** The class named by a [vehicle_type] value, as [_rate_for_vehicle_type]
    reads it: without surrounding white space, in lower case. *)
Definition class_name (vehicle_type : option string) : string :=
  Str.lower (Str.strip (default "" vehicle_type)).

(** The vehicle id with its spaces removed, in upper case. *)
Definition normalized_vehicle_id (vehicle_reg : string) : string :=
  Str.of_chars (Str.upper_char <$> filter (fun c => c <> " "%char) (Str.chars vehicle_reg)).

(** Month, day, hour and minute of an instant, two digits each. *)
Definition MMDDHHmm (t : DT.datetime) : string :=
  Str.pad2 (DT.month t) +:+ Str.pad2 (DT.day t) +:+ Str.pad2 (DT.hour t)
  +:+ Str.pad2 (DT.minute t).

(** The end instant a request names: an explicit end first, then a duration
    in hours, then a duration in minutes. *)
Definition requested_end (start : DT.datetime) (end_time : option DT.datetime)
    (duration_hours : option Q) (duration_minutes : option Z) : option DT.datetime :=
  match end_time, duration_hours, duration_minutes with
  | Some e, _, _ => Some e
  | None, Some h, _ => Some (start + DT.hours h)
  | None, None, Some m => Some (start + DT.minutes m)
  | None, None, None => None
  end.

(** A vehicle class is supplied and is not car, motorcycle or truck, in
    any letter case. *)
Definition unknown_class (vehicle_type : option string) : Prop :=
  exists s, vehicle_type = Some s /\ s <> "" /\ Str.lower s ∉ known_vehicle_types.

(** An optional text field that is supplied, that is, present and not
    empty. *)
Definition supplied (field : option string) : option string :=
  match field with
  | Some s => if Str.truthy s then Some s else None
  | None => None
  end.

(** No two confirmed reservations of one lot hold the same spot for
    overlapping intervals. *)
Definition no_double_booking (session : store) : Prop :=
  forall (i j : nat) (r1 r2 : Reservation.t) (spot : Z),
    i <> j ->
    session !! i = Some r1 -> session !! j = Some r2 ->
    Reservation.status r1 = "confirmed" -> Reservation.status r2 = "confirmed" ->
    Reservation.lot_name r1 = Reservation.lot_name r2 ->
    Reservation.spot_number r1 = Some spot -> Reservation.spot_number r2 = Some spot ->
    ~ half_open_overlap (Reservation.start_time r1) (Reservation.end_time r1)
                        (Reservation.start_time r2) (Reservation.end_time r2).

(** A parser that knows the listed texts only, for worked examples. *)
Definition table_parser (table : list (string * DT.datetime)) (text : string)
  : option DT.datetime :=
  snd <$> List.find (fun '(t, _) => String.eqb t text) table.



(** ** Worked scenarios *)

Module Scenario.

(** A lot with a single spot, default rates. *)
Definition one_spot : config := {|
  LOT_NAME := "RapidPark-A";
  LOT_CAPACITY := 1;
  RATE_CENTS_PER_HOUR := 400;
  RATE_CENTS_PER_HOUR_CAR := 400;
  RATE_CENTS_PER_HOUR_MOTORCYCLE := 300;
  RATE_CENTS_PER_HOUR_TRUCK := 600;
  MIN_CHARGE_MINUTES := 60
|}.

Definition T : DT.datetime := DT.make 2024 1 1 10 0 0 0.

(** A car for two hours from [start]. *)
Definition two_hours_from (start : DT.datetime) : ReservationCreate.t := {|
  ReservationCreate.customer_name := "Ann Lee";
  ReservationCreate.email := Some "ann.lee@example.com";
  ReservationCreate.phone := None;
  ReservationCreate.vehicle_reg := "KA01AB1234";
  ReservationCreate.vehicle_type := Some "car";
  ReservationCreate.start_time := Some start;
  ReservationCreate.end_time := None;
  ReservationCreate.duration_hours := Some 2%Q
|}.

(** The table after the first reservation, made at [T] for [T, T+2h]. *)
Definition after_first : store :=
  (create_reservation one_spot [] T T (two_hours_from T)).1.2.

(** A parser for ISO texts that knows none. *)
Definition no_isoparse (_ : string) : option DT.datetime := None.

(** A quote request for a car, two hours from now. *)
Definition quote_two_hours : QuoteIn.t := {|
  QuoteIn.vehicle_reg := "KA01AB1234";
  QuoteIn.vehicle_type := Some "car";
  QuoteIn.start_time := None;
  QuoteIn.end_time := None;
  QuoteIn.duration_hours := Some 2%Q;
  QuoteIn.duration_minutes := Some 45
|}.

End Scenario.

(** The states that are entered only after a quote was obtained. *)
Definition quote_due (state : ConversationState) : bool :=
  match state with
  | COLLECT_EMAIL | CONFIRM_RESERVATION | COMPLETED => true
  | _ => false
  end.

(** A session in such a state holds the quote. *)
Definition holds_quote (context : AgentContext.t) : Prop :=
  quote_due (AgentContext.state context) = true -> is_Some (AgentContext.quote context).

(** The calendar date of an instant as [YYYY-MM-DD]. *)
Definition iso_date (t : DT.datetime) : string :=
  Str.pad4 (DT.year t) +:+ "-" +:+ Str.pad2 (DT.month t) +:+ "-" +:+ Str.pad2 (DT.day t).

(** The instant is more than five minutes before [now]. *)
Definition long_past (now dt : DT.datetime) : Prop := 5 * 60 * 1000000 < now - dt.

#[global] Instance long_past_dec (now dt : DT.datetime) : Decision (long_past now dt) :=
  Z_lt_dec (5 * 60 * 1000000) (now - dt).

(** The next occurrence of a time of day that is long past. *)
Definition next_occurrence (now dt : DT.datetime) : DT.datetime :=
  if bool_decide (long_past now dt) then dt + 24 * 3600 * 1000000 else dt.

Module ArrivalScenario.

Definition now : DT.datetime := DT.make 2024 1 1 10 0 0 0.

(** What the date parser returns for the two texts of the scenario, the
    fields it does not find being taken from [now]. *)
Definition parsed : list (string * DT.datetime) :=
  [("2024-01-01 3 pm", DT.make 2024 1 1 15 0 0 0);
   ("2024-01-01 3 am", DT.make 2024 1 1 3 0 0 0)].

Definition date_parse (text : string) (_ : DT.datetime) : option DT.datetime :=
  table_parser parsed text.

End ArrivalScenario.

(** Message events of one call, served in order. *)
Definition turns (env : server) (call_id : string) (utterances : list string)
    (sessions : gmap string AgentContext.t) : gmap string AgentContext.t :=
  foldl (fun s u => (run env (cartesia_webhook call_id "message" u s)).2) sessions utterances.

Module DialogueScenario.

Definition quoted : QuoteOut.t := {|
  QuoteOut.lot_name := "RapidPark-A";
  QuoteOut.vehicle_reg := "KA01AB1234";
  QuoteOut.vehicle_type := Some "car";
  QuoteOut.start_time := DT.make 2024 1 1 15 0 0 0;
  QuoteOut.end_time := DT.make 2024 1 1 17 0 0 0;
  QuoteOut.duration_minutes := 120;
  QuoteOut.duration_hours := 2%Q;
  QuoteOut.price_cents := 800;
  QuoteOut.available := true;
  QuoteOut.suggested_spot := Some 1;
  QuoteOut.suggested_label := Some "A1"
|}.

Definition reserved : ReservationOut.t := {|
  ReservationOut.id := 1;
  ReservationOut.confirmation_code := "RP-KA01AB1234-01011500";
  ReservationOut.lot_name := "RapidPark-A";
  ReservationOut.spot_number := 1;
  ReservationOut.spot_label := "A1";
  ReservationOut.vehicle_type := Some "car";
  ReservationOut.start_time := DT.make 2024 1 1 15 0 0 0;
  ReservationOut.end_time := DT.make 2024 1 1 17 0 0 0;
  ReservationOut.price_cents := 800
|}.

(** A server on which every call succeeds. *)
Definition backend : server := fun X c =>
  match c in Api.call X return option X with
  | Api.parse_arrival _ => Some (DT.make 2024 1 1 15 0 0 0)
  | Api.parse_duration _ start =>
      Some {| Api.duration_minutes := 120; Api.duration_hours := 2%Q;
              Api.end_time := (fun t => t + DT.hours 2) <$> start |}
  | Api.quote _ => Some quoted
  | Api.parse_email _ => Some "ann.lee@example.com"
  | Api.reservations _ => Some reserved
  end.

(** A server on which the quote call fails. *)
Definition no_quote : server := fun X c =>
  match c in Api.call X return option X with
  | Api.quote _ => None
  | c => backend _ c
  end.

Definition intake : list string :=
  ["hello"; "Ann Lee"; "my car is KA01AB1234"; "today at 3 PM"; "2 hours"; "skip"].

(** A session that has been quoted and is asked to confirm. *)
Definition confirming : AgentContext.t :=
  AgentContext.set_quote (Some quoted)
    (AgentContext.set_state CONFIRM_RESERVATION AgentContext.new).

End DialogueScenario.

(** The tables produced from the empty one by quote and reserve requests
    served one after another. *)
Inductive served (cfg : config) (isoparse : string -> option DT.datetime) : store -> Prop :=
| served_empty : served cfg isoparse []
| served_reserve session now created data :
    served cfg isoparse session ->
    served cfg isoparse (create_reservation cfg session now created data).1.2
| served_quote session now data :
    served cfg isoparse session ->
    served cfg isoparse (quote cfg isoparse session now data).2.

(** ** Vocabulary of the further properties *)

(** The rows [_assign_spot] looks at: confirmed, of the lot, with a spot. *)
Definition blocks_lot (lot_name : string) (r : Reservation.t) : Prop :=
  Reservation.lot_name r = lot_name
  /\ Reservation.status r = "confirmed"
  /\ is_Some (Reservation.spot_number r).

(** A row as [create_reservation] writes it, at position [index] of the
    table. *)
Definition row_as_written (cfg : config) (index : nat) (r : Reservation.t) : Prop :=
  Reservation.id r = Some (Z.of_nat index + 1)
  /\ Reservation.status r = "confirmed"
  /\ Reservation.lot_name r = LOT_NAME cfg
  /\ (exists spot, Reservation.spot_number r = Some spot /\ 1 <= spot <= LOT_CAPACITY cfg)
  /\ Reservation.start_time r < Reservation.end_time r
  /\ Reservation.price_cents r
     = _compute_price_cents cfg (Reservation.start_time r) (Reservation.end_time r)
         (Reservation.vehicle_type r)
  /\ Reservation.confirmation_code r
     = _generate_code (Reservation.vehicle_reg r) (Reservation.start_time r)
  /\ Reservation.vehicle_reg r <> ""
  /\ Reservation.customer_name r <> "".

(** The reservation holds its spot at instant [t]. *)
Definition occupies (t : DT.datetime) (r : Reservation.t) : Prop :=
  Reservation.start_time r <= t < Reservation.end_time r.

#[global] Instance occupies_dec (t : DT.datetime) (r : Reservation.t) : Decision (occupies t r) :=
  and_dec (Z_le_dec (Reservation.start_time r) t) (Z_lt_dec t (Reservation.end_time r)).

(** The spot of a row, 0 when it has none. *)
Definition spot_of (r : Reservation.t) : Z := default 0 (Reservation.spot_number r).

(** The texts [local@domain.tld]: three non-empty parts without white space
    or [@], the last two joined by a dot. *)
Definition email_shape (l : list ascii) : Prop :=
  exists local domain tld : list ascii,
    l = (local ++ "@"%char :: domain ++ "."%char :: tld)%list
    /\ local <> [] /\ domain <> [] /\ tld <> []
    /\ Forall (fun c => EmailRe.plain c = true) local
    /\ Forall (fun c => EmailRe.plain c = true) domain
    /\ Forall (fun c => EmailRe.plain c = true) tld.

(** The state that follows a state in the order of the conversation. *)
Definition following (state : ConversationState) : ConversationState :=
  match state with
  | GREETING => COLLECT_NAME
  | COLLECT_NAME => COLLECT_VEHICLE
  | COLLECT_VEHICLE => COLLECT_ARRIVAL
  | COLLECT_ARRIVAL => COLLECT_DURATION
  | COLLECT_DURATION => COLLECT_EMAIL
  | COLLECT_EMAIL => CONFIRM_RESERVATION
  | PROVIDE_QUOTE => PROVIDE_QUOTE
  | CONFIRM_RESERVATION => COMPLETED
  | COMPLETED => COMPLETED
  end.

(** The position of a state in that order. *)
Definition stage (state : ConversationState) : nat :=
  match state with
  | GREETING => 0
  | COLLECT_NAME => 1
  | COLLECT_VEHICLE => 2
  | COLLECT_ARRIVAL => 3
  | COLLECT_DURATION => 4
  | COLLECT_EMAIL => 5
  | PROVIDE_QUOTE => 6
  | CONFIRM_RESERVATION => 7
  | COMPLETED => 8
  end.

(** The session has a name of more than two characters. *)
Definition has_name (context : AgentContext.t) : Prop :=
  exists name, AgentContext.customer_name context = Some name
               /\ (2 < String.length name)%nat.

(** The session has a registration and one of the three vehicle classes. *)
Definition has_vehicle (context : AgentContext.t) : Prop :=
  exists reg vtype,
    AgentContext.vehicle_reg context = Some reg /\ reg <> ""
    /\ AgentContext.vehicle_type context = Some vtype
    /\ vtype ∈ known_vehicle_types.

(** What a session has collected by the time it is in a state. *)
Definition collected (context : AgentContext.t) : Prop :=
  AgentContext.state context <> PROVIDE_QUOTE
  /\ ((2 <= stage (AgentContext.state context))%nat -> has_name context)
  /\ ((3 <= stage (AgentContext.state context))%nat -> has_vehicle context)
  /\ ((4 <= stage (AgentContext.state context))%nat ->
      is_Some (AgentContext.arrival_time context))
  /\ ((5 <= stage (AgentContext.state context))%nat ->
      is_Some (AgentContext.duration_hours context)
      /\ is_Some (AgentContext.quote context))
  /\ (is_Some (AgentContext.reservation context) ->
      AgentContext.state context = COMPLETED).

(** The characters of a registration found by [extract_vehicle_info]. *)
Definition plate_char (c : ascii) : bool :=
  Str.is_upper c || Str.is_digit c || Ascii.eqb c "-".

(** ** The listing route *)

(** The [ReservationOut] built from a row, as [create_reservation] and
    [list_reservations] both do. *)
Definition reservation_out (r : Reservation.t) : ReservationOut.t :=
  let bare :=
    match Reservation.spot_number r with
    | Some n => if n =? 0 then "" else pretty n
    | None => ""
    end in
  {| ReservationOut.id := default 0 (Reservation.id r);
     ReservationOut.confirmation_code := Reservation.confirmation_code r;
     ReservationOut.lot_name := Reservation.lot_name r;
     ReservationOut.spot_number := default 0 (Reservation.spot_number r);
     ReservationOut.spot_label :=
       match _spot_label (Reservation.lot_name r) (Reservation.spot_number r) with
       | Some label => if Str.truthy label then label else bare
       | None => bare
       end;
     ReservationOut.vehicle_type := Reservation.vehicle_type r;
     ReservationOut.start_time := Reservation.start_time r;
     ReservationOut.end_time := Reservation.end_time r;
     ReservationOut.price_cents := Reservation.price_cents r |}.

(** [ORDER BY id DESC]: insertion into a list sorted by decreasing primary
    key. *)
Fixpoint insert_desc (r : Reservation.t) (rows : store) : store :=
  match rows with
  | [] => [r]
  | r' :: rows' =>
      if default 0 (Reservation.id r') <? default 0 (Reservation.id r)
      then r :: rows
      else r' :: insert_desc r rows'
  end.

Definition order_by_desc_id (session : store) : store := foldr insert_desc [] session.

(** [list_reservations]; FastAPI admits [limit] between 1 and 200 only. *)
Definition list_reservations (session : store) (limit : Z) : list ReservationOut.t :=
  reservation_out <$> take (Z.to_nat limit) (order_by_desc_id session).

(** ** The duration route *)

(** The two patterns of [_parse_duration_minutes] and its two fall-back
    patterns, matched at the head of a text.  A shorter run of digits or of
    white space than the longest one leaves a digit or a space where the
    pattern wants the next item, so only the longest runs can match. *)
Module DurRe.

(** The longest prefix of [l] in the class [p], and what follows it. *)
Fixpoint span (p : ascii -> bool) (l : list ascii) : list ascii * list ascii :=
  match l with
  | c :: l' => if p c then (c :: (span p l').1, (span p l').2) else ([], l)
  | [] => ([], [])
  end.

(** What follows [u] at the head of [l]. *)
Fixpoint starts_with (u l : list ascii) : option (list ascii) :=
  match u, l with
  | [], _ => Some l
  | a :: u', c :: l' => if Ascii.eqb a c then starts_with u' l' else None
  | _ :: _, [] => None
  end.

Definition hour_units : list string := ["hours"; "hour"; "hrs"; "hr"; "h"].
Definition minute_units : list string := ["minutes"; "minute"; "mins"; "min"; "m"].

(** [(?:u1|u2|...)\b]: one of the units, followed by a word boundary. *)
Fixpoint unit_here (units : list string) (l : list ascii) : bool :=
  match units with
  | [] => false
  | u :: units' =>
      match starts_with (Str.chars u) l with
      | Some rest => RegRe.word_ends rest || unit_here units' l
      | None => unit_here units' l
      end
  end.

(** [\s*(?:units)\b]. *)
Definition spaced_unit (units : list string) (l : list ascii) : bool :=
  unit_here units (span Str.is_space l).2.

(** [(\d+)\s*(?:units)\b]: group 1. *)
Definition whole_here (units : list string) (l : list ascii) : option (list ascii) :=
  let '(d, r) := span Str.is_digit l in
  match d with
  | [] => None
  | _ => if spaced_unit units r then Some d else None
  end.

(** [(\d+(?:\.\d+)?)\s*(?:units)\b]: group 1, with the fraction when the
    pattern matches with it. *)
Definition decimal_here (units : list string) (l : list ascii) : option (list ascii) :=
  let '(d, r) := span Str.is_digit l in
  match d with
  | [] => None
  | _ =>
      let fraction :=
        match r with
        | c :: r' =>
            if Ascii.eqb c "." then
              let '(f, r'') := span Str.is_digit r' in
              match f with
              | [] => None
              | _ => if spaced_unit units r'' then Some (d ++ c :: f)%list else None
              end
            else None
        | [] => None
        end in
      match fraction with
      | Some m => Some m
      | None => if spaced_unit units r then Some d else None
      end
  end.

(** [for\s+(\d+)\s*(?:units)\b]: group 1. *)
Definition for_here (units : list string) (l : list ascii) : option (list ascii) :=
  match starts_with (Str.chars "for") l with
  | Some r =>
      let '(w, r') := span Str.is_space r in
      match w with
      | [] => None
      | _ => whole_here units r'
      end
  | None => None
  end.

(** [re.search]: the match at the leftmost position that has one. *)
Fixpoint search (here : list ascii -> option (list ascii)) (l : list ascii)
  : option (list ascii) :=
  match l with
  | [] => here []
  | _ :: l' =>
      match here l with
      | Some m => Some m
      | None => search here l'
      end
  end.

End DurRe.

(** [int(s)] for a run of digits. *)
Definition digits_value (l : list ascii) : Z :=
  foldl (fun n c => 10 * n + (Str.code c - 48)) 0 l.

(** [float(s)] for digits with an optional fraction. *)
Definition float (l : list ascii) : Q :=
  let '(d, r) := DurRe.span Str.is_digit l in
  let f := tail r in
  (inject_Z (digits_value (d ++ f)) / inject_Z (10 ^ Z.of_nat (length f)))%Q.

Definition _parse_duration_minutes (utterance : string) : option Z :=
  if negb (Str.truthy utterance) then None
  else
    let text := Str.strip (Str.lower utterance) in
    let text := Str.replace "hours and" "hours" text in
    let text := Str.replace "hour and" "hour" text in
    let l := Str.chars text in
    let hours :=
      match DurRe.search (DurRe.decimal_here DurRe.hour_units) l with
      | Some m => float m
      | None => 0%Q
      end in
    let minutes :=
      match DurRe.search (DurRe.whole_here DurRe.minute_units) l with
      | Some m2 => digits_value m2
      | None => 0
      end in
    let '(hours, minutes) :=
      if Qeq_bool hours 0 && (minutes =? 0) then
        match DurRe.search (DurRe.for_here DurRe.hour_units) l with
        | Some m3 => (float m3, minutes)
        | None =>
            match DurRe.search (DurRe.for_here DurRe.minute_units) l with
            | Some m4 => (hours, digits_value m4)
            | None => (hours, minutes)
            end
        end
      else (hours, minutes) in
    let total_minutes := DT.round_half_even (hours * inject_Z 60)%Q + minutes in
    if 0 <? total_minutes then Some total_minutes else None.

Module DurationOut.
Record t := {
  duration_minutes : Z;
  duration_hours : Q;
  end_time : option string
}.
End DurationOut.

Section DurationRoute.

Context (isoparse : string -> option DT.datetime).

Definition parse_duration (utterance : string) (start_time : option string)
  : outcome DurationOut.t :=
  match _parse_duration_minutes utterance with
  | None => HTTPException 400 "Could not parse duration"
  | Some mins =>
      let hours := hours_2dp mins in
      if Str.opt_truthy start_time then
        match isoparse (default "" start_time) with
        | None => HTTPException 400 "start_time must be ISO-8601"
        | Some start =>
            Returned {|
              DurationOut.duration_minutes := mins;
              DurationOut.duration_hours := hours;
              DurationOut.end_time :=
                Some (DT.isoformat (DT.replace_microsecond_0 (start + DT.minutes mins)))
            |}
        end
      else
        Returned {|
          DurationOut.duration_minutes := mins;
          DurationOut.duration_hours := hours;
          DurationOut.end_time := None
        |}
  end.

End DurationRoute.

(** A text without a digit. *)
Definition digit_free (s : string) : Prop :=
  Forall (fun c => Str.is_digit c = false) (Str.chars s).

(** A non-empty run of digits, and a run of white space. *)
Definition numeral (l : list ascii) : Prop :=
  l <> [] /\ Forall (fun c => Str.is_digit c = true) l.

Definition blank (l : list ascii) : Prop :=
  Forall (fun c => Str.is_space c = true) l.

(** ** The civil calendar and the written form of its fields

    What a constructed instant [DT.make y m d H M S us] is said to be:
    these definitions do not go through the field accessors of [DT]. *)

Definition leap_year (y : Z) : bool :=
  if y mod 400 =? 0 then true else if y mod 100 =? 0 then false else y mod 4 =? 0.

Definition month_length (y m : Z) : Z :=
  if m =? 2 then (if leap_year y then 29 else 28)
  else if (m =? 4) || (m =? 6) || (m =? 9) || (m =? 11) then 30
  else 31.

(** A date of the years 1 to 9999, and a time of day. *)
Definition civil_date (y m d : Z) : Prop :=
  1 <= y <= 9999 /\ 1 <= m <= 12 /\ 1 <= d <= month_length y m.

Definition clock_time (H M S us : Z) : Prop :=
  0 <= H < 24 /\ 0 <= M < 60 /\ 0 <= S < 60 /\ 0 <= us < 1000000.

(** The date that follows a date. *)
Definition next_day (y m d : Z) : Z * Z * Z :=
  if d <? month_length y m then (y, m, d + 1)
  else if m <? 12 then (y, m + 1, 1)
  else (y + 1, 1, 1).

(** A number in decimal, with zeros in front up to two and up to four
    digits. *)
Definition two_digits (n : Z) : string :=
  if n <? 10 then "0" +:+ pretty n else pretty n.

Definition four_digits (n : Z) : string :=
  if n <? 10 then "000" +:+ pretty n
  else if n <? 100 then "00" +:+ pretty n
  else if n <? 1000 then "0" +:+ pretty n
  else pretty n.

(** [yyyy-mm-dd] and [yyyy-mm-ddTHH:MM:SS]. *)
Definition written_date (y m d : Z) : string :=
  four_digits y +:+ "-" +:+ two_digits m +:+ "-" +:+ two_digits d.

Definition written_instant (y m d H M S : Z) : string :=
  four_digits y +:+ "-" +:+ two_digits m +:+ "-" +:+ two_digits d +:+ "T"
  +:+ two_digits H +:+ ":" +:+ two_digits M +:+ ":" +:+ two_digits S.

(** The capital of a small letter, read off the alphabet; any other
    character is left as it is. *)
Definition capital (c : ascii) : ascii :=
  let small := list_ascii_of_string "abcdefghijklmnopqrstuvwxyz" in
  let large := list_ascii_of_string "ABCDEFGHIJKLMNOPQRSTUVWXYZ" in
  match List.find (fun p => Ascii.eqb p.1 c) (zip small large) with
  | Some p => p.2
  | None => c
  end.

(** A vehicle id without its spaces and in capitals. *)
Definition registration_id (vehicle_reg : string) : string :=
  string_of_list_ascii
    (capital <$> filter (fun c => c <> " "%char) (list_ascii_of_string vehicle_reg)).

(** * Properties *)


(** ** The calendar: fields of a constructed instant *)

Lemma year_split (y : Z) :
  exists a b c e, y = 400 * a + 100 * b + 4 * c + e + 1
    /\ 0 <= b < 4 /\ 0 <= c < 25 /\ 0 <= e < 4.
Proof.
  exists ((y - 1) / 400), ((y - 1) mod 400 / 100), ((y - 1) mod 400 mod 100 / 4),
    ((y - 1) mod 400 mod 100 mod 4).
  Z.div_mod_to_equations. lia.
Qed.

Lemma is_leap_split (a b c e : Z) :
  0 <= b < 4 -> 0 <= c < 25 -> 0 <= e < 4 ->
  DT._is_leap (400 * a + 100 * b + 4 * c + e + 1)
  = (e =? 3) && (negb (c =? 24) || (b =? 3)).
Proof.
  intros. unfold DT._is_leap.
  destruct (Z.eqb_spec e 3), (Z.eqb_spec c 24), (Z.eqb_spec b 3);
    repeat match goal with |- context [?x =? 0] => destruct (Z.eqb_spec x 0) end;
    simpl; try reflexivity; exfalso; Z.div_mod_to_equations; lia.
Qed.

Lemma days_before_year_split (a b c e : Z) :
  0 <= b < 4 -> 0 <= c < 25 -> 0 <= e < 4 ->
  DT._days_before_year (400 * a + 100 * b + 4 * c + e + 1)
  = 146097 * a + 36524 * b + 1461 * c + 365 * e.
Proof.
  intros. unfold DT._days_before_year. cbv zeta.
  Z.div_mod_to_equations. lia.
Qed.

Lemma ord2ymd_quotients (b c e n0 : Z) :
  0 <= b < 4 -> 0 <= c < 25 -> 0 <= e < 4 -> 0 <= n0 < 365 ->
  let n := 36524 * b + 1461 * c + 365 * e + n0 in
  n / 36524 = b /\ (n mod 36524) / 1461 = c
  /\ ((n mod 36524) mod 1461) / 365 = e
  /\ ((n mod 36524) mod 1461) mod 365 = n0.
Proof. intros. subst n. Z.div_mod_to_equations. lia. Qed.

Lemma ord2ymd_quotients_last (b c : Z) :
  0 <= b < 4 -> 0 <= c < 25 -> c <> 24 \/ b = 3 ->
  let n := 36524 * b + 1461 * c + 365 * 3 + 365 in
  (c = 24 /\ n / 36524 = 4 /\ (n mod 36524) / 1461 = 0
   /\ ((n mod 36524) mod 1461) / 365 = 0)
  \/ (c <> 24 /\ n / 36524 = b /\ (n mod 36524) / 1461 = c
      /\ ((n mod 36524) mod 1461) / 365 = 4).
Proof. intros. subst n. Z.div_mod_to_equations. lia. Qed.

(** The year of the [n0]-th day (from 0) of year [y], and its month and
    day by [month_day]. *)
Lemma _ord2ymd_in_year (y n0 : Z) :
  0 <= n0 < 365 + (if DT._is_leap y then 1 else 0) ->
  DT._ord2ymd (DT._days_before_year y + n0 + 1)
  = (y, (DT.month_day (DT._is_leap y) n0).1, (DT.month_day (DT._is_leap y) n0).2).
Proof.
  destruct (year_split y) as (a & b & c & e & -> & Hb & Hc & He).
  rewrite is_leap_split, days_before_year_split by done.
  intros Hn0. unfold DT._ord2ymd, DT._DI400Y, DT._DI100Y, DT._DI4Y. cbv zeta.
  replace (146097 * a + 36524 * b + 1461 * c + 365 * e + n0 + 1 - 1)
    with ((36524 * b + 1461 * c + 365 * e + n0) + a * 146097) by lia.
  assert (0 <= 36524 * b + 1461 * c + 365 * e + n0 < 146097) as Hin.
  { destruct (Z.eqb_spec e 3), (Z.eqb_spec c 24), (Z.eqb_spec b 3); simpl in Hn0; lia. }
  rewrite Z.div_add, Z.mod_add by lia.
  rewrite (Z.div_small _ 146097), (Z.mod_small _ 146097) by lia.
  destruct (Z.eq_dec n0 365) as [->|Hn].
  - assert (e = 3 /\ (c <> 24 \/ b = 3)) as [-> Hcb].
    { destruct (Z.eqb_spec e 3), (Z.eqb_spec c 24), (Z.eqb_spec b 3); simpl in Hn0; lia. }
    assert ((3 =? 3) && (negb (c =? 24) || (b =? 3)) = true) as ->.
    { destruct (Z.eqb_spec c 24), (Z.eqb_spec b 3); simpl; try done; lia. }
    replace (DT.month_day true 365) with (12, 31) by (vm_compute; reflexivity).
    destruct (ord2ymd_quotients_last b c Hb Hc Hcb) as [(-> & -> & -> & ->)|(Hc24 & -> & -> & ->)].
    + rewrite orb_true_r. simpl. f_equal. f_equal. lia.
    + simpl. f_equal. f_equal. lia.
  - assert (0 <= n0 < 365) as Hn0'.
    { destruct ((e =? 3) && _); lia. }
    destruct (ord2ymd_quotients b c e n0 Hb Hc He Hn0') as (-> & -> & -> & ->).
    destruct (Z.eqb_spec e 4); [lia|]. destruct (Z.eqb_spec b 4); [lia|]. simpl orb. cbv iota.
    destruct (DT.month_day _ n0). simpl. f_equal. f_equal. lia.
Qed.
Lemma leap_year_is_leap (y : Z) : leap_year y = DT._is_leap y.
Proof.
  unfold leap_year, DT._is_leap.
  destruct (Z.eqb_spec (y mod 400) 0), (Z.eqb_spec (y mod 100) 0), (Z.eqb_spec (y mod 4) 0);
    simpl; try reflexivity; exfalso; Z.div_mod_to_equations; lia.
Qed.

Lemma month_day_check :
  forallb (fun leap : bool =>
    forallb (fun m : Z =>
      forallb (fun d : Z =>
        let len := if m =? 2 then (if leap then 29 else 28)
                   else if (m =? 4) || (m =? 6) || (m =? 9) || (m =? 11) then 30 else 31 in
        let n := DT._DAYS_BEFORE_MONTH m + (if (2 <? m) && leap then 1 else 0) + d - 1 in
        negb (d <=? len)
        || ((DT.month_day leap n).1 =? m) && ((DT.month_day leap n).2 =? d)
           && (0 <=? n) && (n <? 365 + (if leap then 1 else 0)))
        (seqZ 1 31)) (seqZ 1 12)) [true; false] = true.
Proof. vm_compute. reflexivity. Qed.

Lemma month_day_of (y m d : Z) :
  1 <= m <= 12 -> 1 <= d <= month_length y m ->
  let n := DT._days_before_month y m + d - 1 in
  DT.month_day (DT._is_leap y) n = (m, d)
  /\ 0 <= n < 365 + (if DT._is_leap y then 1 else 0).
Proof.
  intros Hm Hd. unfold month_length in Hd. rewrite leap_year_is_leap in Hd.
  unfold DT._days_before_month. cbv zeta.
  pose proof month_day_check as H.
  rewrite forallb_forall in H. specialize (H (DT._is_leap y)).
  rewrite <- list_elem_of_In in H.
  specialize (H ltac:(destruct (DT._is_leap y); repeat constructor)).
  rewrite forallb_forall in H. specialize (H m).
  rewrite <- list_elem_of_In, elem_of_seqZ in H. specialize (H ltac:(lia)).
  rewrite forallb_forall in H. specialize (H d).
  rewrite <- list_elem_of_In, elem_of_seqZ in H.
  assert (d <= 31) by (repeat case_match; lia).
  specialize (H ltac:(lia)). cbv zeta in H.
  destruct (Z.leb_spec d (if m =? 2 then if DT._is_leap y then 29 else 28
                          else if (m =? 4) || (m =? 6) || (m =? 9) || (m =? 11) then 30 else 31));
    [|lia].
  simpl in H. apply andb_prop in H as [H Hlt]. apply andb_prop in H as [H Hle].
  apply andb_prop in H as [Hmonth Hday].
  destruct (DT.month_day _ _) as [m' d']. simpl in *. split; [f_equal; lia|lia].
Qed.

Lemma _ord2ymd_ymd2ord (y m d : Z) :
  1 <= m <= 12 -> 1 <= d <= month_length y m ->
  DT._ord2ymd (DT._ymd2ord y m d) = (y, m, d).
Proof.
  intros Hm Hd. destruct (month_day_of y m d Hm Hd) as [Hmd Hn].
  unfold DT._ymd2ord.
  replace (DT._days_before_year y + DT._days_before_month y m + d)
    with (DT._days_before_year y + (DT._days_before_month y m + d - 1) + 1) by lia.
  rewrite _ord2ymd_in_year by done. by rewrite Hmd.
Qed.

Lemma make_parts (y m d H M S us : Z) :
  clock_time H M S us ->
  DT.toordinal (DT.make y m d H M S us) = DT._ymd2ord y m d
  /\ DT.time_of_day (DT.make y m d H M S us)
     = H * DT.US_PER_HOUR + M * DT.US_PER_MINUTE + S * DT.US_PER_SECOND + us.
Proof.
  intros (HH & HM & HS & Hus).
  unfold DT.toordinal, DT.time_of_day, DT.make, DT.US_PER_DAY, DT.US_PER_HOUR,
    DT.US_PER_MINUTE, DT.US_PER_SECOND.
  generalize (DT._ymd2ord y m d). intros n. Z.div_mod_to_equations. lia.
Qed.

(** The fields of a constructed instant are the arguments of the
    constructor. *)
Lemma make_fields (y m d H M S us : Z) :
  1 <= m <= 12 -> 1 <= d <= month_length y m -> clock_time H M S us ->
  let t := DT.make y m d H M S us in
  DT.year t = y /\ DT.month t = m /\ DT.day t = d
  /\ DT.hour t = H /\ DT.minute t = M /\ DT.second t = S /\ DT.microsecond t = us.
Proof.
  intros Hm Hd Ht. cbv zeta.
  destruct (make_parts y m d H M S us Ht) as [Hord Htod].
  unfold DT.year, DT.month, DT.day, DT.hour, DT.minute, DT.second.
  rewrite Hord, Htod, _ord2ymd_ymd2ord by done. simpl.
  destruct Ht as (HH & HM & HS & Hus).
  repeat split; try done.
  all: unfold DT.microsecond, DT.make, DT.US_PER_DAY, DT.US_PER_HOUR, DT.US_PER_MINUTE,
         DT.US_PER_SECOND; try generalize (DT._ymd2ord y m d); intros;
       Z.div_mod_to_equations; lia.
Qed.

Lemma pad2_check :
  forallb (fun n : Z => String.eqb (Str.pad2 n) (two_digits n)) (seqZ 0 100) = true.
Proof. vm_compute. reflexivity. Qed.

Lemma pad2_two_digits (n : Z) : 0 <= n < 100 -> Str.pad2 n = two_digits n.
Proof.
  intros Hn. pose proof pad2_check as H. rewrite forallb_forall in H.
  apply String.eqb_eq, H. rewrite <- list_elem_of_In, elem_of_seqZ. lia.
Qed.

Lemma pad4_check :
  forallb (fun n : Z => String.eqb (Str.pad4 n) (four_digits n)) (seqZ 0 10000) = true.
Proof. vm_compute. reflexivity. Qed.

Lemma pad4_four_digits (n : Z) : 0 <= n < 10000 -> Str.pad4 n = four_digits n.
Proof.
  intros Hn. pose proof pad4_check as H. rewrite forallb_forall in H.
  apply String.eqb_eq, H. rewrite <- list_elem_of_In, elem_of_seqZ. lia.
Qed.

Lemma upper_char_capital (c : ascii) : Str.upper_char c = capital c.
Proof. destruct c as [[] [] [] [] [] [] [] []]; vm_compute; reflexivity. Qed.

Lemma month_length_range (y m : Z) : 28 <= month_length y m <= 31.
Proof. unfold month_length. repeat case_match; lia. Qed.

Lemma days_before_next_month_check :
  forallb (fun leap : bool =>
    forallb (fun m : Z =>
      let len := if m =? 2 then (if leap then 29 else 28)
                 else if (m =? 4) || (m =? 6) || (m =? 9) || (m =? 11) then 30 else 31 in
      (DT._DAYS_BEFORE_MONTH (m + 1) + (if (2 <? m + 1) && leap then 1 else 0)
       =? DT._DAYS_BEFORE_MONTH m + (if (2 <? m) && leap then 1 else 0) + len))
      (seqZ 1 11)) [true; false] = true.
Proof. vm_compute. reflexivity. Qed.

Lemma _ymd2ord_next_day (y m d : Z) :
  1 <= m <= 12 -> 1 <= d <= month_length y m ->
  let '(y', m', d') := next_day y m d in
  DT._ymd2ord y' m' d' = DT._ymd2ord y m d + 1
  /\ 1 <= m' <= 12 /\ 1 <= d' <= month_length y' m'.
Proof.
  intros Hm Hd. unfold next_day.
  destruct (Z.ltb_spec d (month_length y m)) as [Hlt|Hge].
  { unfold DT._ymd2ord. lia. }
  assert (d = month_length y m) as -> by lia.
  destruct (Z.ltb_spec m 12) as [Hm12|Hm12].
  - pose proof (month_length_range y (m + 1)) as Hrange.
    split; [|lia]. unfold DT._ymd2ord, DT._days_before_month.
    pose proof days_before_next_month_check as H.
    rewrite forallb_forall in H. specialize (H (DT._is_leap y)).
    rewrite <- list_elem_of_In in H.
    specialize (H ltac:(destruct (DT._is_leap y); repeat constructor)).
    rewrite forallb_forall in H. specialize (H m).
    rewrite <- list_elem_of_In, elem_of_seqZ in H. specialize (H ltac:(lia)).
    cbv zeta in H. apply Z.eqb_eq in H.
    unfold month_length. rewrite leap_year_is_leap. lia.
  - assert (m = 12) as -> by lia.
    split; [|unfold month_length; simpl; lia].
    unfold DT._ymd2ord, DT._days_before_month, month_length. simpl.
    change (DT._DAYS_BEFORE_MONTH 1) with 0. change (DT._DAYS_BEFORE_MONTH 12) with 334.
    destruct (year_split y) as (a & b & c & e & -> & Hb & Hc & He).
    rewrite is_leap_split by done.
    rewrite days_before_year_split by done.
    destruct (Z.eq_dec e 3) as [->|He3].
    + destruct (Z.eq_dec c 24) as [->|Hc24].
      * destruct (Z.eq_dec b 3) as [->|Hb3].
        -- replace (400 * a + 100 * 3 + 4 * 24 + 3 + 1 + 1)
             with (400 * (a + 1) + 100 * 0 + 4 * 0 + 0 + 1) by lia.
           rewrite days_before_year_split by lia. simpl. lia.
        -- replace (400 * a + 100 * b + 4 * 24 + 3 + 1 + 1)
             with (400 * a + 100 * (b + 1) + 4 * 0 + 0 + 1) by lia.
           rewrite days_before_year_split by lia.
           destruct (Z.eqb_spec b 3); [lia|]. simpl. lia.
      * replace (400 * a + 100 * b + 4 * c + 3 + 1 + 1)
          with (400 * a + 100 * b + 4 * (c + 1) + 0 + 1) by lia.
        rewrite days_before_year_split by lia.
        destruct (Z.eqb_spec c 24); [lia|]. simpl. lia.
    + replace (400 * a + 100 * b + 4 * c + e + 1 + 1)
        with (400 * a + 100 * b + 4 * c + (e + 1) + 1) by lia.
      rewrite days_before_year_split by lia.
      destruct (Z.eqb_spec e 3); [lia|]. simpl. lia.
Qed.

Lemma make_next_day (y m d H M S us : Z) :
  1 <= m <= 12 -> 1 <= d <= month_length y m ->
  DT.make y m d H M S us + DT.days 1
  = DT.make (next_day y m d).1.1 (next_day y m d).1.2 (next_day y m d).2 H M S us.
Proof.
  intros Hm Hd. pose proof (_ymd2ord_next_day y m d Hm Hd) as Hn.
  destruct (next_day y m d) as [[y' m'] d']. destruct Hn as (Hn & _). simpl.
  unfold DT.make, DT.days. rewrite Hn. lia.
Qed.


Example DT_make_fields :
  let t := DT.make 2024 2 29 23 59 58 7 in
  (DT.year t, DT.month t, DT.day t, DT.hour t, DT.minute t, DT.second t,
   DT.microsecond t) = (2024, 2, 29, 23, 59, 58, 7).
Proof. vm_compute. reflexivity. Qed.

Example DT_isoformat_ex :
  DT.isoformat (DT.make 2024 12 31 3 0 0 0) = "2024-12-31T03:00:00".
Proof. vm_compute. reflexivity. Qed.

Example Str_ops_ex :
  Str.replace "today" "2024-01-01" "today at 3 pm today" = "2024-01-01 at 3 pm 2024-01-01"
  /\ Str.replace " at " " " "x at y at  at z" = "x y  z"
  /\ Str.strip "  a b  " = "a b"
  /\ Str.upper (Str.replace " " "" "ka 01 ab 1234") = "KA01AB1234"
  /\ Str.contains "book" "do not book it" = true.
Proof. vm_compute. repeat split. Qed.

Example _spot_label_ex :
  _spot_label "RapidPark-A" (Some 7) = Some "A7"
  /\ _spot_label "north" (Some 12) = Some "N12"
  /\ _spot_label "a-b- c" (Some 3) = Some "C3"
  /\ _spot_label "RapidPark-A" None = None.
Proof. vm_compute. repeat split. Qed.

Example _generate_code_ex :
  _generate_code "ka 01 ab 1234" (DT.make 2024 1 1 15 0 0 0) = "RP-KA01AB1234-01011500".
Proof. vm_compute. reflexivity. Qed.

Example EmailRe_ex :
  EmailRe.matches "john.doe@gmail.com" = true
  /\ EmailRe.matches "john@gmail" = false
  /\ EmailRe.matches "a@b@c.d" = false
  /\ EmailRe.matches "a@.b" = false
  /\ EmailRe.matches "a@b." = false
  /\ EmailRe.matches "a b@c.d" = false.
Proof. vm_compute. repeat split. Qed.

Example extract_vehicle_info_ex :
  extract_vehicle_info "KA01AB1234, car" = (Some "KA01AB1234", Some "car")
  /\ extract_vehicle_info "abc-1234 motorcycle" = (Some "ABC-1234", Some "motorcycle")
  /\ extract_vehicle_info "a caravan, XYZ9876" = (Some "XYZ9876", Some "truck")
  /\ extract_vehicle_info "plate XABC1234" = (None, None)
  /\ extract_vehicle_info "KA 01 AB 1234" = (None, None).
Proof. vm_compute. repeat split. Qed.

Example DT_hours_ex :
  DT.hours (5 # 2) = 9000000000
  /\ DT.hours (233 # 100) = 8388000000
  /\ DT.hours (1 # 7200000000) = 0
  /\ DT.hours (3 # 7200000000) = 2
  /\ DT.hours (- (1 # 2)) = -1800000000.
Proof. vm_compute. repeat split. Qed.

Example EmailRe_newline_ex :
  EmailRe.matches (String.append "a@b.c" (String "010" EmptyString)) = true
  /\ EmailRe.matches (String.append "a@b.c" (String " " EmptyString)) = false.
Proof. vm_compute. repeat split. Qed.

(** ** The spot allocator *)

Section Allocator.

Implicit Types (rows : list (Z * DT.datetime * DT.datetime)).
Implicit Types (taken : gmap Z (list (DT.datetime * DT.datetime))).

Lemma _overlaps_half_open a_start a_end b_start b_end :
  _overlaps a_start a_end b_start b_end = true
  <-> half_open_overlap a_start a_end b_start b_end.
Proof.
  unfold _overlaps, half_open_overlap.
  rewrite negb_true_iff, orb_false_iff, !Z.leb_gt. lia.
Qed.

Lemma taken_by_spot_foldl rows : forall taken spot,
  default [] (foldl (fun taken '(spot, s, e) =>
                       <[spot := (default [] (taken !! spot) ++ [(s, e)])%list]> taken)
                    taken rows !! spot)
  = (default [] (taken !! spot) ++ intervals_of spot rows)%list.
Proof.
  induction rows as [|[[k s] e] rows IH]; intros taken spot; simpl.
  - by rewrite app_nil_r.
  - rewrite IH. unfold intervals_of at 2. simpl.
    destruct (decide (k = spot)) as [->|Hne].
    + rewrite lookup_insert_eq, bool_decide_eq_true_2 by done. simpl.
      by rewrite <- app_assoc.
    + rewrite lookup_insert_ne, bool_decide_eq_false_2 by done. done.
Qed.

Lemma taken_by_spot_lookup rows spot :
  default [] (taken_by_spot rows !! spot) = intervals_of spot rows.
Proof. unfold taken_by_spot. by rewrite taken_by_spot_foldl, lookup_empty. Qed.

Lemma intervals_of_select session lot_name spot s e :
  (s, e) ∈ intervals_of spot (select_rows session lot_name)
  <-> exists r : Reservation.t,
        r ∈ session /\ Reservation.lot_name r = lot_name
        /\ Reservation.status r = "confirmed"
        /\ Reservation.spot_number r = Some spot
        /\ Reservation.start_time r = s /\ Reservation.end_time r = e.
Proof.
  unfold intervals_of, select_rows. rewrite list_elem_of_omap. split.
  - intros [[[k s'] e'] [Hin Hk]]. case_bool_decide; [|done]. simplify_eq.
    apply list_elem_of_omap in Hin as [r [Hr Hsel]]. exists r.
    destruct (bool_decide (Reservation.lot_name r = lot_name)) eqn:Hl; [|done].
    destruct (bool_decide (Reservation.status r = "confirmed")) eqn:Hs; [|done].
    simpl in Hsel. destruct (Reservation.spot_number r) eqn:Hn; [|done].
    apply bool_decide_eq_true_1 in Hl, Hs. by simplify_eq.
  - intros (r & Hr & Hl & Hs & Hn & <- & <-).
    exists (spot, Reservation.start_time r, Reservation.end_time r). split.
    + apply list_elem_of_omap. exists r. split; [done|].
      by rewrite !bool_decide_eq_true_2, Hn by done.
    + by rewrite bool_decide_eq_true_2.
Qed.

Lemma no_overlap_false start end_ intervals :
  no_overlap start end_ intervals = false
  <-> exists s e, (s, e) ∈ intervals /\ half_open_overlap start end_ s e.
Proof.
  unfold no_overlap. induction intervals as [|[s e] l IH]; simpl.
  - split; [done|]. intros (s & e & Hin & _). by apply elem_of_nil in Hin.
  - rewrite andb_false_iff, negb_false_iff, _overlaps_half_open, IH. split.
    + intros [H|(s' & e' & Hin & H)].
      * exists s, e. split; [left|done].
      * exists s', e'. split; [by right|done].
    + intros (s' & e' & Hin & H). apply elem_of_cons in Hin as [Heq|Hin].
      * simplify_eq. by left.
      * right. eauto.
Qed.

(** A spot is passed over exactly when it has a conflict. *)
Lemma spot_taken_iff session lot_name start end_ spot :
  no_overlap start end_
    (default [] (taken_by_spot (select_rows session lot_name) !! spot)) = false
  <-> conflicts session lot_name spot start end_.
Proof.
  rewrite taken_by_spot_lookup, no_overlap_false. unfold conflicts. split.
  - intros (s & e & Hin & Hov).
    apply intervals_of_select in Hin as (r & ? & ? & ? & ? & <- & <-). eauto 10.
  - intros (r & ? & ? & ? & ? & Hov).
    exists (Reservation.start_time r), (Reservation.end_time r). split; [|done].
    apply intervals_of_select. eauto 10.
Qed.

(** The scan over [m, m+1, ..., m+n-1] stops at the first free spot. *)
Lemma first_free_seqZ taken start end_ (n : nat) : forall m,
  let free k := no_overlap start end_ (default [] (taken !! k)) in
  (forall k, first_free taken start end_ (seqZ m (Z.of_nat n)) = Some k
             <-> (m <= k < m + Z.of_nat n) /\ free k = true
                 /\ forall j, m <= j < k -> free j = false)
  /\ (first_free taken start end_ (seqZ m (Z.of_nat n)) = None
      <-> forall k, m <= k < m + Z.of_nat n -> free k = false).
Proof.
  induction n as [|n IH]; intros m free.
  - rewrite seqZ_nil by lia. simpl. split.
    + intros k. split; [done|]. lia.
    + split; [|done]. intros _ k ?. lia.
  - rewrite seqZ_cons by lia.
    replace (Z.pred (Z.of_nat (S n))) with (Z.of_nat n) by lia.
    destruct (IH (Z.succ m)) as [IHs IHn]. simpl.
    fold (free m). destruct (free m) eqn:Hm.
    + split.
      * intros k. split.
        -- intros [= <-]. repeat split; [lia|lia|done|]. intros j ?. lia.
        -- intros (Hk & Hfree & Hfirst).
           destruct (decide (k = m)) as [->|Hne]; [done|].
           specialize (Hfirst m). rewrite Hm in Hfirst. discriminate Hfirst. lia.
      * split; [done|]. intros H. specialize (H m). rewrite Hm in H.
        discriminate H. lia.
    + split.
      * intros k. rewrite IHs. split.
        -- intros (Hk & Hfree & Hfirst). repeat split; [lia|lia|done|].
           intros j Hj. destruct (decide (j = m)) as [->|Hne]; [done|].
           apply Hfirst. lia.
        -- intros (Hk & Hfree & Hfirst).
           assert (k <> m) by (intros ->; fold (free m) in Hfree; congruence).
           repeat split; [lia|lia|done|]. intros j Hj. apply Hfirst. lia.
      * rewrite IHn. split.
        -- intros H k Hk. destruct (decide (k = m)) as [->|Hne]; [done|].
           apply H. lia.
        -- intros H k Hk. apply H. lia.
Qed.

Lemma conflicts_same_rows session session' lot_name spot start end_ :
  (forall r, r ∈ session <-> r ∈ session') ->
  conflicts session lot_name spot start end_ ->
  conflicts session' lot_name spot start end_.
Proof. intros Hsame (r & Hr & H). exists r. split; [by apply Hsame|done]. Qed.

End Allocator.

(** What [_assign_spot] returns, in terms of conflicts. *)
Lemma assign_spot_Some_iff (cfg : config) (session : store) (lot_name : string)
    (start end_ : DT.datetime) (spot : Z) :
  _assign_spot cfg session lot_name start end_ = Some spot
  <-> 1 <= spot <= LOT_CAPACITY cfg
      /\ ~ conflicts session lot_name spot start end_
      /\ forall j, 1 <= j < spot -> conflicts session lot_name j start end_.
Proof.
  unfold _assign_spot.
  destruct (Z.le_gt_cases (LOT_CAPACITY cfg) 0) as [Hcap|Hcap].
  - rewrite seqZ_nil by done. simpl. split; [done|]. lia.
  - pose proof (first_free_seqZ (taken_by_spot (select_rows session lot_name)) start end_
                  (Z.to_nat (LOT_CAPACITY cfg)) 1) as [Hs _].
    rewrite Z2Nat.id in Hs by lia. rewrite Hs. split.
    + intros (Hk & Hfree & Hfirst). split; [lia|]. split.
      * rewrite <- spot_taken_iff. congruence.
      * intros j Hj. apply spot_taken_iff, Hfirst. lia.
    + intros (Hk & Hfree & Hfirst). split; [lia|]. split.
      * rewrite <- spot_taken_iff in Hfree. by apply not_false_iff_true.
      * intros j Hj. apply spot_taken_iff, Hfirst. lia.
Qed.

Lemma assign_spot_None_iff (cfg : config) (session : store) (lot_name : string)
    (start end_ : DT.datetime) :
  _assign_spot cfg session lot_name start end_ = None
  <-> forall spot, 1 <= spot <= LOT_CAPACITY cfg ->
                   conflicts session lot_name spot start end_.
Proof.
  unfold _assign_spot.
  destruct (Z.le_gt_cases (LOT_CAPACITY cfg) 0) as [Hcap|Hcap].
  - rewrite seqZ_nil by done. simpl. split; [|done]. intros _ spot ?. lia.
  - pose proof (first_free_seqZ (taken_by_spot (select_rows session lot_name)) start end_
                  (Z.to_nat (LOT_CAPACITY cfg)) 1) as [_ Hn].
    rewrite Z2Nat.id in Hn by lia. rewrite Hn. split.
    + intros H spot Hk. apply spot_taken_iff, H. lia.
    + intros H spot Hk. apply spot_taken_iff, H. lia.
Qed.

(** C1.  For every reservation table, lot and candidate interval,
    [_assign_spot] returns the smallest spot number in [1..LOT_CAPACITY]
    that has no confirmed reservation whose interval half-open-overlaps
    the candidate ([start_a < end_b] and [start_b < end_a]; a spot without
    recorded intervals has no conflict), it returns [None] exactly when
    every spot in that range has a conflict, and the result depends only on
    the set of reservations and the candidate interval. *)
Theorem assign_spot_first_fit (cfg : config) (session : store) (lot_name : string)
    (start end_ : DT.datetime) :
  (forall spot,
      _assign_spot cfg session lot_name start end_ = Some spot
      <-> 1 <= spot <= LOT_CAPACITY cfg
          /\ ~ conflicts session lot_name spot start end_
          /\ forall j, 1 <= j < spot -> conflicts session lot_name j start end_)
  /\ (_assign_spot cfg session lot_name start end_ = None
      <-> forall spot, 1 <= spot <= LOT_CAPACITY cfg ->
                       conflicts session lot_name spot start end_)
  /\ (forall session' : store,
         (forall r, r ∈ session <-> r ∈ session') ->
         _assign_spot cfg session' lot_name start end_
         = _assign_spot cfg session lot_name start end_).
Proof.
  split; [intros spot; apply assign_spot_Some_iff|].
  split; [apply assign_spot_None_iff|].
  intros session' Hsame.
  destruct (_assign_spot cfg session lot_name start end_) as [spot|] eqn:Heq.
  - apply assign_spot_Some_iff.
    apply assign_spot_Some_iff in Heq as (Hk & Hfree & Hfirst).
    split; [done|]. split.
    + intros Hc. apply Hfree. revert Hc. apply conflicts_same_rows.
      intros r. symmetry. apply Hsame.
    + intros j Hj. by apply (conflicts_same_rows session), Hfirst.
  - apply assign_spot_None_iff. intros spot Hk.
    apply (conflicts_same_rows session); [done|].
    by apply (proj1 (assign_spot_None_iff _ _ _ _ _) Heq).
Qed.

(** Scenario: a lot of one spot, empty table, then the same interval again. *)
Example assign_spot_scenarios :
  let cfg := {| LOT_NAME := "RapidPark-A"; LOT_CAPACITY := 1;
                RATE_CENTS_PER_HOUR := 400; RATE_CENTS_PER_HOUR_CAR := 400;
                RATE_CENTS_PER_HOUR_MOTORCYCLE := 300; RATE_CENTS_PER_HOUR_TRUCK := 600;
                MIN_CHARGE_MINUTES := 60 |} in
  let t := DT.make 2024 1 1 10 0 0 0 in
  let booked := {|
    Reservation.id := Some 1; Reservation.created_at := t;
    Reservation.customer_name := "Ann"; Reservation.email := None;
    Reservation.phone := None; Reservation.vehicle_reg := "ABC1234";
    Reservation.vehicle_type := None; Reservation.lot_name := "RapidPark-A";
    Reservation.spot_number := Some 1; Reservation.start_time := t;
    Reservation.end_time := t + DT.hours 2; Reservation.price_cents := 800;
    Reservation.confirmation_code := "RP-ABC1234-01011000";
    Reservation.status := "confirmed" |} in
  _assign_spot cfg [] "RapidPark-A" t (t + DT.hours 2) = Some 1
  /\ _assign_spot cfg [booked] "RapidPark-A" (t + DT.hours 1) (t + DT.hours 3) = None
  /\ _assign_spot cfg [booked] "RapidPark-A" (t + DT.hours 2) (t + DT.hours 3) = Some 1
  /\ _assign_spot default_config [booked] "RapidPark-A" (t + DT.hours 1) (t + DT.hours 3)
     = Some 2.
Proof. vm_compute. repeat split. Qed.

(** ** Pricing *)

Section Pricing.

Context (cfg : config).




Lemma _rate_for_vehicle_type_cases (vehicle_type : option string) :
  _rate_for_vehicle_type cfg vehicle_type
  = if bool_decide (class_name vehicle_type = "car") then RATE_CENTS_PER_HOUR_CAR cfg
    else if bool_decide (class_name vehicle_type = "motorcycle")
         then RATE_CENTS_PER_HOUR_MOTORCYCLE cfg
    else if bool_decide (class_name vehicle_type = "truck")
         then RATE_CENTS_PER_HOUR_TRUCK cfg
    else RATE_CENTS_PER_HOUR cfg.
Proof.
  unfold _rate_for_vehicle_type. fold (class_name vehicle_type).
  repeat match goal with
         | |- context [String.eqb ?a ?b] =>
             destruct (String.eqb_spec a b) as [->|?]
         end;
    repeat case_bool_decide; congruence.
Qed.

Lemma _rate_for_vehicle_type_nonneg (vehicle_type : option string) :
  rates_nonneg cfg -> 0 <= _rate_for_vehicle_type cfg vehicle_type.
Proof.
  intros (? & ? & ? & ?). rewrite _rate_for_vehicle_type_cases.
  repeat case_bool_decide; done.
Qed.


End Pricing.


(** Prices at the default rates: the minimum charge, a partial hour, an end
    before the start, an unknown class. *)
Example compute_price_cents_ex :
  let t := DT.make 2024 1 1 10 0 0 0 in
  _compute_price_cents default_config t (t + DT.minutes 10) (Some "car") = 400
  /\ _compute_price_cents default_config t (t + DT.minutes 61) (Some " Motorcycle ") = 600
  /\ _compute_price_cents default_config t (t - DT.hours 3) (Some "truck") = 600
  /\ _compute_price_cents default_config t (t + DT.hours (5 # 2)) (Some "bus") = 1200
  /\ _compute_price_cents default_config t (t + DT.hours 2) None = 800.
Proof. vm_compute. repeat split. Qed.

(** ** Confirmation codes *)

Section Codes.

Lemma prefix_empty (s : string) : String.prefix "" s = true.
Proof. by destruct s. Qed.

Lemma append_empty_l (s : string) : "" +:+ s = s.
Proof. reflexivity. Qed.

Lemma append_String (c : ascii) (a b : string) : String c a +:+ b = String c (a +:+ b).
Proof. reflexivity. Qed.

Lemma length_append (a b : string) :
  String.length (a +:+ b) = (String.length a + String.length b)%nat.
Proof.
  induction a as [|c a IH]; [done|].
  rewrite append_String. simpl. by rewrite IH.
Qed.

Lemma replace_space_filter (s : string) :
  Str.replace " " "" s = Str.of_chars (filter (fun c => c <> " "%char) (Str.chars s)).
Proof.
  unfold Str.replace. induction s as [|c s IH]; [reflexivity|].
  cbn [Str.replace_from Str.chars String.prefix String.length Nat.pred].
  destruct (ascii_dec " " c) as [<-|Hne].
  - rewrite filter_cons_False by (intros H; by apply H).
    rewrite prefix_empty. exact IH.
  - rewrite filter_cons_True by congruence. simpl. by rewrite IH.
Qed.

Lemma map_chars_of_chars (f : ascii -> ascii) (l : list ascii) :
  Str.map_chars f (Str.of_chars l) = Str.of_chars (f <$> l).
Proof. induction l as [|c l IH]; simpl; [done|]. by rewrite IH. Qed.

Lemma normalized_vehicle_id_code (vehicle_reg : string) :
  Str.upper (Str.replace " " "" vehicle_reg) = normalized_vehicle_id vehicle_reg.
Proof.
  unfold Str.upper, normalized_vehicle_id.
  by rewrite replace_space_filter, map_chars_of_chars.
Qed.

Lemma strftime_MMDDHHmm (t : DT.datetime) : DT.strftime "%m%d%H%M" t = MMDDHHmm t.
Proof. reflexivity. Qed.

Lemma length_MMDDHHmm (t : DT.datetime) : String.length (MMDDHHmm t) = 8%nat.
Proof. reflexivity. Qed.

(** Two-digit fields. *)
Lemma digit_inj (a b : Z) : Str.digit a = Str.digit b -> a mod 10 = b mod 10.
Proof.
  unfold Str.digit, Str.chr. intros H.
  assert (0 <= a mod 10 < 10) by (apply Z.mod_pos_bound; lia).
  assert (0 <= b mod 10 < 10) by (apply Z.mod_pos_bound; lia).
  apply (f_equal nat_of_ascii) in H.
  rewrite !nat_ascii_embedding in H by lia. lia.
Qed.

Lemma pad2_inj (a b : Z) :
  0 <= a < 100 -> 0 <= b < 100 -> Str.pad2 a = Str.pad2 b -> a = b.
Proof.
  intros Ha Hb H. unfold Str.pad2 in H. injection H as H1 H2.
  apply digit_inj in H1, H2.
  assert (0 <= a / 10 < 10) by (split; [apply Z.div_pos|apply Z.div_lt_upper_bound]; lia).
  assert (0 <= b / 10 < 10) by (split; [apply Z.div_pos|apply Z.div_lt_upper_bound]; lia).
  rewrite (Z.mod_small (a / 10)), (Z.mod_small (b / 10)) in H1 by lia.
  rewrite (Z.div_mod a 10), (Z.div_mod b 10) by lia. lia.
Qed.

(** Ranges of the calendar fields. *)
Lemma month_day_range_check :
  forallb (fun n =>
    forallb (fun leap =>
      let '(m, d) := DT.month_day leap n in
      (1 <=? m) && (m <=? 12) && (1 <=? d) && (d <=? 31)) [true; false])
    (seqZ 0 365) = true.
Proof. vm_compute. reflexivity. Qed.

Lemma month_day_range (leap : bool) (n : Z) :
  0 <= n < 365 ->
  1 <= (DT.month_day leap n).1 <= 12 /\ 1 <= (DT.month_day leap n).2 <= 31.
Proof.
  intros Hn. pose proof month_day_range_check as H.
  rewrite forallb_forall in H. specialize (H n).
  rewrite <- list_elem_of_In, elem_of_seqZ in H. specialize (H ltac:(lia)).
  rewrite forallb_forall in H. specialize (H leap).
  rewrite <- list_elem_of_In in H.
  assert (leap ∈ [true; false]) as Hleap by (destruct leap; repeat constructor).
  specialize (H Hleap).
  destruct (DT.month_day leap n) as [m d]. simpl. lia.
Qed.

Lemma _ord2ymd_range (n : Z) :
  1 <= (DT._ord2ymd n).1.2 <= 12 /\ 1 <= (DT._ord2ymd n).2 <= 31.
Proof.
  unfold DT._ord2ymd.
  match goal with |- context [if ?b then _ else _] => destruct b end; [simpl; lia|].
  match goal with |- context [DT.month_day ?l ?k] =>
    pose proof (month_day_range l k) as H; destruct (DT.month_day l k) as [m d] end.
  simpl in *. apply H. apply Z.mod_pos_bound. lia.
Qed.

Lemma month_range (t : DT.datetime) : 1 <= DT.month t <= 12.
Proof. apply _ord2ymd_range. Qed.

Lemma day_range (t : DT.datetime) : 1 <= DT.day t <= 31.
Proof. apply _ord2ymd_range. Qed.

Lemma hour_range (t : DT.datetime) : 0 <= DT.hour t <= 23.
Proof.
  unfold DT.hour, DT.time_of_day.
  assert (0 <= t mod DT.US_PER_DAY < DT.US_PER_DAY) as H by (by apply Z.mod_pos_bound).
  split; [apply Z.div_pos; [lia|done]|].
  apply Z.lt_succ_r, Z.div_lt_upper_bound; [done|].
  change (DT.US_PER_HOUR * Z.succ 23) with DT.US_PER_DAY. lia.
Qed.

Lemma minute_range (t : DT.datetime) : 0 <= DT.minute t <= 59.
Proof.
  unfold DT.minute.
  assert (0 <= (DT.time_of_day t / DT.US_PER_MINUTE) mod 60 < 60)
    by (apply Z.mod_pos_bound; lia).
  lia.
Qed.

Lemma MMDDHHmm_inj (t1 t2 : DT.datetime) :
  MMDDHHmm t1 = MMDDHHmm t2
  <-> DT.month t1 = DT.month t2 /\ DT.day t1 = DT.day t2
      /\ DT.hour t1 = DT.hour t2 /\ DT.minute t1 = DT.minute t2.
Proof.
  split.
  - intros H. unfold MMDDHHmm, Str.pad2 in H. simpl in H.
    injection H as Hm1 Hm2 Hd1 Hd2 HH1 HH2 HM1 HM2.
    pose proof (month_range t1). pose proof (month_range t2).
    pose proof (day_range t1). pose proof (day_range t2).
    pose proof (hour_range t1). pose proof (hour_range t2).
    pose proof (minute_range t1). pose proof (minute_range t2).
    repeat split; apply pad2_inj; try lia; unfold Str.pad2; congruence.
  - intros (Hm & Hd & HH & HM). unfold MMDDHHmm. by rewrite Hm, Hd, HH, HM.
Qed.

(** Appending a suffix of known length. *)
Lemma append_inj_length (a b c d : string) :
  String.length c = String.length d -> a +:+ c = b +:+ d -> a = b /\ c = d.
Proof.
  revert b. induction a as [|x a IH]; intros [|y b] Hlen H;
    rewrite ?append_empty_l, ?append_String in H.
  - done.
  - apply (f_equal String.length) in H. simpl in H.
    rewrite length_append in H. lia.
  - apply (f_equal String.length) in H. simpl in H.
    rewrite length_append in H. lia.
  - injection H as -> H. destruct (IH b Hlen H) as [-> ->]. done.
Qed.

Lemma generate_code_parts (vehicle_reg : string) (when : DT.datetime) :
  _generate_code vehicle_reg when
  = "RP-" +:+ normalized_vehicle_id vehicle_reg +:+ "-" +:+ MMDDHHmm when.
Proof.
  unfold _generate_code.
  by rewrite normalized_vehicle_id_code, strftime_MMDDHHmm.
Qed.

(** Two codes are equal exactly when the normalized vehicle ids are equal
    and the start instants agree on month, day, hour and minute. *)
Lemma generate_code_eq_iff (v1 v2 : string) (t1 t2 : DT.datetime) :
  _generate_code v1 t1 = _generate_code v2 t2
  <-> normalized_vehicle_id v1 = normalized_vehicle_id v2
      /\ DT.month t1 = DT.month t2 /\ DT.day t1 = DT.day t2
      /\ DT.hour t1 = DT.hour t2 /\ DT.minute t1 = DT.minute t2.
Proof.
  rewrite <- MMDDHHmm_inj.
  rewrite (generate_code_parts v1 t1), (generate_code_parts v2 t2).
  split.
  - intros H. rewrite !append_String, !append_empty_l in H. injection H as H.
    apply append_inj_length in H as [Hid H].
    + split; [done|]. congruence.
    + reflexivity.
  - by intros [-> ->].
Qed.

End Codes.

Lemma chars_list_ascii (s : string) : Str.chars s = list_ascii_of_string s.
Proof. induction s as [|c s IH]; [done|]. simpl. by rewrite IH. Qed.

Lemma of_chars_string (l : list ascii) : Str.of_chars l = string_of_list_ascii l.
Proof. induction l as [|c l IH]; [done|]. simpl. by rewrite IH. Qed.

Lemma normalized_registration_id (vehicle_reg : string) :
  normalized_vehicle_id vehicle_reg = registration_id vehicle_reg.
Proof.
  unfold normalized_vehicle_id, registration_id.
  rewrite of_chars_string, chars_list_ascii. f_equal.
  apply list_fmap_ext. intros _ c _. apply upper_char_capital.
Qed.

Lemma MMDDHHmm_make (y m d H M S us : Z) :
  civil_date y m d -> clock_time H M S us ->
  MMDDHHmm (DT.make y m d H M S us)
  = two_digits m +:+ two_digits d +:+ two_digits H +:+ two_digits M.
Proof.
  intros (Hy & Hm & Hd) Ht. unfold MMDDHHmm.
  destruct (make_fields y m d H M S us Hm Hd Ht) as (_ & -> & -> & -> & -> & _).
  pose proof (month_length_range y m). destruct Ht as (HH & HM & _).
  by rewrite !pad2_two_digits by lia.
Qed.

(** C6.  For every vehicle id and every start instant, given by its date
    and time of day, the confirmation code is [RP-], the vehicle id without
    its spaces and in capitals, a hyphen, and the month, day, hour and
    minute of the start in two digits each; generating the code again for
    the same vehicle id and start instant gives the same code. *)
Theorem generate_code_format (vehicle_reg : string) (y m d H M S us : Z) :
  civil_date y m d -> clock_time H M S us ->
  _generate_code vehicle_reg (DT.make y m d H M S us)
  = "RP-" +:+ registration_id vehicle_reg +:+ "-"
    +:+ two_digits m +:+ two_digits d +:+ two_digits H +:+ two_digits M
  /\ (forall vehicle_reg' when',
         (vehicle_reg', when') = (vehicle_reg, DT.make y m d H M S us) ->
         _generate_code vehicle_reg' when'
         = _generate_code vehicle_reg (DT.make y m d H M S us)).
Proof.
  intros Hdate Htime. split.
  - by rewrite generate_code_parts, normalized_registration_id, MMDDHHmm_make.
  - intros vehicle_reg' when' [= -> ->]. reflexivity.
Qed.

Lemma generate_code_format_witness :
  _generate_code "ka 01 ab 1234" (DT.make 2024 3 5 14 7 9 0) = "RP-KA01AB1234-03051407".
Proof.
  refine (proj1 (generate_code_format "ka 01 ab 1234" 2024 3 5 14 7 9 0 _ _)).
  - vm_compute. repeat split; discriminate.
  - vm_compute. repeat split; discriminate.
Defined.

(** C7, as the code has it.  Codes generated for two vehicle ids and start
    instants differ whenever the normalized vehicle ids differ or the start
    instants differ in month, day, hour or minute. *)
Theorem generate_code_distinct (v1 v2 : string) (t1 t2 : DT.datetime) :
  normalized_vehicle_id v1 <> normalized_vehicle_id v2
  \/ (DT.month t1, DT.day t1, DT.hour t1, DT.minute t1)
     <> (DT.month t2, DT.day t2, DT.hour t2, DT.minute t2) ->
  _generate_code v1 t1 <> _generate_code v2 t2.
Proof.
  intros Hdiff Heq. apply generate_code_eq_iff in Heq as (Hid & Hm & Hd & HH & HM).
  destruct Hdiff as [Hdiff|Hdiff]; apply Hdiff; [done|]. by rewrite Hm, Hd, HH, HM.
Qed.

Lemma generate_code_distinct_witness :
  _generate_code "ka 01 ab 1234" (DT.make 2024 1 1 10 0 0 0)
  <> _generate_code "KA01AB1234" (DT.make 2024 1 1 10 1 0 0).
Proof.
  apply generate_code_distinct. right. vm_compute. discriminate.
Defined.

(** C7, as stated, fails: two start instants one year apart give the same
    code for the same vehicle. *)
Lemma generate_code_collision :
  ~ (forall (v1 v2 : string) (t1 t2 : DT.datetime),
        normalized_vehicle_id v1 <> normalized_vehicle_id v2 \/ t1 <> t2 ->
        _generate_code v1 t1 <> _generate_code v2 t2).
Proof.
  intros H.
  apply (H "ABC1234" "ABC1234" (DT.make 2024 1 1 10 0 0 0) (DT.make 2025 1 1 10 0 0 0)).
  - right. vm_compute. discriminate.
  - vm_compute. reflexivity.
Qed.

Example generate_code_collision_seconds :
  _generate_code "ABC1234" (DT.make 2024 1 1 10 0 0 0)
  = _generate_code "ABC1234" (DT.make 2024 1 1 10 0 30 0).
Proof. vm_compute. reflexivity. Qed.

(** ** The reserve and quote routes *)

Section RouteProperties.

Context (cfg : config).
Context (isoparse : string -> option DT.datetime).

Lemma truthy_iff (s : string) : Str.truthy s = true <-> s <> "".
Proof. by destruct s. Qed.

Lemma bad_vehicle_type_iff (vehicle_type : option string) :
  bad_vehicle_type vehicle_type = true <-> unknown_class vehicle_type.
Proof.
  unfold bad_vehicle_type, unknown_class. destruct vehicle_type as [s|].
  - rewrite andb_true_iff, negb_true_iff, bool_decide_eq_false, truthy_iff. split.
    + intros [? ?]. by exists s.
    + intros (s' & [= <-] & ? & ?). done.
  - split; [done|]. by intros (s & ? & _).
Qed.

Lemma bad_vehicle_type_false (vehicle_type : option string) :
  bad_vehicle_type vehicle_type = false <-> ~ unknown_class vehicle_type.
Proof. rewrite <- bad_vehicle_type_iff. by destruct (bad_vehicle_type _). Qed.

(** Every failed check is a 400. *)
Lemma create_reservation_checks_400 now data code detail :
  create_reservation_checks now data = HTTPException code detail -> code = 400.
Proof.
  unfold create_reservation_checks. intros H.
  repeat match type of H with
         | context [if ?b then _ else _] => destruct b
         | context [match ?o with Some _ => _ | None => _ end] => destruct o
         end; congruence.
Qed.



(** A failed check ends the route: same reply for every table, table
    untouched, nothing scheduled. *)
Lemma create_reservation_rejected now data code detail :
  create_reservation_checks now data = HTTPException code detail ->
  forall session created,
    create_reservation cfg session now created data
    = (HTTPException 400 detail, session, []).
Proof.
  intros H session created. unfold create_reservation. rewrite H.
  by rewrite (create_reservation_checks_400 _ _ _ _ H).
Qed.



Lemma email_check_iff (email : option string) :
  Str.opt_truthy email && negb (EmailRe.matches (default "" email)) = false
  <-> forall e, supplied email = Some e -> EmailRe.matches e = true.
Proof.
  destruct email as [e|]; simpl; [destruct (Str.truthy e); simpl|].
  - rewrite negb_false_iff. split.
    + by intros H ? [= <-].
    + intros H. by apply H.
  - done.
  - done.
Qed.

(** The interval resolved by the checks of each route. *)
Lemma create_reservation_checks_resolved now data start end_ :
  create_reservation_checks now data = Returned (start, end_)
  <-> ReservationCreate.vehicle_reg data <> ""
      /\ ReservationCreate.customer_name data <> ""
      /\ start = default now (ReservationCreate.start_time data)
      /\ requested_end start (ReservationCreate.end_time data)
           (ReservationCreate.duration_hours data) None = Some end_
      /\ start < end_
      /\ ~ unknown_class (ReservationCreate.vehicle_type data)
      /\ (forall e, supplied (ReservationCreate.email data) = Some e ->
                    EmailRe.matches e = true).
Proof.
  unfold create_reservation_checks.
  rewrite <- !truthy_iff, <- bad_vehicle_type_false, <- email_check_iff.
  destruct data as [cn em ph vr vt st et dh]; simpl.
  destruct (Str.truthy vr), (Str.truthy cn); simpl;
    try (split; [done|intros (? & ? & _); done]).
  set (mail := Str.opt_truthy em && negb (EmailRe.matches (default "" em))).
  set (s0 := default now st).
  destruct et as [e|]; [|destruct dh as [h|]]; simpl.
  - destruct (Z.leb_spec e s0).
    { split; [done|]. intros (_ & _ & -> & [= <-] & ? & _). lia. }
    destruct (bad_vehicle_type vt); [split; [done|intros (_&_&_&_&_&?&_); done]|].
    destruct mail; [split; [done|intros (_&_&_&_&_&_&?); done]|].
    split.
    + intros [= <- <-]. done.
    + intros (_ & _ & -> & [= <-] & _). done.
  - destruct (Z.leb_spec (s0 + DT.hours h) s0).
    { split; [done|]. intros (_ & _ & -> & [= <-] & ? & _). lia. }
    destruct (bad_vehicle_type vt); [split; [done|intros (_&_&_&_&_&?&_); done]|].
    destruct mail; [split; [done|intros (_&_&_&_&_&_&?); done]|].
    split.
    + intros [= <- <-]. done.
    + intros (_ & _ & -> & [= <-] & _). done.
  - split; [done|]. intros (_ & _ & _ & ? & _). done.
Qed.

Lemma supplied_cases (field : option string) :
  (Str.opt_truthy field = true /\ supplied field = Some (default "" field))
  \/ (Str.opt_truthy field = false /\ supplied field = None).
Proof. destruct field as [s|]; simpl; [destruct (Str.truthy s)|]; auto. Qed.



(** A reservation is committed only with a spot that has no conflict. *)
Lemma create_reservation_commit session now created data out session' tasks :
  create_reservation cfg session now created data = (Returned out, session', tasks) ->
  exists start end_ spot r,
    create_reservation_checks now data = Returned (start, end_)
    /\ _assign_spot cfg session (LOT_NAME cfg) start end_ = Some spot
    /\ session' = (session ++ [r])%list
    /\ Reservation.lot_name r = LOT_NAME cfg
    /\ Reservation.status r = "confirmed"
    /\ Reservation.spot_number r = Some spot
    /\ Reservation.start_time r = start /\ Reservation.end_time r = end_.
Proof.
  unfold create_reservation. intros H.
  destruct (create_reservation_checks now data) as [[start end_]|] eqn:Hc; [|done].
  destruct (_assign_spot cfg session (LOT_NAME cfg) start end_) as [spot|] eqn:Ha; [|done].
  injection H as _ <- _. by eexists start, end_, spot, _.
Qed.

Lemma half_open_overlap_sym a b c d :
  half_open_overlap a b c d <-> half_open_overlap c d a b.
Proof. unfold half_open_overlap. lia. Qed.

(** Served one after another, reserve requests never double-book. *)
Lemma create_reservation_no_double_booking session now created data :
  no_double_booking session ->
  no_double_booking (create_reservation cfg session now created data).1.2.
Proof.
  intros Hinv.
  destruct (create_reservation cfg session now created data) as [[o session'] tasks] eqn:Hcr.
  simpl. destruct o as [out|code detail].
  - apply create_reservation_commit in Hcr
      as (start & end_ & spot & r & _ & Ha & -> & Hlot & Hst & Hsp & Hs & He).
    apply assign_spot_Some_iff in Ha as (_ & Hfree & _).
    assert (Hnew : forall (k : nat) (r' : Reservation.t) (n : Z),
      session !! k = Some r' -> Reservation.status r' = "confirmed" ->
      Reservation.lot_name r' = Reservation.lot_name r ->
      Reservation.spot_number r' = Some n -> Reservation.spot_number r = Some n ->
      ~ half_open_overlap (Reservation.start_time r) (Reservation.end_time r)
                          (Reservation.start_time r') (Reservation.end_time r')).
    { intros k r' n Hk Hst' Hlot' Hn' Hn Hov. apply Hfree. exists r'.
      split; [by eapply list_elem_of_lookup_2|].
      rewrite Hs, He in Hov. split; [congruence|]. split; [done|].
      split; [congruence|done]. }
    intros i j r1 r2 n Hij H1 H2 Hc1 Hc2 Hl Hn1 Hn2.
    apply lookup_app_Some in H1 as [H1|[Hi H1]];
      apply lookup_app_Some in H2 as [H2|[Hj H2]].
    + by eapply Hinv.
    + apply list_lookup_singleton_Some in H2 as [_ <-].
      rewrite half_open_overlap_sym. by eapply Hnew.
    + apply list_lookup_singleton_Some in H1 as [_ <-].
      eapply Hnew; eauto.
    + apply list_lookup_singleton_Some in H1 as [? _].
      apply list_lookup_singleton_Some in H2 as [? _]. lia.
  - unfold create_reservation in Hcr.
    destruct (create_reservation_checks now data) as [[start end_]|]; [|by simplify_eq].
    destruct (_assign_spot cfg session (LOT_NAME cfg) start end_); by simplify_eq.
Qed.

Lemma quote_keeps_table session now data :
  (quote cfg isoparse session now data).2 = session.
Proof. unfold quote. by destruct (quote_checks isoparse now data) as [[? ?]|]. Qed.

Lemma served_no_double_booking session :
  served cfg isoparse session -> no_double_booking session.
Proof.
  induction 1 as [|session now created data _ IH|session now data _ IH].
  - intros i j r1 r2 spot _ H. by rewrite lookup_nil in H.
  - by apply create_reservation_no_double_booking.
  - by rewrite quote_keeps_table.
Qed.

(** C4.  When a reserve request passes the input checks and every spot in
    [1..LOT_CAPACITY] has a conflict with the requested interval, the reply
    is HTTP 409, the table is unchanged and nothing is scheduled; a request
    that fails an input check gets HTTP 400 instead, and a 409 is given for
    no other reason. *)
Theorem reserve_capacity_exhausted (session : store) (now created : DT.datetime)
    (data : ReservationCreate.t) (start end_ : DT.datetime) :
  create_reservation_checks now data = Returned (start, end_) ->
  (forall spot, 1 <= spot <= LOT_CAPACITY cfg ->
                conflicts session (LOT_NAME cfg) spot start end_) ->
  create_reservation cfg session now created data
  = (HTTPException 409 "No spots available for the requested time range", session, [])
  /\ (forall (data' : ReservationCreate.t) code detail,
         create_reservation_checks now data' = HTTPException code detail ->
         create_reservation cfg session now created data'
         = (HTTPException 400 detail, session, []))
  /\ (forall data' : ReservationCreate.t,
         status_of (create_reservation cfg session now created data').1.1 = 409 ->
         exists start' end',
           create_reservation_checks now data' = Returned (start', end')
           /\ (forall spot, 1 <= spot <= LOT_CAPACITY cfg ->
                            conflicts session (LOT_NAME cfg) spot start' end')
           /\ (create_reservation cfg session now created data').1.2 = session).
Proof.
  intros Hchecks Hfull. split; [|split].
  - unfold create_reservation. rewrite Hchecks.
    by rewrite (proj2 (assign_spot_None_iff cfg session (LOT_NAME cfg) start end_) Hfull).
  - intros data' code detail H. by eapply create_reservation_rejected.
  - intros data'. unfold create_reservation.
    destruct (create_reservation_checks now data') as [[start' end']|code detail] eqn:Hc.
    + destruct (_assign_spot cfg session (LOT_NAME cfg) start' end') as [spot|] eqn:Ha.
      * simpl. done.
      * intros _. exists start', end'. split; [done|]. split; [|done].
        by apply assign_spot_None_iff.
    + simpl. intros ->. by apply create_reservation_checks_400 in Hc.
Qed.


End RouteProperties.

Lemma reserve_capacity_exhausted_witness :
  create_reservation Scenario.one_spot Scenario.after_first
    (Scenario.T + DT.hours 1) (Scenario.T + DT.hours 1)
    (Scenario.two_hours_from (Scenario.T + DT.hours 1))
  = (HTTPException 409 "No spots available for the requested time range",
     Scenario.after_first, []).
Proof.
  refine (proj1 (reserve_capacity_exhausted Scenario.one_spot Scenario.after_first
                   (Scenario.T + DT.hours 1) (Scenario.T + DT.hours 1)
                   (Scenario.two_hours_from (Scenario.T + DT.hours 1))
                   (Scenario.T + DT.hours 1) (Scenario.T + DT.hours 3) _ _)).
  - vm_compute. reflexivity.
  - intros spot Hspot. simpl in Hspot. assert (spot = 1) as -> by lia.
    eexists. split; [apply list_elem_of_here|].
    vm_compute. repeat split.
Defined.

(** Scenarios 1 and 2: a quote on the empty one-spot lot, the first
    reservation, an overlapping second request, and one that only touches
    the first at its end. *)
Example quote_reserve_scenarios :
  let quoted :=
    quote Scenario.one_spot Scenario.no_isoparse [] Scenario.T Scenario.quote_two_hours in
  (exists out, quoted = (Returned out, [])
     /\ QuoteOut.price_cents out = 800 /\ QuoteOut.available out = true
     /\ QuoteOut.suggested_spot out = Some 1
     /\ QuoteOut.suggested_label out = Some "A1"
     /\ QuoteOut.end_time out = Scenario.T + DT.hours 2)
  /\ (exists out tasks,
        create_reservation Scenario.one_spot [] Scenario.T Scenario.T
          (Scenario.two_hours_from Scenario.T)
        = (Returned out, Scenario.after_first, tasks)
        /\ ReservationOut.spot_number out = 1
        /\ ReservationOut.price_cents out = 800
        /\ ReservationOut.confirmation_code out = "RP-KA01AB1234-01011000"
        /\ length Scenario.after_first = 1%nat)
  /\ status_of (create_reservation Scenario.one_spot Scenario.after_first
                  Scenario.T Scenario.T
                  (Scenario.two_hours_from (Scenario.T + DT.hours 1))).1.1 = 409
  /\ status_of (create_reservation Scenario.one_spot Scenario.after_first
                  Scenario.T Scenario.T
                  (Scenario.two_hours_from (Scenario.T + DT.hours 2))).1.1 = 200.
Proof.
  split; [|split; [|split]].
  - eexists. split; [vm_compute; reflexivity|]. vm_compute. repeat split.
  - eexists _, _. split; [vm_compute; reflexivity|]. vm_compute. repeat split.
  - vm_compute. reflexivity.
  - vm_compute. reflexivity.
Qed.

(** ** The conversation agent *)

Section Dialogue.

Lemma run_bind {A B} (env : server) (p : turn A) (f : A -> turn B) :
  run env (bind p f) = run env (f (run env p)).
Proof. induction p as [a|X c k IH]; simpl; [done|]. apply IH. Qed.

(** The reserve call is made in the confirmation state only, and there
    only for an utterance that contains an affirmative word. *)
Lemma invokes_reserve_iff (user_message : string) (context : AgentContext.t) :
  invokes_reserve (handle_conversation user_message context)
  <-> AgentContext.state context = CONFIRM_RESERVATION
      /\ is_affirmative user_message = true.
Proof.
  unfold handle_conversation.
  destruct (AgentContext.state context) eqn:Hstate.
  all: try (split; [intros H; exfalso|intros [? _]; discriminate]).
  - exact H.
  - destruct (_ && _); exact H.
  - destruct (extract_vehicle_info user_message) as [reg vtype].
    destruct (Str.opt_truthy reg); exact H.
  - destruct H as [?|[[x|] H]]; done.
  - destruct H as [?|[[x|] H]]; [done| |done].
    destruct H as [?|[[q|] H]]; done.
  - destruct (wants_skip user_message); [exact H|].
    destruct H as [?|[[x|] H]]; done.
  - exact H.
  - destruct (is_affirmative user_message); simpl.
    + split; [done|]. intros _. by left.
    + split; [done|]. intros [_ ?]. done.
  - exact H.
Qed.

(** What a turn in the confirmation state does. *)
Lemma confirm_declined (user_message : string) (context : AgentContext.t) :
  AgentContext.state context = CONFIRM_RESERVATION ->
  is_affirmative user_message = false ->
  handle_conversation user_message context
  = Done (reply SayCancelled true (AgentContext.set_state COMPLETED context)).
Proof. intros Hs Ha. unfold handle_conversation. by rewrite Hs, Ha. Qed.

Lemma confirm_accepted (user_message : string) (context : AgentContext.t) :
  AgentContext.state context = CONFIRM_RESERVATION ->
  is_affirmative user_message = true ->
  exists k,
    handle_conversation user_message context
    = Call (Api.reservations {|
              Api.r_customer_name := AgentContext.customer_name context;
              Api.r_email := AgentContext.email context;
              Api.r_vehicle_reg := AgentContext.vehicle_reg context;
              Api.r_vehicle_type := AgentContext.vehicle_type context;
              Api.r_start_time := AgentContext.arrival_time context;
              Api.r_duration_hours := AgentContext.duration_hours context |}) k
    /\ k None = Done (reply SayReserveError true context)
    /\ forall r, exists response context',
         k (Some r) = Done (response, context')
         /\ AgentContext.state context' = COMPLETED
         /\ AgentContext.reservation context' = Some r
         /\ CartesiaWebhookResponse.end_call response = true
         /\ CartesiaWebhookResponse.message response
            = SayReserved (ReservationOut.confirmation_code r)
                (ReservationOut.spot_label r) (ReservationOut.lot_name r)
                (AgentContext.email context).
Proof.
  intros Hs Ha. unfold handle_conversation. rewrite Hs, Ha.
  eexists. split; [reflexivity|]. split; [reflexivity|].
  intros r. by eexists _, _.
Qed.

End Dialogue.

(** The branch of the confirmation state, in terms of the word test of the
    code: the reserve call is made, and a reservation stored, only for an
    utterance that contains one of the five words; every other utterance
    moves the session to COMPLETED with the cancellation message, ends the
    call and makes no call to the server.  No other state makes the reserve
    call. *)
Lemma confirm_only_on_affirmative (user_message : string) (context : AgentContext.t) :
  (invokes_reserve (handle_conversation user_message context)
   <-> AgentContext.state context = CONFIRM_RESERVATION
       /\ is_affirmative user_message = true)
  /\ (AgentContext.state context = CONFIRM_RESERVATION ->
      is_affirmative user_message = false ->
      silent (handle_conversation user_message context)
      /\ forall env : server,
           let '(response, context') := run env (handle_conversation user_message context) in
           AgentContext.state context' = COMPLETED
           /\ CartesiaWebhookResponse.message response = SayCancelled
           /\ CartesiaWebhookResponse.end_call response = true
           /\ AgentContext.reservation context' = AgentContext.reservation context)
  /\ (forall env : server,
        AgentContext.reservation (run env (handle_conversation user_message context)).2
        <> AgentContext.reservation context ->
        AgentContext.state context = CONFIRM_RESERVATION
        /\ is_affirmative user_message = true).
Proof.
  split; [apply invokes_reserve_iff|]. split.
  - intros Hs Ha. rewrite (confirm_declined _ _ Hs Ha). split; [done|].
    intros env. simpl. done.
  - intros env. unfold handle_conversation.
    destruct (AgentContext.state context) eqn:Hs; simpl;
      repeat match goal with
             | |- context [if ?b then _ else _] => destruct b eqn:?; simpl
             | |- context [let '(_, _) := ?p in _] => destruct p; simpl
             | |- context [match env ?X ?c with Some _ => _ | None => _ end] =>
                 destruct (env X c); simpl
             end;
      try done.
    all: unfold confirm_details; simpl;
      repeat match goal with
             | |- context [match ?o with Some _ => _ | None => _ end] => destruct o; simpl
             end; done.
Qed.

(** C8.  Consent is tested by searching the utterance for the words yes,
    confirm, correct, proceed and book, so a refusal that contains one of
    them is taken as consent.  After the full intake the answer
    [no, do not book it] makes the reserve call with the collected fields;
    the reservation the server returns is stored in the session and the
    call ends with the confirmation, where the answer [no] cancels. *)
Theorem confirm_books_on_refusal :
  let asked := turns DialogueScenario.backend "call-1" DialogueScenario.intake ∅ in
  let refused := turns DialogueScenario.backend "call-1" ["no, do not book it"] asked in
  let declined := turns DialogueScenario.backend "call-1" ["no"] asked in
  AgentContext.state <$> asked !! "call-1" = Some CONFIRM_RESERVATION
  /\ (asked !! "call-1" ≫= AgentContext.reservation) = None
  /\ (forall context, asked !! "call-1" = Some context ->
      invokes_reserve (handle_conversation "no, do not book it" context)
      /\ CartesiaWebhookResponse.message
           (run DialogueScenario.backend
              (handle_conversation "no, do not book it" context)).1
         = SayReserved "RP-KA01AB1234-01011500" "A1" "RapidPark-A" None)
  /\ AgentContext.state <$> refused !! "call-1" = Some COMPLETED
  /\ (refused !! "call-1" ≫= AgentContext.reservation) = Some DialogueScenario.reserved
  /\ (declined !! "call-1" ≫= AgentContext.reservation) = None.
Proof.
  cbv zeta.
  split; [vm_compute; reflexivity|]. split; [vm_compute; reflexivity|].
  split; [|vm_compute; repeat split].
  intros context Hc. vm_compute in Hc. injection Hc as <-.
  split; [left; reflexivity|vm_compute; reflexivity].
Qed.

(** Utterances that decline in words and still contain an affirmative
    word are taken as consent by the word test. *)
Example is_affirmative_ex :
  is_affirmative "Yes please" = true
  /\ is_affirmative "no" = false
  /\ is_affirmative "maybe later" = false
  /\ is_affirmative "no, do not book it" = true
  /\ is_affirmative "that is not correct" = true.
Proof. vm_compute. repeat split. Qed.

Section Sessions.

Lemma confirm_details_holds_quote (context : AgentContext.t) :
  is_Some (AgentContext.quote context) ->
  holds_quote (confirm_details context).2.
Proof.
  intros [q Hq] _. unfold confirm_details. simpl. rewrite Hq. simpl. by rewrite Hq.
Qed.

(** A turn keeps the quote where one is due, whatever the server answers. *)
Lemma handle_conversation_holds_quote (env : server) (user_message : string)
    (context : AgentContext.t) :
  holds_quote context ->
  holds_quote (run env (handle_conversation user_message context)).2.
Proof.
  intros Hinv. unfold handle_conversation.
  destruct (AgentContext.state context) eqn:Hs.
  - by intros ?.
  - destruct (_ && _); simpl; [by intros ?|done].
  - destruct (extract_vehicle_info user_message) as [reg vtype].
    destruct (Str.opt_truthy reg); simpl; [by intros ?|done].
  - simpl. destruct (env _ _); simpl; [by intros ?|done].
  - simpl. destruct (env _ (Api.parse_duration _ _)) as [r|]; simpl; [|done].
    destruct (env _ (Api.quote _)) as [q|]; simpl.
    + intros _. simpl. by eexists.
    + intros H. simpl in H. rewrite Hs in H. done.
  - assert (is_Some (AgentContext.quote context)) as Hq by (apply Hinv; by rewrite Hs).
    destruct (wants_skip user_message); simpl.
    + by apply confirm_details_holds_quote.
    + destruct (env _ _); simpl; [|done]. by apply confirm_details_holds_quote.
  - done.
  - assert (is_Some (AgentContext.quote context)) as Hq by (apply Hinv; by rewrite Hs).
    destruct (is_affirmative user_message); simpl.
    + destruct (env _ _); simpl; [|done]. by intros _.
    + by intros _.
  - done.
Qed.

Lemma cartesia_webhook_holds_quote (env : server) (call_id event_type user_message : string)
    (sessions : gmap string AgentContext.t) :
  map_Forall (fun _ => holds_quote) sessions ->
  map_Forall (fun _ => holds_quote)
    (run env (cartesia_webhook call_id event_type user_message sessions)).2.
Proof.
  intros Hall. unfold cartesia_webhook.
  destruct (negb (Str.truthy call_id)); [done|].
  assert (holds_quote (get_session call_id sessions).1
          /\ map_Forall (fun _ => holds_quote) (get_session call_id sessions).2)
    as [Hctx Hall'].
  { unfold get_session. destruct (sessions !! call_id) as [c|] eqn:Hc; simpl.
    - split; [by eapply Hall|done].
    - split; [done|]. by apply map_Forall_insert_2. }
  destruct (get_session call_id sessions) as [context sessions']. simpl in *.
  destruct (String.eqb event_type "call_started"); [done|].
  destruct (String.eqb event_type "call_ended"); simpl.
  - by apply map_Forall_delete.
  - rewrite run_bind.
    pose proof (handle_conversation_holds_quote env user_message context Hctx) as Hstep.
    destruct (run env (handle_conversation user_message context)) as [response context'].
    simpl in *. by apply map_Forall_insert_2.
Qed.

Lemma reachable_holds_quote (sessions : gmap string AgentContext.t) :
  reachable sessions -> map_Forall (fun _ => holds_quote) sessions.
Proof.
  induction 1 as [|sessions env call_id event_type user_message _ IH|sessions call_id _ IH].
  - apply map_Forall_empty.
  - by apply cartesia_webhook_holds_quote.
  - by apply map_Forall_delete.
Qed.

(** What a turn in the duration state does. *)
Lemma collect_duration_turn (env : server) (user_message : string)
    (context : AgentContext.t) :
  AgentContext.state context = COLLECT_DURATION ->
  let '(response, context') := run env (handle_conversation user_message context) in
  (AgentContext.state context' = COLLECT_EMAIL
   /\ exists r q,
        env _ (Api.parse_duration user_message (AgentContext.arrival_time context)) = Some r
        /\ env _ (Api.quote {|
                    Api.q_vehicle_reg := AgentContext.vehicle_reg context;
                    Api.q_vehicle_type := AgentContext.vehicle_type context;
                    Api.q_start_time := AgentContext.arrival_time context;
                    Api.q_duration_hours := Some (Api.duration_hours r) |}) = Some q
        /\ AgentContext.quote context' = Some q
        /\ CartesiaWebhookResponse.message response
           = SayQuoteAskEmail (Some (Api.duration_hours r)) (QuoteOut.price_cents q)
               (QuoteOut.suggested_label q) (QuoteOut.lot_name q))
  \/ (AgentContext.state context' = COLLECT_DURATION
      /\ AgentContext.quote context' = AgentContext.quote context
      /\ CartesiaWebhookResponse.message response = SayRepeatDuration
      /\ CartesiaWebhookResponse.end_call response = false
      /\ (env _ (Api.parse_duration user_message (AgentContext.arrival_time context)) = None
          \/ exists args, env _ (Api.quote args) = None)).
Proof.
  intros Hs. unfold handle_conversation. rewrite Hs. simpl.
  destruct (env _ (Api.parse_duration _ _)) as [r|] eqn:Hr; simpl.
  - destruct (env _ (Api.quote _)) as [q|] eqn:Hq; simpl.
    + left. split; [done|]. by exists r, q.
    + right. repeat split; try done. right. by eexists.
  - right. repeat split; try done. by left.
Qed.

End Sessions.

(** C9.  In every session table reachable through the webhook, a session
    in the confirmation state holds a quote, and with it a price.  A turn
    in the duration state moves on only with the quote the server returned,
    which it stores; when the duration or the quote call fails it asks for
    the duration again and stays in the same state. *)
Theorem confirm_state_holds_quote :
  (forall (sessions : gmap string AgentContext.t) (call_id : string)
          (context : AgentContext.t),
      reachable sessions ->
      sessions !! call_id = Some context ->
      AgentContext.state context = CONFIRM_RESERVATION ->
      exists q, AgentContext.quote context = Some q)
  /\ (forall (env : server) (user_message : string) (context : AgentContext.t),
        AgentContext.state context = COLLECT_DURATION ->
        let '(response, context') := run env (handle_conversation user_message context) in
        (AgentContext.state context' = COLLECT_EMAIL
         /\ exists q, (exists args, env _ (Api.quote args) = Some q)
                      /\ AgentContext.quote context' = Some q)
        \/ (AgentContext.state context' = COLLECT_DURATION
            /\ AgentContext.quote context' = AgentContext.quote context
            /\ CartesiaWebhookResponse.message response = SayRepeatDuration
            /\ CartesiaWebhookResponse.end_call response = false))
  /\ (forall (env : server) (user_message : string) (context : AgentContext.t),
        AgentContext.state (run env (handle_conversation user_message context)).2
        = CONFIRM_RESERVATION ->
        AgentContext.state context = COLLECT_EMAIL
        \/ AgentContext.state context = CONFIRM_RESERVATION).
Proof.
  split; [|split].
  - intros sessions call_id context Hreach Hlook Hstate.
    apply reachable_holds_quote in Hreach.
    apply (Hreach call_id context Hlook). by rewrite Hstate.
  - intros env user_message context Hs.
    pose proof (collect_duration_turn env user_message context Hs) as H.
    destruct (run env (handle_conversation user_message context)) as [response context'].
    destruct H as [(Hst & r & q & _ & Hq & Hstored & _)|(Hst & Hq & Hm & He & _)].
    + left. split; [done|]. exists q. split; [by eexists|done].
    + right. done.
  - intros env user_message context. unfold handle_conversation.
    destruct (AgentContext.state context) eqn:Hs; simpl; try (by auto);
      repeat match goal with
             | |- context [if ?b then _ else _] => destruct b eqn:?; simpl
             | |- context [let '(_, _) := ?p in _] => destruct p; simpl
             | |- context [match env ?X ?c with Some _ => _ | None => _ end] =>
                 destruct (env X c); simpl
             end;
      try rewrite Hs; try done; auto.
Qed.

Lemma reachable_turns (env : server) (call_id : string) (utterances : list string) :
  forall sessions, reachable sessions -> reachable (turns env call_id utterances sessions).
Proof.
  unfold turns. induction utterances as [|u us IH]; intros sessions Hr; simpl; [done|].
  apply IH. by constructor.
Qed.

(** Scenario 6 and its variants: a full intake answered "yes", the same
    intake answered "no", and an intake during which the quote call fails. *)
Example dialogue_scenarios :
  let asked := turns DialogueScenario.backend "call-1" DialogueScenario.intake ∅ in
  let accepted := turns DialogueScenario.backend "call-1" ["yes, please"] asked in
  let declined := turns DialogueScenario.backend "call-1" ["no"] asked in
  let stuck := turns DialogueScenario.no_quote "call-1" DialogueScenario.intake ∅ in
  reachable asked
  /\ AgentContext.state <$> asked !! "call-1" = Some CONFIRM_RESERVATION
  /\ (asked !! "call-1" ≫= AgentContext.quote) = Some DialogueScenario.quoted
  /\ AgentContext.state <$> accepted !! "call-1" = Some COMPLETED
  /\ (accepted !! "call-1" ≫= AgentContext.reservation) = Some DialogueScenario.reserved
  /\ AgentContext.state <$> declined !! "call-1" = Some COMPLETED
  /\ (declined !! "call-1" ≫= AgentContext.reservation) = None
  /\ AgentContext.state <$> stuck !! "call-1" = Some COLLECT_DURATION
  /\ (stuck !! "call-1" ≫= AgentContext.quote) = None.
Proof.
  split; [apply reachable_turns; constructor|].
  vm_compute. repeat split.
Qed.

(** ** Arrival times *)

Section Arrival.

(** [dateutil.parser.parse(text, default=now)]. *)
Context (date_parse : string -> DT.datetime -> option DT.datetime).

Lemma strftime_iso_date (t : DT.datetime) : DT.strftime "%Y-%m-%d" t = iso_date t.
Proof. reflexivity. Qed.

Lemma arrival_text_cases (text : string) (now : DT.datetime) :
  arrival_text text now
  = Str.replace " at " " "
      (if Str.contains "today" (Str.lower text)
       then Str.replace "today" (iso_date now) (Str.lower text)
       else if Str.contains "tomorrow" (Str.lower text)
       then Str.replace "tomorrow" (iso_date (now + 24 * 3600 * 1000000)) (Str.lower text)
       else text).
Proof. reflexivity. Qed.

Lemma roll_next_occurrence (now dt : DT.datetime) :
  (if dt <? now - DT.minutes 5 then dt + DT.days 1 else dt) = next_occurrence now dt.
Proof.
  unfold next_occurrence, long_past, DT.minutes, DT.days, DT.US_PER_DAY, DT.US_PER_HOUR,
    DT.US_PER_MINUTE, DT.US_PER_SECOND.
  destruct (Z.ltb_spec dt (now - 5 * (60 * 1000000))).
  - rewrite bool_decide_eq_true_2 by lia. lia.
  - rewrite bool_decide_eq_false_2 by lia. done.
Qed.

Lemma parse_arrival_parsed (utterance : string) (now dt : DT.datetime) :
  Str.strip utterance <> "" ->
  date_parse (arrival_text (Str.strip utterance) now) now = Some dt ->
  parse_arrival date_parse utterance now
  = Returned (DT.isoformat (DT.replace_microsecond_0 (next_occurrence now dt))).
Proof.
  intros Htext Hparse. unfold parse_arrival.
  destruct (Str.strip utterance) eqn:Hs; [done|]. simpl negb. cbv iota.
  by rewrite Hparse, roll_next_occurrence.
Qed.

End Arrival.

(** The written form of a constructed instant. *)
Lemma iso_date_make (y m d H M S us : Z) :
  civil_date y m d -> clock_time H M S us ->
  iso_date (DT.make y m d H M S us) = written_date y m d.
Proof.
  intros (Hy & Hm & Hd) Ht. unfold iso_date, written_date.
  destruct (make_fields y m d H M S us Hm Hd Ht) as (-> & -> & -> & _).
  pose proof (month_length_range y m).
  by rewrite pad4_four_digits, !pad2_two_digits by lia.
Qed.

Lemma isoformat_make (y m d H M S us : Z) :
  civil_date y m d -> clock_time H M S us ->
  DT.isoformat (DT.replace_microsecond_0 (DT.make y m d H M S us))
  = written_instant y m d H M S.
Proof.
  intros (Hy & Hm & Hd) Ht.
  assert (clock_time H M S 0) as Ht0 by (unfold clock_time in *; lia).
  assert (DT.replace_microsecond_0 (DT.make y m d H M S us) = DT.make y m d H M S 0) as ->.
  { unfold DT.replace_microsecond_0.
    destruct (make_fields y m d H M S us Hm Hd Ht) as (_ & _ & _ & _ & _ & _ & ->).
    unfold DT.make. lia. }
  change (DT.isoformat (DT.make y m d H M S 0))
    with (Str.pad4 (DT.year (DT.make y m d H M S 0)) +:+ "-"
          +:+ Str.pad2 (DT.month (DT.make y m d H M S 0)) +:+ "-"
          +:+ Str.pad2 (DT.day (DT.make y m d H M S 0)) +:+ "T"
          +:+ Str.pad2 (DT.hour (DT.make y m d H M S 0)) +:+ ":"
          +:+ Str.pad2 (DT.minute (DT.make y m d H M S 0)) +:+ ":"
          +:+ Str.pad2 (DT.second (DT.make y m d H M S 0))).
  destruct (make_fields y m d H M S 0 Hm Hd Ht0) as (-> & -> & -> & -> & -> & -> & _).
  pose proof (month_length_range y m). destruct Ht as (HH & HM & HS & _).
  unfold written_instant.
  by rewrite pad4_four_digits, !pad2_two_digits by lia.
Qed.

Lemma iso_date_tomorrow (y m d H M S us : Z) :
  civil_date y m d -> clock_time H M S us -> y <= 9998 ->
  iso_date (DT.make y m d H M S us + 24 * 3600 * 1000000)
  = written_date (next_day y m d).1.1 (next_day y m d).1.2 (next_day y m d).2.
Proof.
  intros (Hy & Hm & Hd) Ht Hlast.
  change (24 * 3600 * 1000000) with (DT.days 1).
  rewrite make_next_day by done.
  pose proof (_ymd2ord_next_day y m d Hm Hd) as Hn.
  assert ((next_day y m d).1.1 <= y + 1) as Hy'.
  { unfold next_day. repeat case_match; simpl; lia. }
  assert (y <= (next_day y m d).1.1) as Hy''.
  { unfold next_day. repeat case_match; simpl; lia. }
  destruct (next_day y m d) as [[y' m'] d']. simpl in *.
  destruct Hn as (_ & Hm' & Hd').
  apply iso_date_make; [|done]. unfold civil_date. lia.
Qed.

(** C10.  [parse_arrival] writes the date of the current instant for
    "today", or else the date of the following day for "tomorrow", in the
    lower-cased utterance, takes out the filler " at ", and hands the text
    to the date parser with the current instant for the missing fields; a
    result more than five minutes before the current instant is moved
    forward by exactly one day, and the answer is that instant written as
    [yyyy-mm-ddTHH:MM:SS].  With the clock at 2024-01-01T10:00 the parser
    is given "2024-01-01 3 pm" for "today at 3 PM" and "2024-01-01 3 am"
    for "today at 3 AM", and with its readings of these two texts the
    answers are 2024-01-01T15:00:00 and 2024-01-02T03:00:00. *)
Theorem parse_arrival_next_day
    (date_parse : string -> DT.datetime -> option DT.datetime) :
  (forall (text : string) (y m d H M S us : Z),
      civil_date y m d -> clock_time H M S us -> 1000 <= y <= 9998 ->
      arrival_text text (DT.make y m d H M S us)
      = Str.replace " at " " "
          (if Str.contains "today" (Str.lower text)
           then Str.replace "today" (written_date y m d) (Str.lower text)
           else if Str.contains "tomorrow" (Str.lower text)
           then Str.replace "tomorrow"
                  (written_date (next_day y m d).1.1 (next_day y m d).1.2
                     (next_day y m d).2)
                  (Str.lower text)
           else text))
  /\ (forall (utterance : string) (now dt : DT.datetime) (y m d H M S us : Z),
        Str.strip utterance <> "" ->
        date_parse (arrival_text (Str.strip utterance) now) now = Some dt ->
        civil_date y m d -> clock_time H M S us ->
        next_occurrence now dt = DT.make y m d H M S us ->
        parse_arrival date_parse utterance now = Returned (written_instant y m d H M S))
  /\ (forall now dt : DT.datetime,
        (long_past now dt -> next_occurrence now dt = dt + 24 * 3600 * 1000000)
        /\ (~ long_past now dt -> next_occurrence now dt = dt))
  /\ (let now := DT.make 2024 1 1 10 0 0 0 in
      arrival_text "today at 3 PM" now = "2024-01-01 3 pm"
      /\ arrival_text "today at 3 AM" now = "2024-01-01 3 am"
      /\ (date_parse "2024-01-01 3 pm" now = Some (DT.make 2024 1 1 15 0 0 0) ->
          parse_arrival date_parse "today at 3 PM" now = Returned "2024-01-01T15:00:00")
      /\ (date_parse "2024-01-01 3 am" now = Some (DT.make 2024 1 1 3 0 0 0) ->
          parse_arrival date_parse "today at 3 AM" now = Returned "2024-01-02T03:00:00")).
Proof.
  split.
  { intros text y m d H M S us Hdate Htime Hy.
    rewrite arrival_text_cases, iso_date_make, iso_date_tomorrow by (done || lia). done. }
  split.
  { intros utterance now dt y m d H M S us Htext Hparse Hdate Htime Hnext.
    rewrite (parse_arrival_parsed date_parse utterance now dt Htext Hparse), Hnext.
    by rewrite isoformat_make. }
  split.
  { intros now dt. unfold next_occurrence. split; intros H.
    - by rewrite bool_decide_eq_true_2.
    - by rewrite bool_decide_eq_false_2. }
  intros now.
  assert (arrival_text "today at 3 PM" now = "2024-01-01 3 pm") as Hpm
    by (vm_compute; reflexivity).
  assert (arrival_text "today at 3 AM" now = "2024-01-01 3 am") as Ham
    by (vm_compute; reflexivity).
  split; [done|]. split; [done|]. split.
  - intros Hparse.
    rewrite (parse_arrival_parsed date_parse "today at 3 PM" now (DT.make 2024 1 1 15 0 0 0)).
    + vm_compute. reflexivity.
    + vm_compute. discriminate.
    + change (Str.strip "today at 3 PM") with "today at 3 PM". by rewrite Hpm.
  - intros Hparse.
    rewrite (parse_arrival_parsed date_parse "today at 3 AM" now (DT.make 2024 1 1 3 0 0 0)).
    + vm_compute. reflexivity.
    + vm_compute. discriminate.
    + change (Str.strip "today at 3 AM") with "today at 3 AM". by rewrite Ham.
Qed.

Lemma parse_arrival_next_day_witness :
  arrival_text "Tomorrow at 3 PM" (DT.make 2023 12 31 23 58 0 0) = "2024-01-01 3 pm"
  /\ arrival_text "today at 9 am" (DT.make 2024 2 29 23 58 0 0) = "2024-02-29 9 am"
  /\ parse_arrival
       (fun text _ => table_parser [("2024-02-29 9 am", DT.make 2024 2 29 9 0 0 250)] text)
       "today at 9 am" (DT.make 2024 2 29 23 58 0 0)
     = Returned "2024-03-01T09:00:00".
Proof.
  pose proof (parse_arrival_next_day
                (fun text _ =>
                   table_parser [("2024-02-29 9 am", DT.make 2024 2 29 9 0 0 250)] text))
    as (Htext & Hanswer & _).
  split; [|split].
  - refine (Htext "Tomorrow at 3 PM" 2023 12 31 23 58 0 0 _ _ _).
    + vm_compute. repeat split; discriminate.
    + vm_compute. repeat split; discriminate.
    + lia.
  - refine (Htext "today at 9 am" 2024 2 29 23 58 0 0 _ _ _).
    + vm_compute. repeat split; discriminate.
    + vm_compute. repeat split; discriminate.
    + lia.
  - refine (Hanswer "today at 9 am" (DT.make 2024 2 29 23 58 0 0)
              (DT.make 2024 2 29 9 0 0 250) 2024 3 1 9 0 0 250 _ _ _ _ _).
    + vm_compute. discriminate.
    + vm_compute. reflexivity.
    + vm_compute. repeat split; discriminate.
    + vm_compute. repeat split; discriminate.
    + vm_compute. reflexivity.
Defined.

(** The scenario with a parser that reads the two texts as dateutil does. *)
Example parse_arrival_scenario :
  parse_arrival ArrivalScenario.date_parse "today at 3 PM" ArrivalScenario.now
  = Returned "2024-01-01T15:00:00"
  /\ parse_arrival ArrivalScenario.date_parse "today at 3 AM" ArrivalScenario.now
     = Returned "2024-01-02T03:00:00"
  /\ parse_arrival ArrivalScenario.date_parse "   " ArrivalScenario.now
     = HTTPException 400 "utterance is required"
  /\ parse_arrival ArrivalScenario.date_parse "soon" ArrivalScenario.now
     = HTTPException 400 "Could not parse arrival time".
Proof. vm_compute. repeat split. Qed.

(** The five-minute threshold: exactly five minutes ago stays, one
    microsecond more moves to the next day. *)
Example next_occurrence_threshold :
  let now := DT.make 2024 1 1 10 0 0 0 in
  next_occurrence now (now - DT.minutes 5) = now - DT.minutes 5
  /\ next_occurrence now (now - DT.minutes 5 - 1) = now - DT.minutes 5 - 1 + DT.days 1.
Proof. vm_compute. repeat split. Qed.

(** ** More on pricing *)

Section MorePricing.

Context (cfg : config).

Lemma ceil_div_mono (a b : Z) : a <= b -> ceil_div a 60 <= ceil_div b 60.
Proof.
  intros Hab. unfold ceil_div.
  assert (- b / 60 <= - a / 60) by (apply Z.div_le_mono; lia). lia.
Qed.

Lemma ceil_div_60_bounds (a h : Z) : 60 * (h - 1) < a <= 60 * h -> ceil_div a 60 = h.
Proof.
  intros Ha. unfold ceil_div.
  assert (- a / 60 = - h); [|lia].
  symmetry. apply Z.div_unique with (r := 60 * h - a); lia.
Qed.

Lemma whole_minutes_mono (s1 e1 s2 e2 : DT.datetime) :
  e1 - s1 <= e2 - s2 -> DT.whole_minutes s1 e1 <= DT.whole_minutes s2 e2.
Proof. intros H. unfold DT.whole_minutes. by apply Z.div_le_mono. Qed.

(** A longer stay never costs less, for the same vehicle class. *)
Theorem price_monotone_in_span (s1 e1 s2 e2 : DT.datetime) (vehicle_type : option string) :
  rates_nonneg cfg ->
  e1 - s1 <= e2 - s2 ->
  _compute_price_cents cfg s1 e1 vehicle_type <= _compute_price_cents cfg s2 e2 vehicle_type.
Proof.
  intros Hrates Hspan. unfold _compute_price_cents.
  apply Z.mul_le_mono_nonneg_r; [by apply _rate_for_vehicle_type_nonneg|].
  apply ceil_div_mono. pose proof (whole_minutes_mono _ _ _ _ Hspan). lia.
Qed.

(** Every stay that ends within the minimum charge costs what a stay of
    exactly the minimum costs, also one that ends before it starts. *)
Theorem price_minimum_charge (start end_ : DT.datetime) (vehicle_type : option string) :
  0 <= MIN_CHARGE_MINUTES cfg ->
  end_ <= start + DT.minutes (MIN_CHARGE_MINUTES cfg) ->
  _compute_price_cents cfg start end_ vehicle_type
  = _compute_price_cents cfg start (start + DT.minutes (MIN_CHARGE_MINUTES cfg)) vehicle_type.
Proof.
  intros Hmin Hend. unfold _compute_price_cents. f_equal. f_equal.
  assert (DT.whole_minutes start (start + DT.minutes (MIN_CHARGE_MINUTES cfg))
          = MIN_CHARGE_MINUTES cfg) as ->.
  { unfold DT.whole_minutes, DT.minutes.
    replace (start + MIN_CHARGE_MINUTES cfg * DT.US_PER_MINUTE - start)
      with (MIN_CHARGE_MINUTES cfg * DT.US_PER_MINUTE) by lia.
    by apply Z.div_mul. }
  assert (DT.whole_minutes start end_ <= MIN_CHARGE_MINUTES cfg).
  { unfold DT.whole_minutes.
    transitivity ((MIN_CHARGE_MINUTES cfg * DT.US_PER_MINUTE) / DT.US_PER_MINUTE).
    - apply Z.div_le_mono; [done|]. unfold DT.minutes in Hend. lia.
    - by rewrite Z.div_mul. }
  lia.
Qed.

(** Above the minimum charge the price goes up in steps of one hour: a stay
    of more than [h - 1] and at most [h] hours, counted in whole minutes,
    costs [h] times the hourly rate. *)
Theorem price_hour_steps (start end_ : DT.datetime) (vehicle_type : option string) (h : Z) :
  1 <= h ->
  MIN_CHARGE_MINUTES cfg <= 60 * h ->
  60 * (h - 1) < DT.whole_minutes start end_ <= 60 * h ->
  _compute_price_cents cfg start end_ vehicle_type
  = h * _rate_for_vehicle_type cfg vehicle_type.
Proof.
  intros Hh Hmin Hspan. unfold _compute_price_cents. f_equal.
  apply ceil_div_60_bounds. lia.
Qed.

(** White space never survives the case folding of a class name. *)
Lemma is_space_lower_char (c : ascii) :
  Str.is_space (Str.lower_char c) = false -> Str.is_space c = false.
Proof.
  destruct c as [[] [] [] [] [] [] [] []]; vm_compute; congruence.
Qed.

Lemma no_space_lower (s : string) :
  Forall (fun c => Str.is_space c = false) (Str.chars (Str.lower s)) ->
  Forall (fun c => Str.is_space c = false) (Str.chars s).
Proof.
  induction s as [|c s IH]; simpl; [done|].
  intros H. apply Forall_cons in H as [Hc Hs].
  constructor; [by apply is_space_lower_char|by apply IH].
Qed.

Lemma lstrip_no_space (s : string) :
  Forall (fun c => Str.is_space c = false) (Str.chars s) -> Str.lstrip s = s.
Proof. destruct s as [|c s]; simpl; [done|]. intros H. apply Forall_cons in H as [-> _]. done. Qed.

Lemma rstrip_no_space (s : string) :
  Forall (fun c => Str.is_space c = false) (Str.chars s) -> Str.rstrip s = s.
Proof.
  induction s as [|c s IH]; simpl; [done|].
  intros H. apply Forall_cons in H as [Hc Hs]. rewrite (IH Hs), Hc. by destruct s.
Qed.

Lemma strip_no_space (s : string) :
  Forall (fun c => Str.is_space c = false) (Str.chars s) -> Str.strip s = s.
Proof. intros H. unfold Str.strip. by rewrite lstrip_no_space, rstrip_no_space. Qed.

(** A class name accepted by the routes is read the same way by the pricing:
    the rate charged is the one configured for the class the request names,
    never the base rate by default. *)
Theorem accepted_class_rate (s : string) :
  s <> "" ->
  bad_vehicle_type (Some s) = false ->
  (Str.lower s = "car"
   /\ _rate_for_vehicle_type cfg (Some s) = RATE_CENTS_PER_HOUR_CAR cfg)
  \/ (Str.lower s = "motorcycle"
      /\ _rate_for_vehicle_type cfg (Some s) = RATE_CENTS_PER_HOUR_MOTORCYCLE cfg)
  \/ (Str.lower s = "truck"
      /\ _rate_for_vehicle_type cfg (Some s) = RATE_CENTS_PER_HOUR_TRUCK cfg).
Proof.
  intros Hne Hok. unfold bad_vehicle_type in Hok.
  destruct s as [|c s]; [done|]. simpl Str.truthy in Hok. rewrite andb_true_l in Hok.
  apply negb_false_iff, bool_decide_eq_true in Hok.
  assert (Forall (fun c => Str.is_space c = false) (Str.chars (Str.lower (String c s)))) as Hsp.
  { unfold known_vehicle_types in Hok.
    repeat (apply elem_of_cons in Hok as [->|Hok]);
      [| | |by apply elem_of_nil in Hok];
      vm_compute; repeat constructor. }
  assert (class_name (Some (String c s)) = Str.lower (String c s)) as Hname.
  { unfold class_name. simpl default. by rewrite (strip_no_space _ (no_space_lower _ Hsp)). }
  rewrite _rate_for_vehicle_type_cases, Hname.
  unfold known_vehicle_types in Hok.
  repeat (apply elem_of_cons in Hok as [->|Hok]); [| | |by apply elem_of_nil in Hok].
  - left. done.
  - right. left. done.
  - right. right. done.
Qed.

End MorePricing.

Lemma price_monotone_in_span_witness :
  _compute_price_cents default_config Scenario.T (Scenario.T + DT.minutes 61) (Some "car")
  <= _compute_price_cents default_config Scenario.T (Scenario.T + DT.hours 3) (Some "car").
Proof.
  apply price_monotone_in_span.
  - unfold rates_nonneg. simpl. lia.
  - vm_compute. discriminate.
Defined.

Lemma price_minimum_charge_witness :
  _compute_price_cents default_config Scenario.T (Scenario.T + DT.minutes 5) (Some "truck")
  = _compute_price_cents default_config Scenario.T
      (Scenario.T + DT.minutes (MIN_CHARGE_MINUTES default_config)) (Some "truck").
Proof.
  apply price_minimum_charge.
  - simpl. lia.
  - vm_compute. discriminate.
Defined.

Lemma price_hour_steps_witness :
  _compute_price_cents default_config Scenario.T (Scenario.T + DT.minutes 121) None
  = 3 * _rate_for_vehicle_type default_config None.
Proof.
  apply price_hour_steps.
  - lia.
  - simpl. lia.
  - vm_compute. split; [reflexivity|discriminate].
Defined.

Lemma accepted_class_rate_witness :
  _rate_for_vehicle_type default_config (Some "Truck") = 600.
Proof.
  destruct (accepted_class_rate default_config "Truck") as [[H _]|[[H _]|[_ H]]].
  - discriminate.
  - vm_compute. reflexivity.
  - vm_compute in H. discriminate H.
  - vm_compute in H. discriminate H.
  - exact H.
Defined.

(** ** More on the allocator *)

Section MoreAllocator.

Context (cfg : config).

Lemma conflicts_blocks_lot (s1 s2 : store) (lot_name : string) spot start end_ :
  (forall r, blocks_lot lot_name r -> r ∈ s1 -> r ∈ s2) ->
  conflicts s1 lot_name spot start end_ -> conflicts s2 lot_name spot start end_.
Proof.
  intros Hsub (r & Hr & Hlot & Hst & Hsp & Hov). exists r.
  split; [|done]. apply Hsub; [|done]. unfold blocks_lot. by rewrite Hsp.
Qed.

(** Cancelled rows, rows of other lots and rows without a spot never block
    a spot: two tables with the same confirmed, spotted rows of the lot give
    the same answer. *)
Theorem assign_spot_ignores_other_rows (s1 s2 : store) (lot_name : string)
    (start end_ : DT.datetime) :
  (forall r, blocks_lot lot_name r -> (r ∈ s1 <-> r ∈ s2)) ->
  _assign_spot cfg s1 lot_name start end_ = _assign_spot cfg s2 lot_name start end_.
Proof.
  intros Hsame.
  assert (H12 : forall spot, conflicts s1 lot_name spot start end_
                             <-> conflicts s2 lot_name spot start end_).
  { intros spot. split; apply conflicts_blocks_lot; intros r Hr; by apply Hsame. }
  destruct (_assign_spot cfg s2 lot_name start end_) as [spot|] eqn:H2.
  - apply assign_spot_Some_iff. apply assign_spot_Some_iff in H2 as (Hk & Hfree & Hfirst).
    split; [done|]. split; [by rewrite H12|]. intros j Hj. by apply H12, Hfirst.
  - apply assign_spot_None_iff. intros spot Hk. apply H12.
    by apply (proj1 (assign_spot_None_iff _ _ _ _ _) H2).
Qed.

(** More reservations never free a lower spot: on a table with more rows
    the assigned spot, if there is one, is not smaller. *)
Theorem assign_spot_monotone (s1 s2 : store) (lot_name : string)
    (start end_ : DT.datetime) (spot2 : Z) :
  (forall r, r ∈ s1 -> r ∈ s2) ->
  _assign_spot cfg s2 lot_name start end_ = Some spot2 ->
  exists spot1,
    _assign_spot cfg s1 lot_name start end_ = Some spot1 /\ spot1 <= spot2.
Proof.
  intros Hsub H2. apply assign_spot_Some_iff in H2 as (Hk & Hfree & _).
  assert (Hfree1 : ~ conflicts s1 lot_name spot2 start end_).
  { intros Hc. apply Hfree. revert Hc. apply conflicts_blocks_lot. auto. }
  destruct (_assign_spot cfg s1 lot_name start end_) as [spot1|] eqn:H1.
  - exists spot1. split; [done|].
    apply assign_spot_Some_iff in H1 as (_ & _ & Hfirst).
    destruct (Z.le_gt_cases spot1 spot2) as [|Hlt]; [done|].
    exfalso. apply Hfree1, Hfirst. lia.
  - exfalso. apply Hfree1. by apply (proj1 (assign_spot_None_iff _ _ _ _ _) H1).
Qed.

(** A lot configured with no capacity has no spot for anyone. *)
Theorem assign_spot_no_capacity (session : store) (lot_name : string)
    (start end_ : DT.datetime) :
  LOT_CAPACITY cfg <= 0 ->
  _assign_spot cfg session lot_name start end_ = None.
Proof. intros Hcap. apply assign_spot_None_iff. intros spot ?. lia. Qed.

End MoreAllocator.

Lemma assign_spot_ignores_other_rows_witness :
  _assign_spot Scenario.one_spot Scenario.after_first "RapidPark-B"
    Scenario.T (Scenario.T + DT.hours 1)
  = _assign_spot Scenario.one_spot [] "RapidPark-B" Scenario.T (Scenario.T + DT.hours 1).
Proof.
  apply assign_spot_ignores_other_rows.
  intros r (Hlot & _ & _). split.
  - intros Hr. apply list_elem_of_singleton in Hr as ->. vm_compute in Hlot. discriminate Hlot.
  - intros Hr. by apply elem_of_nil in Hr.
Defined.

Lemma assign_spot_monotone_witness :
  exists spot1,
    _assign_spot default_config [] "RapidPark-A" (Scenario.T + DT.hours 1)
      (Scenario.T + DT.hours 2) = Some spot1
    /\ spot1 <= 2.
Proof.
  apply (assign_spot_monotone default_config [] Scenario.after_first).
  - intros r Hr. by apply elem_of_nil in Hr.
  - vm_compute. reflexivity.
Defined.

Lemma assign_spot_no_capacity_witness :
  _assign_spot
    {| LOT_NAME := "RapidPark-A"; LOT_CAPACITY := 0; RATE_CENTS_PER_HOUR := 400;
       RATE_CENTS_PER_HOUR_CAR := 400; RATE_CENTS_PER_HOUR_MOTORCYCLE := 300;
       RATE_CENTS_PER_HOUR_TRUCK := 600; MIN_CHARGE_MINUTES := 60 |}
    [] "RapidPark-A" Scenario.T (Scenario.T + DT.hours 1) = None.
Proof. apply assign_spot_no_capacity. simpl. lia. Defined.

(** ** More on the reserve and quote routes *)

Section MoreRoutes.

Context (cfg : config).
Context (isoparse : string -> option DT.datetime).

Lemma rate_or_None (vehicle_type : option string) :
  _rate_for_vehicle_type cfg (or_None vehicle_type) = _rate_for_vehicle_type cfg vehicle_type.
Proof.
  destruct vehicle_type as [[|c s]|]; reflexivity.
Qed.

Lemma price_or_None start end_ (vehicle_type : option string) :
  _compute_price_cents cfg start end_ (or_None vehicle_type)
  = _compute_price_cents cfg start end_ vehicle_type.
Proof. unfold _compute_price_cents. by rewrite rate_or_None. Qed.

(** What [create_reservation] returns and writes when it succeeds. *)
Lemma create_reservation_Returned session now created data out session' tasks :
  create_reservation cfg session now created data = (Returned out, session', tasks) ->
  exists start end_ spot r,
    create_reservation_checks now data = Returned (start, end_)
    /\ _assign_spot cfg session (LOT_NAME cfg) start end_ = Some spot
    /\ session' = (session ++ [r])%list
    /\ tasks = (if Str.opt_truthy (ReservationCreate.email data) then [r] else [])
    /\ Reservation.id r = Some (next_id session)
    /\ Reservation.status r = "confirmed"
    /\ Reservation.lot_name r = LOT_NAME cfg
    /\ Reservation.spot_number r = Some spot
    /\ Reservation.start_time r = start /\ Reservation.end_time r = end_
    /\ Reservation.vehicle_reg r = ReservationCreate.vehicle_reg data
    /\ Reservation.customer_name r = ReservationCreate.customer_name data
    /\ Reservation.email r = ReservationCreate.email data
    /\ Reservation.vehicle_type r = or_None (ReservationCreate.vehicle_type data)
    /\ Reservation.price_cents r
       = _compute_price_cents cfg start end_ (ReservationCreate.vehicle_type data)
    /\ Reservation.confirmation_code r
       = _generate_code (ReservationCreate.vehicle_reg data) start
    /\ ReservationOut.id out = next_id session
    /\ ReservationOut.spot_number out = spot
    /\ ReservationOut.price_cents out = Reservation.price_cents r
    /\ ReservationOut.confirmation_code out = Reservation.confirmation_code r
    /\ ReservationOut.start_time out = start /\ ReservationOut.end_time out = end_
    /\ ReservationOut.lot_name out = LOT_NAME cfg.
Proof.
  unfold create_reservation. intros H.
  destruct (create_reservation_checks now data) as [[start end_]|] eqn:Hc; [|done].
  destruct (_assign_spot cfg session (LOT_NAME cfg) start end_) as [spot|] eqn:Ha; [|done].
  injection H as <- <- <-. eexists start, end_, spot, _. repeat split; done.
Qed.

Lemma create_reservation_failed session now created data code detail session' tasks :
  create_reservation cfg session now created data
  = (HTTPException code detail, session', tasks) ->
  session' = session /\ tasks = [].
Proof.
  unfold create_reservation. intros H.
  destruct (create_reservation_checks now data) as [[start end_]|]; [|by simplify_eq].
  destruct (_assign_spot cfg session (LOT_NAME cfg) start end_); by simplify_eq.
Qed.

(** The primary keys of a table whose rows are numbered in order. *)
Lemma next_id_numbered (session : store) :
  (forall i r, session !! i = Some r -> Reservation.id r = Some (Z.of_nat i + 1)) ->
  next_id session = Z.of_nat (length session) + 1.
Proof.
  unfold next_id. intros Hnum.
  assert (foldr (fun r m => Z.max (default 0 (Reservation.id r)) m) 0 session
          = Z.of_nat (length session)); [|lia].
  induction session as [|r session IH] using rev_ind; [done|].
  rewrite foldr_app, length_app. simpl.
  rewrite (Hnum (length session) r) by (by rewrite list_lookup_middle). simpl.
  assert (forall (l : store) (a : Z),
    0 <= a ->
    foldr (fun r m => Z.max (default 0 (Reservation.id r)) m) a l
    = Z.max a (foldr (fun r m => Z.max (default 0 (Reservation.id r)) m) 0 l)) as Hmax.
  { intros l. induction l as [|x l IHl]; intros a Ha; simpl; [lia|].
    rewrite (IHl a Ha). lia. }
  rewrite Hmax by lia. rewrite IH.
  - lia.
  - intros i r' Hi. apply Hnum. by apply lookup_app_l_Some.
Qed.

Lemma served_rows_as_written (session : store) :
  served cfg isoparse session ->
  forall i r, session !! i = Some r -> row_as_written cfg i r.
Proof.
  induction 1 as [|session now created data _ IH|session now data _ IH].
  - intros i r H. by rewrite lookup_nil in H.
  - destruct (create_reservation cfg session now created data)
      as [[[out|code detail] session'] tasks] eqn:Hcr; simpl.
    + apply create_reservation_Returned in Hcr
        as (start & end_ & spot & r & Hc & Ha & -> & _ & Hid & Hst & Hlot & Hsp & Hs & He
            & Hreg & Hname & _ & Hvt & Hprice & Hcode & _).
      intros i r' Hi. apply lookup_app_Some in Hi as [Hi|[Hlen Hi]]; [by apply IH|].
      apply list_lookup_singleton_Some in Hi as [Hi <-].
      assert (i = length session) as -> by lia.
      apply create_reservation_checks_resolved in Hc
        as (Hreg' & Hname' & _ & _ & Hlt & _ & _).
      apply assign_spot_Some_iff in Ha as (Hspot & _ & _).
      unfold row_as_written.
      rewrite Hid, Hst, Hlot, Hsp, Hs, He, Hreg, Hname, Hvt, Hprice, Hcode, price_or_None.
      rewrite next_id_numbered by (intros j r' Hj; by apply IH).
      repeat split; try done. by exists spot.
    + apply create_reservation_failed in Hcr as [-> _]. exact IH.
  - by rewrite quote_keeps_table.
Qed.

Lemma no_double_booking_cons (r : Reservation.t) (l : store) :
  no_double_booking (r :: l) ->
  no_double_booking l
  /\ forall r' spot,
       r' ∈ l ->
       Reservation.status r = "confirmed" -> Reservation.status r' = "confirmed" ->
       Reservation.lot_name r = Reservation.lot_name r' ->
       Reservation.spot_number r = Some spot -> Reservation.spot_number r' = Some spot ->
       ~ half_open_overlap (Reservation.start_time r) (Reservation.end_time r)
                           (Reservation.start_time r') (Reservation.end_time r').
Proof.
  intros Hinv. split.
  - intros i j r1 r2 spot Hij H1 H2. apply (Hinv (S i) (S j)); [lia|done|done].
  - intros r' spot Hin. apply list_elem_of_lookup_1 in Hin as [j Hj].
    apply (Hinv 0%nat (S j)); [lia|done|done].
Qed.

(** Reservations that hold a spot at the same instant hold different
    spots. *)
Lemma occupied_spots_NoDup (lot_name : string) (t : DT.datetime) (l : store) :
  (forall r, r ∈ l -> blocks_lot lot_name r) ->
  no_double_booking l ->
  NoDup (spot_of <$> filter (occupies t) l).
Proof.
  induction l as [|r l IH]; intros Hrows Hinv; [constructor|].
  apply no_double_booking_cons in Hinv as [Hinv Hhead].
  assert (NoDup (spot_of <$> filter (occupies t) l)) as Hrest.
  { apply IH; [|done]. intros r' Hr'. apply Hrows. by right. }
  destruct (decide (occupies t r)) as [Hocc|Hocc].
  - rewrite filter_cons_True by done. rewrite fmap_cons. apply NoDup_cons. split; [|done].
    intros Hdup. apply list_elem_of_fmap in Hdup as (r' & Hspot & Hin).
    apply list_elem_of_filter in Hin as [Hocc' Hin].
    destruct (Hrows r) as (Hlot & Hst & [k Hk]); [by left|].
    destruct (Hrows r') as (Hlot' & Hst' & [k' Hk']); [by right|].
    unfold spot_of in Hspot. rewrite Hk, Hk' in Hspot. simpl in Hspot. subst k'.
    apply (Hhead r' k Hin Hst Hst'); [congruence|done|done|].
    unfold occupies in Hocc, Hocc'. unfold half_open_overlap. lia.
  - by rewrite filter_cons_False.
Qed.

(** In a table filled by reserve requests every row is numbered by its
    position, confirmed, in the configured lot, on a spot within the
    capacity, ends after it starts, and stores the price and the
    confirmation code computed from its own fields. *)
Theorem served_rows_well_formed (session : store) (i : nat) (r : Reservation.t) :
  served cfg isoparse session ->
  session !! i = Some r ->
  row_as_written cfg i r.
Proof. intros Hs Hi. by eapply served_rows_as_written. Qed.

(** At no instant do more reservations hold a spot than the lot has. *)
Theorem served_occupancy_bounded (session : store) (t : DT.datetime) :
  served cfg isoparse session ->
  Z.of_nat (length (filter (occupies t) session)) <= Z.max 0 (LOT_CAPACITY cfg).
Proof.
  intros Hs.
  pose proof (served_rows_as_written session Hs) as Hrows.
  assert (Hblocks : forall r, r ∈ session -> blocks_lot (LOT_NAME cfg) r).
  { intros r Hr. apply list_elem_of_lookup_1 in Hr as [i Hi].
    destruct (Hrows i r Hi) as (_ & Hst & Hlot & (spot & Hsp & _) & _).
    unfold blocks_lot. by rewrite Hsp. }
  pose proof (occupied_spots_NoDup (LOT_NAME cfg) t session Hblocks
                (served_no_double_booking cfg isoparse session Hs)) as Hnodup.
  assert (spot_of <$> filter (occupies t) session ⊆+ seqZ 1 (LOT_CAPACITY cfg)) as Hsub.
  { apply NoDup_submseteq; [done|]. intros k Hk.
    apply list_elem_of_fmap in Hk as (r & -> & Hr).
    apply list_elem_of_filter in Hr as [_ Hr].
    apply list_elem_of_lookup_1 in Hr as [i Hi].
    destruct (Hrows i r Hi) as (_ & _ & _ & (spot & Hsp & Hrange) & _).
    unfold spot_of. rewrite Hsp. simpl. apply elem_of_seqZ. lia. }
  apply submseteq_length in Hsub. rewrite length_fmap, length_seqZ in Hsub. lia.
Qed.

(** A quote is a faithful preview: a reserve request for the same interval
    and vehicle class on the same table is given the suggested spot at the
    quoted price, and is turned down for lack of space exactly when the
    quote says that nothing is available. *)
Theorem quote_previews_reserve (session : store) (now now' created : DT.datetime)
    (q : QuoteIn.t) (data : ReservationCreate.t) (start end_ : DT.datetime) :
  quote_checks isoparse now q = Returned (start, end_) ->
  create_reservation_checks now' data = Returned (start, end_) ->
  QuoteIn.vehicle_type q = ReservationCreate.vehicle_type data ->
  exists quoted,
    quote cfg isoparse session now q = (Returned quoted, session)
    /\ match QuoteOut.suggested_spot quoted with
       | Some spot =>
           QuoteOut.available quoted = true
           /\ exists out tasks r,
                create_reservation cfg session now' created data
                = (Returned out, (session ++ [r])%list, tasks)
                /\ ReservationOut.spot_number out = spot
                /\ ReservationOut.price_cents out = QuoteOut.price_cents quoted
                /\ ReservationOut.start_time out = QuoteOut.start_time quoted
                /\ ReservationOut.end_time out = QuoteOut.end_time quoted
       | None =>
           QuoteOut.available quoted = false
           /\ create_reservation cfg session now' created data
              = (HTTPException 409 "No spots available for the requested time range",
                 session, [])
       end.
Proof.
  intros Hq Hr Hvt. unfold quote, create_reservation. rewrite Hq, Hr, Hvt.
  eexists. split; [reflexivity|]. simpl.
  destruct (_assign_spot cfg session (LOT_NAME cfg) start end_) as [spot|]; simpl.
  - split; [done|]. by eexists _, _, _.
  - done.
Qed.

(** The ticket e-mail is scheduled only for a reservation that was
    committed and carries an address, and it is the committed row that is
    handed to it; a rejected request schedules nothing. *)
Theorem email_only_for_committed (session : store) (now created : DT.datetime)
    (data : ReservationCreate.t) :
  let '(o, session', tasks) := create_reservation cfg session now created data in
  (tasks <> []
   <-> (exists out, o = Returned out) /\ is_Some (supplied (ReservationCreate.email data)))
  /\ (forall r, r ∈ tasks ->
                tasks = [r] /\ session' = (session ++ [r])%list
                /\ Reservation.email r = ReservationCreate.email data).
Proof.
  destruct (create_reservation cfg session now created data)
    as [[[out|code detail] session'] tasks] eqn:Hcr.
  - apply create_reservation_Returned in Hcr
      as (start & end_ & spot & r & _ & _ & -> & -> & _ & _ & _ & _ & _ & _ & _ & _
          & Hmail & _).
    destruct (supplied_cases (ReservationCreate.email data)) as [[-> ->]|[-> ->]].
    + split.
      * split; [intros _; split; by eexists|done].
      * intros r' Hr'. apply list_elem_of_singleton in Hr' as ->. done.
    + split.
      * split; [done|]. intros [_ [? ?]]. done.
      * intros r' Hr'. by apply elem_of_nil in Hr'.
  - apply create_reservation_failed in Hcr as [-> ->]. split.
    + split; [done|]. intros [[? ?] _]. done.
    + intros r' Hr'. by apply elem_of_nil in Hr'.
Qed.

(** The table is an append-only log: whatever the outcome of a reserve
    request, every row stays where it was, and at most one row is added. *)
Theorem create_reservation_append_only (session : store) (now created : DT.datetime)
    (data : ReservationCreate.t) :
  let session' := (create_reservation cfg session now created data).1.2 in
  (forall i r, session !! i = Some r -> session' !! i = Some r)
  /\ (length session <= length session' <= length session + 1)%nat
  /\ (length session' = S (length session)
      <-> status_of (create_reservation cfg session now created data).1.1 = 200).
Proof.
  destruct (create_reservation cfg session now created data)
    as [[[out|code detail] session'] tasks] eqn:Hcr; simpl.
  - apply create_reservation_Returned in Hcr as (? & ? & ? & r & _ & _ & -> & _).
    rewrite length_app. simpl. repeat split; try lia.
    intros i r' Hi. by apply lookup_app_l_Some.
  - pose proof Hcr as Hcode. apply create_reservation_failed in Hcr as [-> _].
    repeat split; try done; try lia. intros ->.
    unfold create_reservation in Hcode.
    destruct (create_reservation_checks now data) as [[start end_]|c d] eqn:Hc.
    + destruct (_assign_spot cfg session (LOT_NAME cfg) start end_); by simplify_eq.
    + apply create_reservation_checks_400 in Hc. by simplify_eq.
Qed.

End MoreRoutes.

Lemma served_rows_well_formed_witness :
  exists r, Scenario.after_first !! 0%nat = Some r /\ row_as_written Scenario.one_spot 0 r.
Proof.
  eexists. split; [vm_compute; reflexivity|].
  apply (served_rows_well_formed Scenario.one_spot Scenario.no_isoparse Scenario.after_first).
  - exact (served_reserve _ _ [] Scenario.T Scenario.T _ (served_empty _ _)).
  - vm_compute. reflexivity.
Defined.

Lemma served_occupancy_bounded_witness :
  Z.of_nat (length (filter (occupies (Scenario.T + DT.hours 1)) Scenario.after_first)) <= 1.
Proof.
  apply (served_occupancy_bounded Scenario.one_spot Scenario.no_isoparse).
  exact (served_reserve _ _ [] Scenario.T Scenario.T _ (served_empty _ _)).
Defined.

Lemma quote_previews_reserve_witness :
  exists quoted,
    quote Scenario.one_spot Scenario.no_isoparse [] Scenario.T Scenario.quote_two_hours
    = (Returned quoted, [])
    /\ QuoteOut.suggested_spot quoted = Some 1.
Proof.
  destruct (quote_previews_reserve Scenario.one_spot Scenario.no_isoparse []
              Scenario.T Scenario.T Scenario.T Scenario.quote_two_hours
              (Scenario.two_hours_from Scenario.T) Scenario.T (Scenario.T + DT.hours 2))
    as (quoted & Hq & _).
  - vm_compute. reflexivity.
  - vm_compute. reflexivity.
  - reflexivity.
  - exists quoted. split; [exact Hq|].
    vm_compute in Hq. injection Hq as <-. reflexivity.
Defined.

(** ** Spot labels and the e-mail pattern *)

Section Labels.

Lemma append_inj_l (a b c : string) : a +:+ b = a +:+ c -> b = c.
Proof.
  induction a as [|x a IH]; rewrite ?append_empty_l, ?append_String; [done|].
  intros [= H]. by apply IH.
Qed.

(** A spot has a label exactly when it is a spot (neither missing nor 0),
    and in one lot different spots have different labels. *)
Theorem spot_label_injective (lot_name : string) (a b : Z) :
  a <> 0 -> b <> 0 ->
  is_Some (_spot_label lot_name (Some a))
  /\ _spot_label lot_name (Some 0) = None
  /\ _spot_label lot_name None = None
  /\ (_spot_label lot_name (Some a) = _spot_label lot_name (Some b) -> a = b).
Proof.
  intros Ha Hb. unfold _spot_label.
  rewrite (proj2 (Z.eqb_neq a 0) Ha), (proj2 (Z.eqb_neq b 0) Hb). simpl. cbv zeta.
  match goal with
  | |- context [if Str.truthy ?z then Some (?z +:+ pretty a) else _] => generalize z
  end.
  intros zone. destruct (Str.truthy zone).
  - repeat split; [by eexists|]. intros [= H]. apply append_inj_l in H.
    by apply (inj pretty).
  - repeat split; [by eexists|]. intros [= H]. by apply (inj pretty).
Qed.

End Labels.

Lemma spot_label_injective_witness :
  is_Some (_spot_label "RapidPark-A" (Some 12))
  /\ (_spot_label "RapidPark-A" (Some 12) = _spot_label "RapidPark-A" (Some 7) -> 12 = 7).
Proof.
  destruct (spot_label_injective "RapidPark-A" 12 7) as (H1 & _ & _ & H2); [lia|lia|].
  split; [exact H1|exact H2].
Defined.

Section EmailPattern.

Implicit Types (l a b : list ascii).

Lemma split_at_sign_Some l a b :
  EmailRe.split_at_sign l = Some (a, b)
  <-> l = (a ++ "@"%char :: b)%list /\ "@"%char ∉ a.
Proof.
  revert a. induction l as [|c l IH]; intros a; simpl.
  - split; [done|]. intros [H _]. by destruct a.
  - destruct (Ascii.eqb_spec c "@") as [->|Hc].
    + split.
      * intros [= <- <-]. split; [done|]. apply not_elem_of_nil.
      * intros [H Hnot]. destruct a as [|x a]; simpl in H.
        -- by injection H as <-.
        -- injection H as <- _. exfalso. apply Hnot. by left.
    + destruct (EmailRe.split_at_sign l) as [[a' b']|] eqn:Hs.
      * split.
        -- intros [= <- <-]. destruct (proj1 (IH a') eq_refl) as [-> Hnot].
           split; [done|]. intros Hin. apply elem_of_cons in Hin as [?|?]; [|done].
           by subst.
        -- intros [H Hnot]. destruct a as [|x a]; simpl in H; [by injection H as ->|].
           injection H as <- H.
           assert (Some (a', b') = Some (a, b)) as [= -> ->]; [|done].
           apply IH. split; [done|]. intros Hin. apply Hnot. by right.
      * split; [done|]. intros [H Hnot].
        destruct a as [|x a]; simpl in H; [by injection H as ->|].
        injection H as <- H.
        assert (None = Some (a, b)); [|done].
        apply IH. split; [done|]. intros Hin. apply Hnot. by right.
Qed.

Lemma inner_dot_true (seen : bool) b :
  EmailRe.inner_dot seen b = true
  <-> exists domain tld,
        b = (domain ++ "."%char :: tld)%list /\ tld <> []
        /\ (seen = true \/ domain <> []).
Proof.
  revert seen. induction b as [|c b IH]; intros seen; simpl.
  - split; [done|]. intros (d & t & H & _). by destruct d.
  - destruct b as [|c' b'].
    + split; [done|]. intros (d & t & H & Ht & _).
      destruct d as [|x d]; simpl in H.
      * injection H as _ <-. done.
      * injection H as _ H. by destruct d.
    + rewrite orb_true_iff, andb_true_iff, IH. split.
      * intros [[-> Hc]|(d & t & H & Ht & _)].
        -- apply Ascii.eqb_eq in Hc as ->. exists [], (c' :: b'). auto.
        -- exists (c :: d), t. rewrite H. split; [done|]. split; [done|]. by right.
      * intros (d & t & H & Ht & Hd). destruct d as [|x d]; simpl in H.
        -- injection H as -> <-. left. destruct Hd as [->|?]; [|done].
           split; [done|]. by apply Ascii.eqb_eq.
        -- injection H as <- H. right. exists d, t. auto.
Qed.

Lemma plain_not_sign l : Forall (fun c => EmailRe.plain c = true) l -> "@"%char ∉ l.
Proof.
  intros Hall Hin. rewrite Forall_forall in Hall. specialize (Hall _ Hin).
  vm_compute in Hall. discriminate Hall.
Qed.

Lemma body_matches_shape l : EmailRe.body_matches l = true <-> email_shape l.
Proof.
  unfold EmailRe.body_matches, email_shape. split.
  - destruct (EmailRe.split_at_sign l) as [[a b]|] eqn:Hs; [|done].
    apply split_at_sign_Some in Hs as [-> Hnot].
    rewrite !andb_true_iff, negb_true_iff, bool_decide_eq_false, !forallb_forall.
    intros [[[Ha Hpa] Hpb] Hdot].
    apply inner_dot_true in Hdot as (d & t & -> & Ht & [?|Hd]); [done|].
    exists a, d, t. split; [done|]. split; [done|]. split; [done|]. split; [done|].
    assert (Forall (fun c => EmailRe.plain c = true) (d ++ "."%char :: t)) as Hall.
    { apply Forall_forall. intros c Hc. apply Hpb. by apply list_elem_of_In. }
    apply Forall_app in Hall as [Hd' Ht']. apply Forall_cons in Ht' as [_ Ht'].
    split; [|done]. apply Forall_forall. intros c Hc. apply Hpa. by apply list_elem_of_In.
  - intros (a & d & t & -> & Ha & Hd & Ht & Hpa & Hpd & Hpt).
    rewrite (proj2 (split_at_sign_Some _ a (d ++ "."%char :: t))); [|split; [done|]].
    + rewrite !andb_true_iff, negb_true_iff, bool_decide_eq_false, !forallb_forall.
      split; [split; [split; [done|]|]|].
      * intros c Hc. apply list_elem_of_In in Hc. by apply (proj1 (Forall_forall _ _) Hpa).
      * intros c Hc. apply list_elem_of_In in Hc.
        apply elem_of_app in Hc as [Hc|Hc].
        -- by apply (proj1 (Forall_forall _ _) Hpd).
        -- apply elem_of_cons in Hc as [->|Hc]; [reflexivity|].
           by apply (proj1 (Forall_forall _ _) Hpt).
      * apply inner_dot_true. exists d, t. auto.
    + by apply plain_not_sign.
Qed.

Lemma drop_final_newline_cases l :
  (exists l', l = (l' ++ ["010"%char])%list /\ EmailRe.drop_final_newline l = l')
  \/ ((forall l', l <> (l' ++ ["010"%char])%list) /\ EmailRe.drop_final_newline l = l).
Proof.
  unfold EmailRe.drop_final_newline.
  destruct l as [|x l] using rev_ind; [right; split; [by intros []|done]|].
  rewrite reverse_snoc. destruct (Ascii.eqb_spec x "010") as [->|Hx].
  - left. exists l. by rewrite reverse_involutive.
  - right. split; [|done]. intros l' H. apply app_inj_tail in H as [_ ?]. done.
Qed.

End EmailPattern.

(** The e-mail pattern of [_is_valid_email] and [create_reservation] accepts
    exactly the texts [local@domain.tld], with three non-empty parts free of
    white space and [@], and those texts followed by one newline. *)
Theorem email_pattern_language (email : string) :
  EmailRe.matches email = true
  <-> email_shape (Str.chars email)
      \/ exists body, Str.chars email = (body ++ ["010"%char])%list /\ email_shape body.
Proof.
  unfold EmailRe.matches. rewrite orb_true_iff, !body_matches_shape.
  destruct (drop_final_newline_cases (Str.chars email)) as [(l' & Hl & ->)|[Hno ->]].
  - split.
    + intros [?|?]; [by left|]. right. by exists l'.
    + intros [?|(body & Hb & ?)]; [by left|]. right.
      rewrite Hl in Hb. apply app_inj_tail in Hb as [-> _]. done.
  - split.
    + intros [?|?]; by left.
    + intros [?|(body & Hb & ?)]; [by left|]. by destruct (Hno body).
Qed.

(** ** More on arrival times *)

Section MoreArrival.

Context (date_parse : string -> DT.datetime -> option DT.datetime).

Lemma lstrip_all_space (s : string) :
  Forall (fun c => Str.is_space c = true) (Str.chars s) -> Str.lstrip s = "".
Proof.
  induction s as [|c s IH]; simpl; [done|].
  intros H. apply Forall_cons in H as [-> Hs]. by apply IH.
Qed.

(** An utterance of white space only, or none, is refused with HTTP 400
    whatever the clock and the date parser. *)
Theorem parse_arrival_blank (utterance : string) (now : DT.datetime) :
  Forall (fun c => Str.is_space c = true) (Str.chars utterance) ->
  parse_arrival date_parse utterance now = HTTPException 400 "utterance is required".
Proof.
  intros Hblank. unfold parse_arrival, Str.strip.
  by rewrite (lstrip_all_space _ Hblank).
Qed.

(** Where a text does not occur nothing is replaced. *)
Lemma replace_from_absent (old new s : string) :
  Str.contains old s = false -> Str.replace_from 0 old new s = s.
Proof.
  induction s as [|c s IH]; [done|].
  cbn [Str.contains Str.replace_from]. rewrite orb_false_iff.
  intros [-> Hs]. by rewrite (IH Hs).
Qed.

Lemma replace_absent (old new s : string) :
  old <> "" -> Str.contains old s = false -> Str.replace old new s = s.
Proof.
  intros Hold Hs. unfold Str.replace. destruct old; [done|]. by apply replace_from_absent.
Qed.

(** An utterance without "today", "tomorrow" and " at " reaches the date
    parser as it was said, letter case included. *)
Theorem arrival_text_unchanged (text : string) (now : DT.datetime) :
  Str.contains "today" (Str.lower text) = false ->
  Str.contains "tomorrow" (Str.lower text) = false ->
  Str.contains " at " text = false ->
  arrival_text text now = text.
Proof.
  intros Htoday Htomorrow Hat. unfold arrival_text. rewrite Htoday, Htomorrow.
  by apply replace_absent.
Qed.

Lemma replace_microsecond_0_bounds (t : DT.datetime) :
  t - 1000000 < DT.replace_microsecond_0 t <= t.
Proof.
  unfold DT.replace_microsecond_0, DT.microsecond, DT.US_PER_SECOND.
  pose proof (Z.mod_pos_bound t 1000000). lia.
Qed.

(** The roll is applied once.  A reading less than a day and five minutes
    old is answered with an instant no more than five minutes (and the
    dropped fraction of a second) old; an older reading is answered with an
    instant that is still more than five minutes in the past. *)
Theorem parse_arrival_one_roll (utterance : string) (now dt : DT.datetime) :
  Str.strip utterance <> "" ->
  date_parse (arrival_text (Str.strip utterance) now) now = Some dt ->
  exists answer,
    parse_arrival date_parse utterance now = Returned (DT.isoformat answer)
    /\ DT.microsecond answer = 0
    /\ (now - DT.days 1 - DT.minutes 5 <= dt -> now - DT.minutes 5 - 1000000 < answer)
    /\ (dt < now - DT.days 1 - DT.minutes 5 -> answer < now - DT.minutes 5)
    /\ (answer <= dt + DT.days 1).
Proof.
  intros Htext Hparse.
  exists (DT.replace_microsecond_0 (next_occurrence now dt)).
  split; [by apply parse_arrival_parsed|].
  pose proof (replace_microsecond_0_bounds (next_occurrence now dt)) as Hb.
  split.
  { unfold DT.replace_microsecond_0, DT.microsecond, DT.US_PER_SECOND.
    rewrite Zminus_mod_idemp_r, Z.sub_diag. reflexivity. }
  rewrite <- roll_next_occurrence in *.
  unfold DT.days, DT.minutes, DT.US_PER_DAY, DT.US_PER_HOUR, DT.US_PER_MINUTE,
    DT.US_PER_SECOND in *.
  destruct (Z.ltb_spec dt (now - 5 * (60 * 1000000))); repeat split; lia.
Qed.

End MoreArrival.

Lemma parse_arrival_blank_witness :
  parse_arrival ArrivalScenario.date_parse "   " ArrivalScenario.now
  = HTTPException 400 "utterance is required".
Proof. apply parse_arrival_blank. vm_compute. repeat constructor. Defined.

Lemma arrival_text_unchanged_witness :
  arrival_text "Friday 3 PM" ArrivalScenario.now = "Friday 3 PM".
Proof. apply arrival_text_unchanged; vm_compute; reflexivity. Defined.

Lemma parse_arrival_one_roll_witness :
  exists answer,
    parse_arrival ArrivalScenario.date_parse "today at 3 AM" ArrivalScenario.now
    = Returned (DT.isoformat answer)
    /\ ArrivalScenario.now - DT.minutes 5 - 1000000 < answer.
Proof.
  destruct (parse_arrival_one_roll ArrivalScenario.date_parse "today at 3 AM"
              ArrivalScenario.now (DT.make 2024 1 1 3 0 0 0))
    as (answer & Heq & _ & Hfresh & _).
  - vm_compute. discriminate.
  - vm_compute. reflexivity.
  - exists answer. split; [exact Heq|]. apply Hfresh. vm_compute. discriminate.
Defined.

(** ** More on the conversation agent *)

Section MoreDialogue.

(** A turn keeps the state or moves to the one that follows it: no state is
    skipped and none is entered again. *)
Theorem turn_moves_forward (env : server) (user_message : string)
    (context : AgentContext.t) :
  let state' := AgentContext.state (run env (handle_conversation user_message context)).2 in
  state' = AgentContext.state context \/ state' = following (AgentContext.state context).
Proof.
  unfold handle_conversation.
  destruct (AgentContext.state context) eqn:Hs; simpl;
    repeat match goal with
           | |- context [if ?b then _ else _] => destruct b eqn:?; simpl
           | |- context [let '(_, _) := ?p in _] => destruct p; simpl
           | |- context [match env ?X ?c with Some _ => _ | None => _ end] =>
               destruct (env X c); simpl
           end;
    rewrite ?Hs; auto.
  all: unfold confirm_details; simpl;
    repeat match goal with
           | |- context [match ?o with Some _ => _ | None => _ end] => destruct o; simpl
           end; auto.
Qed.

(** What [extract_vehicle_info] can return as a class. *)
Lemma extract_vehicle_info_type (text : string) (vtype : string) :
  (extract_vehicle_info text).2 = Some vtype -> vtype ∈ known_vehicle_types.
Proof.
  unfold extract_vehicle_info, known_vehicle_types. simpl.
  repeat match goal with
         | |- context [if ?b then _ else _] => destruct b
         end; intros [= <-]; set_solver.
Qed.

Ltac collected_goal Hname Hveh Harr Hd1 Hd2 Hres :=
  refine (conj _ (conj _ (conj _ (conj _ (conj _ _)))));
  [ try done
  | first [intros ?; lia | intros _; apply Hname; lia | idtac]
  | first [intros ?; lia | intros _; apply Hveh; lia | idtac]
  | first [intros ?; lia | intros _; apply Harr; lia | idtac]
  | first [intros ?; lia | intros _; split; [apply Hd1; lia | apply Hd2; lia] | idtac]
  | first [intros ?; exfalso; by apply Hres | idtac] ].

Lemma handle_conversation_collected (env : server) (user_message : string)
    (context : AgentContext.t) :
  collected context ->
  collected (run env (handle_conversation user_message context)).2.
Proof.
  intros Hall. pose proof Hall as (Hpq & Hname & Hveh & Harr & Hdur & Hres).
  assert (Hd1 : (5 <= stage (AgentContext.state context))%nat ->
                is_Some (AgentContext.duration_hours context)) by (intros; by apply Hdur).
  assert (Hd2 : (5 <= stage (AgentContext.state context))%nat ->
                is_Some (AgentContext.quote context)) by (intros; by apply Hdur).
  clear Hdur.
  assert (Hres' : is_Some (AgentContext.reservation context) ->
                  AgentContext.state context <> COMPLETED -> False) by (intros H ?; auto).
  unfold handle_conversation, has_name, has_vehicle in *.
  destruct (AgentContext.state context) eqn:Hs; cbn [stage] in *; cbv beta iota.
  - unfold collected, has_name, has_vehicle. simpl.
    collected_goal Hname Hveh Harr Hd1 Hd2 Hres.
    intros H. specialize (Hres H). done.
  - destruct (Str.truthy user_message && _) eqn:Hlen; simpl; [|exact Hall].
    unfold collected, has_name, has_vehicle. simpl.
    collected_goal Hname Hveh Harr Hd1 Hd2 Hres.
    + intros _. eexists. split; [done|].
      apply andb_true_iff in Hlen as [_ Hlen]. apply Z.ltb_lt in Hlen. lia.
    + intros H. specialize (Hres H). done.
  - pose proof (extract_vehicle_info_type user_message) as Hv.
    destruct (extract_vehicle_info user_message) as [reg vtype]. simpl in Hv.
    destruct (Str.opt_truthy reg) eqn:Hreg; simpl; [|exact Hall].
    unfold collected, has_name, has_vehicle. simpl.
    collected_goal Hname Hveh Harr Hd1 Hd2 Hres.
    + intros _. destruct reg as [reg|]; [|done]. simpl in Hreg.
      exists reg. eexists. split; [done|]. split; [by destruct reg|]. split; [done|].
      destruct vtype as [v|]; simpl.
      * destruct (Str.truthy v); [by apply Hv|]. unfold known_vehicle_types. set_solver.
      * unfold known_vehicle_types. set_solver.
    + intros H. specialize (Hres H). done.
  - simpl. destruct (env _ _) as [t|]; simpl; [|exact Hall].
    unfold collected, has_name, has_vehicle. simpl.
    collected_goal Hname Hveh Harr Hd1 Hd2 Hres.
    + intros _. by eexists.
    + intros H. specialize (Hres H). done.
  - simpl. destruct (env _ (Api.parse_duration _ _)) as [r|]; simpl; [|exact Hall].
    destruct (env _ (Api.quote _)) as [q|]; simpl.
    + unfold collected, has_name, has_vehicle. simpl.
      collected_goal Hname Hveh Harr Hd1 Hd2 Hres.
      * intros _. split; by eexists.
      * intros H. specialize (Hres H). done.
    + unfold collected, has_name, has_vehicle. simpl. rewrite Hs. simpl.
      collected_goal Hname Hveh Harr Hd1 Hd2 Hres.
      intros H. specialize (Hres H). done.
  - assert (Hcd : forall email : option string,
      collected (confirm_details (AgentContext.set_email email context)).2).
    { intros email. unfold confirm_details. simpl.
      destruct (AgentContext.quote context) eqn:Hq; simpl.
      all: unfold collected, has_name, has_vehicle; simpl; rewrite ?Hq.
      all: collected_goal Hname Hveh Harr Hd1 Hd2 Hres.
      all: try (intros H; specialize (Hres H); done).
      all: intros _; split; [apply Hd1; lia|]; done. }
    destruct (wants_skip user_message); simpl; [by apply Hcd|].
    destruct (env _ _) as [e|]; simpl; [by apply Hcd|exact Hall].
  - done.
  - destruct (is_affirmative user_message); simpl.
    + simpl. destruct (env _ _) as [r|]; simpl; [|exact Hall].
      unfold collected, has_name, has_vehicle. simpl.
      collected_goal Hname Hveh Harr Hd1 Hd2 Hres. done.
    + unfold collected, has_name, has_vehicle. simpl.
      collected_goal Hname Hveh Harr Hd1 Hd2 Hres.
      intros H. specialize (Hres H). done.
  - exact Hall.
Qed.

(** A property of sessions that holds of a new session and is kept by every
    turn holds of every session of every reachable table. *)
Lemma reachable_invariant (P : AgentContext.t -> Prop) :
  P AgentContext.new ->
  (forall env user_message context,
      P context -> P (run env (handle_conversation user_message context)).2) ->
  forall sessions, reachable sessions -> map_Forall (fun _ => P) sessions.
Proof.
  intros Hnew Hstep sessions Hreach.
  induction Hreach as [|sessions env call_id event_type user_message _ IH
                       |sessions call_id _ IH].
  - apply map_Forall_empty.
  - unfold cartesia_webhook. destruct (negb (Str.truthy call_id)); [done|].
    assert (P (get_session call_id sessions).1
            /\ map_Forall (fun _ => P) (get_session call_id sessions).2) as [Hctx Hall].
    { unfold get_session. destruct (sessions !! call_id) as [c|] eqn:Hc; simpl.
      - split; [by eapply IH|done].
      - split; [done|]. by apply map_Forall_insert_2. }
    destruct (get_session call_id sessions) as [context sessions']. simpl in *.
    destruct (String.eqb event_type "call_started"); [done|].
    destruct (String.eqb event_type "call_ended"); simpl.
    + by apply map_Forall_delete.
    + rewrite run_bind. specialize (Hstep env user_message context Hctx).
      destruct (run env (handle_conversation user_message context)) as [response context'].
      simpl in *. by apply map_Forall_insert_2.
  - by apply map_Forall_delete.
Qed.

Lemma collected_new : collected AgentContext.new.
Proof.
  unfold collected. simpl. repeat split; try done; try lia.
Qed.

(** Every session of a reachable table holds all that was asked before its
    state: the name from the vehicle step on, registration and a known
    vehicle class from the arrival step on, the arrival time from the
    duration step on, duration and quote from the e-mail step on.  The state
    [PROVIDE_QUOTE] is never entered, and a session holds a reservation
    only when it is completed. *)
Theorem reachable_sessions_collected (sessions : gmap string AgentContext.t)
    (call_id : string) (context : AgentContext.t) :
  reachable sessions ->
  sessions !! call_id = Some context ->
  collected context.
Proof.
  intros Hreach Hlook.
  apply (reachable_invariant collected collected_new handle_conversation_collected
           sessions Hreach call_id context Hlook).
Qed.

(** The reserve request sent by the dialogue is complete: it carries a
    name, a registration, one of the three vehicle classes, a start and a
    duration, so that [create_reservation] cannot refuse it for a missing
    name or registration or for an unknown class. *)
Theorem dialogue_reserve_request_complete (sessions : gmap string AgentContext.t)
    (call_id user_message : string) (context : AgentContext.t) :
  reachable sessions ->
  sessions !! call_id = Some context ->
  invokes_reserve (handle_conversation user_message context) ->
  exists args k name reg vtype start hours,
    handle_conversation user_message context = Call (Api.reservations args) k
    /\ Api.r_customer_name args = Some name /\ name <> ""
    /\ Api.r_vehicle_reg args = Some reg /\ reg <> ""
    /\ Api.r_vehicle_type args = Some vtype /\ bad_vehicle_type (Some vtype) = false
    /\ Api.r_start_time args = Some start
    /\ Api.r_duration_hours args = Some hours.
Proof.
  intros Hreach Hlook Hinv.
  apply invokes_reserve_iff in Hinv as [Hs Ha].
  destruct (reachable_invariant collected collected_new handle_conversation_collected
              sessions Hreach call_id context Hlook)
    as (_ & Hname & Hveh & Harr & Hdur & _).
  rewrite Hs in *. simpl in *.
  destruct Hname as (name & Hn & Hlen); [lia|].
  destruct Hveh as (reg & vtype & Hreg & Hne & Hvt & Hknown); [lia|].
  destruct Harr as [start Hstart]; [lia|].
  destruct Hdur as [[hours Hh] _]; [lia|].
  destruct (confirm_accepted user_message context Hs Ha) as (k & Heq & _).
  eexists _, k, name, reg, vtype, start, hours. split; [exact Heq|]. simpl.
  repeat split; try done.
  - intros ->. simpl in Hlen. lia.
  - unfold known_vehicle_types in Hknown.
    repeat (apply elem_of_cons in Hknown as [->|Hknown]); try reflexivity.
    by apply elem_of_nil in Hknown.
Qed.

(** An event of one call leaves the sessions of all other calls as they
    were. *)
Theorem webhook_other_sessions_untouched (env : server)
    (call_id event_type user_message other : string)
    (sessions : gmap string AgentContext.t) :
  other <> call_id ->
  (run env (cartesia_webhook call_id event_type user_message sessions)).2 !! other
  = sessions !! other.
Proof.
  intros Hne. unfold cartesia_webhook.
  destruct (negb (Str.truthy call_id)); [done|].
  assert ((get_session call_id sessions).2 !! other = sessions !! other) as Hget.
  { unfold get_session. destruct (sessions !! call_id); simpl; [done|].
    by rewrite lookup_insert_ne. }
  destruct (get_session call_id sessions) as [context sessions']. simpl in Hget.
  destruct (String.eqb event_type "call_started"); [done|].
  destruct (String.eqb event_type "call_ended"); simpl.
  - by rewrite lookup_delete_ne.
  - rewrite run_bind.
    destruct (run env (handle_conversation user_message context)) as [response context'].
    simpl. by rewrite lookup_insert_ne.
Qed.

(** The life of a session.  The end of a call removes its session; the
    start of a call creates the session when there is none and otherwise
    leaves it as it is; the first message of a call without a session is
    answered with the welcome and leaves a new session waiting for the
    name; an event without a call id fails and changes nothing. *)
Theorem webhook_session_lifecycle (env : server) (call_id user_message : string)
    (sessions : gmap string AgentContext.t) :
  call_id <> "" ->
  (run env (cartesia_webhook call_id "call_ended" user_message sessions)).2 !! call_id = None
  /\ (run env (cartesia_webhook call_id "call_started" user_message sessions)).2 !! call_id
     = Some (default AgentContext.new (sessions !! call_id))
  /\ (sessions !! call_id = None ->
      exists response,
        run env (cartesia_webhook call_id "message" user_message sessions)
        = (Spoken response,
           <[call_id := AgentContext.set_state COLLECT_NAME AgentContext.new]> sessions)
        /\ CartesiaWebhookResponse.message response = SayWelcome
        /\ CartesiaWebhookResponse.end_call response = false)
  /\ (forall event_type,
        run env (cartesia_webhook "" event_type user_message sessions)
        = (WebhookFailed, sessions)).
Proof.
  intros Hid. unfold cartesia_webhook.
  rewrite (proj2 (truthy_iff call_id) Hid). simpl.
  split; [|split; [|split]].
  - unfold get_session. destruct (sessions !! call_id); simpl; by rewrite lookup_delete_eq.
  - unfold get_session. destruct (sessions !! call_id) eqn:Hl; simpl; [done|].
    by rewrite lookup_insert_eq.
  - intros Hnone. unfold get_session. rewrite Hnone. simpl.
    eexists. split; [by rewrite insert_insert_eq|done].
  - done.
Qed.

(** With the quote in place where it is due, a turn ends the call exactly
    when it is a turn of the confirmation state, and the quote-error
    message is never spoken. *)
Theorem call_ends_in_confirmation (env : server) (user_message : string)
    (context : AgentContext.t) :
  holds_quote context ->
  let response := (run env (handle_conversation user_message context)).1 in
  (CartesiaWebhookResponse.end_call response = true
   <-> AgentContext.state context = CONFIRM_RESERVATION)
  /\ CartesiaWebhookResponse.message response <> SayQuoteError.
Proof.
  intros Hq. unfold holds_quote in Hq. unfold handle_conversation.
  destruct (AgentContext.state context) eqn:Hs; simpl in *;
    try (destruct (Hq eq_refl) as [q Hquote]);
    repeat match goal with
           | |- context [if ?b then _ else _] => destruct b eqn:?; simpl
           | |- context [let '(_, _) := ?p in _] => destruct p; simpl
           | |- context [match env ?X ?c with Some _ => _ | None => _ end] =>
               destruct (env X c); simpl
           end;
    unfold confirm_details; simpl; rewrite ?Hquote; simpl;
    (split; [split; intros; congruence|congruence]).
Qed.

Lemma take_class_Forall (p : ascii -> bool) (n : nat) : forall l a r,
  RegRe.take_class p n l = Some (a, r) ->
  Forall (fun c => p c = true) a /\ length a = n.
Proof.
  induction n as [|n IH]; intros l a r; simpl.
  - intros [= <- <-]. by split.
  - destruct l as [|c l]; [done|]. destruct (p c) eqn:Hc; [|done].
    destruct (RegRe.take_class p n l) as [[a' r']|] eqn:Ht; [|done].
    intros [= <- <-]. destruct (IH _ _ _ Ht) as [Hall Hlen].
    split; [by constructor|]. simpl. by rewrite Hlen.
Qed.

Lemma plate_char_upper c : Str.is_upper c = true -> plate_char c = true.
Proof. unfold plate_char. by intros ->. Qed.

Lemma plate_char_digit c : Str.is_digit c = true -> plate_char c = true.
Proof. unfold plate_char. intros ->. by rewrite orb_true_r. Qed.

Local Arguments RegRe.take_class : simpl never.

Lemma plate_chars (l m : list ascii) :
  RegRe.plate l = Some m ->
  Forall (fun c => plate_char c = true) m /\ length m = 10%nat.
Proof.
  unfold RegRe.plate.
  destruct (RegRe.take_class Str.is_upper 2 l) as [[a r]|] eqn:Ha; simpl; [|done].
  destruct (RegRe.take_class Str.is_digit 2 r) as [[b r1]|] eqn:Hb; simpl; [|done].
  destruct (RegRe.take_class Str.is_upper 2 r1) as [[c r2]|] eqn:Hc; simpl; [|done].
  destruct (RegRe.take_class Str.is_digit 4 r2) as [[d r3]|] eqn:Hd; simpl; [|done].
  destruct (RegRe.word_ends r3); [|done]. intros [= <-].
  apply take_class_Forall in Ha as [Ha ?], Hb as [Hb ?], Hc as [Hc ?], Hd as [Hd ?].
  split.
  - repeat apply Forall_app_2;
      eapply Forall_impl; eauto using plate_char_upper, plate_char_digit.
  - rewrite !length_app. lia.
Qed.

Lemma short_plate_chars (l m : list ascii) :
  RegRe.short_plate l = Some m ->
  Forall (fun c => plate_char c = true) m /\ (length m = 7 \/ length m = 8)%nat.
Proof.
  unfold RegRe.short_plate.
  destruct (RegRe.take_class Str.is_upper 3 l) as [[a r]|] eqn:Ha; simpl; [|done].
  apply take_class_Forall in Ha as [Ha ?].
  assert (Forall (fun c => plate_char c = true) a) as Ha'
    by (eapply Forall_impl; eauto using plate_char_upper).
  destruct r as [|c r']; [done|].
  destruct (Ascii.eqb_spec c "-") as [->|Hc].
  - destruct (RegRe.take_class Str.is_digit 4 r') as [[d r'']|] eqn:Hd; simpl; [|done].
    destruct (RegRe.word_ends r''); [|done]. intros [= <-].
    apply take_class_Forall in Hd as [Hd ?]. split.
    + apply Forall_app_2; [done|]. constructor; [done|].
      eapply Forall_impl; eauto using plate_char_digit.
    + rewrite length_app. simpl. lia.
  - destruct (RegRe.take_class Str.is_digit 4 (c :: r')) as [[d r'']|] eqn:Hd; simpl; [|done].
    destruct (RegRe.word_ends r''); [|done]. intros [= <-].
    apply take_class_Forall in Hd as [Hd ?]. split.
    + apply Forall_app_2; [done|]. eapply Forall_impl; eauto using plate_char_digit.
    + rewrite length_app. lia.
Qed.

Lemma search_from_chars (l : list ascii) : forall after_word m,
  RegRe.search_from after_word l = Some m ->
  Forall (fun c => plate_char c = true) m
  /\ (length m = 7 \/ length m = 8 \/ length m = 10)%nat.
Proof.
  induction l as [|c l IH]; intros after_word m; [done|].
  cbn [RegRe.search_from].
  destruct (if after_word then None else RegRe.here (c :: l)) as [m'|] eqn:Hh.
  - intros [= <-]. destruct after_word; [done|]. unfold RegRe.here in Hh.
    destruct (RegRe.plate (c :: l)) as [m1|] eqn:Hp.
    + injection Hh as <-. apply plate_chars in Hp as [? ?]. split; [done|lia].
    + apply short_plate_chars in Hh as [? ?]. split; [done|lia].
  - apply IH.
Qed.

Lemma chars_of_chars (l : list ascii) : Str.chars (Str.of_chars l) = l.
Proof. induction l as [|c l IH]; simpl; [done|]. by rewrite IH. Qed.

Lemma of_chars_chars (s : string) : Str.of_chars (Str.chars s) = s.
Proof. induction s as [|c s IH]; simpl; [done|]. by rewrite IH. Qed.

Lemma plate_char_fixed (c : ascii) :
  plate_char c = true -> c <> " "%char /\ Str.upper_char c = c.
Proof.
  destruct c as [[] [] [] [] [] [] [] []]; vm_compute; intros H; split; congruence.
Qed.

Lemma normalized_plate_chars (m : list ascii) :
  Forall (fun c => plate_char c = true) m ->
  normalized_vehicle_id (Str.of_chars m) = Str.of_chars m.
Proof.
  intros Hall. unfold normalized_vehicle_id. rewrite chars_of_chars. f_equal.
  induction Hall as [|c m Hc Hall IH]; [done|].
  destruct (plate_char_fixed c Hc) as [Hsp Hup].
  rewrite filter_cons_True by done. rewrite fmap_cons, Hup. by rewrite IH.
Qed.

(** A registration found in an utterance is made of 7, 8 or 10 upper-case
    letters, digits and hyphens; normalising it changes nothing, so it
    appears as it is in the confirmation code. *)
Theorem extracted_registration_normalized (text reg : string) (when : DT.datetime) :
  (extract_vehicle_info text).1 = Some reg ->
  Forall (fun c => plate_char c = true) (Str.chars reg)
  /\ (String.length reg = 7 \/ String.length reg = 8 \/ String.length reg = 10)%nat
  /\ normalized_vehicle_id reg = reg
  /\ _generate_code reg when = "RP-" +:+ reg +:+ "-" +:+ MMDDHHmm when.
Proof.
  unfold extract_vehicle_info, RegRe.search. simpl.
  destruct (RegRe.search_from false (Str.chars (Str.upper text))) as [m|] eqn:Hm; [|done].
  simpl. intros [= <-]. apply search_from_chars in Hm as [Hall Hlen].
  split; [by rewrite chars_of_chars|]. split.
  { assert (String.length (Str.of_chars m) = length m) as ->; [|done].
    clear. induction m as [|c m IH]; simpl; [done|]. by rewrite IH. }
  split; [by apply normalized_plate_chars|].
  by rewrite generate_code_parts, normalized_plate_chars.
Qed.

End MoreDialogue.

Lemma reachable_sessions_collected_witness :
  exists context,
    turns DialogueScenario.backend "call-1" DialogueScenario.intake ∅ !! "call-1"
    = Some context
    /\ collected context.
Proof.
  eexists. split; [vm_compute; reflexivity|].
  eapply (reachable_sessions_collected
            (turns DialogueScenario.backend "call-1" DialogueScenario.intake ∅) "call-1").
  - apply reachable_turns. constructor.
  - vm_compute. reflexivity.
Defined.

Lemma dialogue_reserve_request_complete_witness :
  exists context args k,
    turns DialogueScenario.backend "call-1" DialogueScenario.intake ∅ !! "call-1"
    = Some context
    /\ handle_conversation "yes" context = Call (Api.reservations args) k
    /\ Api.r_vehicle_reg args = Some "KA01AB1234".
Proof.
  eexists.
  destruct (dialogue_reserve_request_complete
              (turns DialogueScenario.backend "call-1" DialogueScenario.intake ∅)
              "call-1" "yes" _ (reachable_turns _ _ _ _ reachable_empty) eq_refl)
    as (args & k & name & reg & vtype & start & hours & Heq & _).
  - vm_compute. by left.
  - exists args, k. split; [reflexivity|]. split; [exact Heq|].
    vm_compute in Heq. by injection Heq as <- _.
Defined.

Lemma webhook_other_sessions_untouched_witness :
  (run DialogueScenario.backend
     (cartesia_webhook "call-2" "message" "hello"
        (turns DialogueScenario.backend "call-1" DialogueScenario.intake ∅))).2 !! "call-1"
  = turns DialogueScenario.backend "call-1" DialogueScenario.intake ∅ !! "call-1".
Proof. apply webhook_other_sessions_untouched. discriminate. Defined.

Lemma webhook_session_lifecycle_witness :
  (run DialogueScenario.backend
     (cartesia_webhook "call-1" "call_ended" ""
        (turns DialogueScenario.backend "call-1" DialogueScenario.intake ∅))).2 !! "call-1"
  = None.
Proof.
  refine (proj1 (webhook_session_lifecycle DialogueScenario.backend "call-1" "" _ _)).
  discriminate.
Defined.

Lemma call_ends_in_confirmation_witness :
  holds_quote DialogueScenario.confirming
  /\ CartesiaWebhookResponse.end_call
       (run DialogueScenario.backend
          (handle_conversation "yes please" DialogueScenario.confirming)).1 = true
  /\ CartesiaWebhookResponse.end_call
       (run DialogueScenario.no_quote
          (handle_conversation "maybe" DialogueScenario.confirming)).1 = true.
Proof.
  assert (holds_quote DialogueScenario.confirming) as Hq.
  { intros _. eexists. reflexivity. }
  split; [exact Hq|]. split.
  - apply (proj1 (call_ends_in_confirmation DialogueScenario.backend "yes please"
                    DialogueScenario.confirming Hq)).
    reflexivity.
  - apply (proj1 (call_ends_in_confirmation DialogueScenario.no_quote "maybe"
                    DialogueScenario.confirming Hq)).
    reflexivity.
Defined.

Lemma extracted_registration_normalized_witness :
  _generate_code "KA01AB1234" Scenario.T = "RP-" +:+ "KA01AB1234" +:+ "-" +:+ MMDDHHmm Scenario.T.
Proof.
  refine (proj2 (proj2 (proj2
    (extracted_registration_normalized "my car is ka01ab1234" "KA01AB1234" Scenario.T _)))).
  vm_compute. reflexivity.
Defined.


(** ** The duration parser *)

Example _parse_duration_minutes_ex :
  _parse_duration_minutes "2 hours 30 minutes" = Some 150
  /\ _parse_duration_minutes "Two hours and 30 minutes" = Some 30
  /\ _parse_duration_minutes "2 hours and 30 minutes" = Some 150
  /\ _parse_duration_minutes "1.5h" = Some 90
  /\ _parse_duration_minutes "90 min" = Some 90
  /\ _parse_duration_minutes "for 3 hours" = Some 180
  /\ _parse_duration_minutes "0h for 5 hours" = Some 300
  /\ _parse_duration_minutes "about 2hours5" = None
  /\ _parse_duration_minutes "0 minutes" = None
  /\ _parse_duration_minutes "" = None.
Proof. vm_compute. repeat split. Qed.

(** *** Hundredths of an hour *)

Lemma hours_2dp_hundredths (mins : Z) :
  exists r, hours_2dp mins = r # 100 /\ -1 <= 3 * r - 5 * mins <= 1.
Proof.
  unfold hours_2dp. eexists. split; [reflexivity|].
  unfold DT.round_half_even, Qdiv, Qinv, Qmult, inject_Z. cbn [Qnum Qden Pos.mul].
  rewrite Z.mul_1_r.
  change (Z.pos (1 * 60)) with 60.
  pose proof (Z.div_mod (mins * 100) 60 ltac:(lia)) as Hdm.
  pose proof (Z.mod_pos_bound (mins * 100) 60 ltac:(lia)) as Hb.
  destruct (2 * ((mins * 100) mod 60) <? 60) eqn:H1;
    [|destruct (60 <? 2 * ((mins * 100) mod 60)) eqn:H2;
      [|destruct (Z.even ((mins * 100) / 60))]]; lia.
Qed.

Lemma hours_of_hundredths (r : Z) : DT.hours (r # 100) = r * 36000000.
Proof.
  unfold DT.hours, DT.round_half_even, Qmult, inject_Z. cbn [Qnum Qden].
  change (Z.pos (100 * 1)) with 100.
  change DT.US_PER_HOUR with 3600000000.
  pose proof (Z.div_mod (r * 3600000000) 100 ltac:(lia)) as Hdm.
  pose proof (Z.mod_pos_bound (r * 3600000000) 100 ltac:(lia)) as Hb.
  assert ((r * 3600000000) mod 100 = 0) as Hr.
  { replace (r * 3600000000) with (r * 36000000 * 100) by lia. apply Z.mod_mul. lia. }
  rewrite Hr in *. simpl. lia.
Qed.

Lemma parse_duration_Returned isoparse utterance start_time out :
  parse_duration isoparse utterance start_time = Returned out ->
  _parse_duration_minutes utterance = Some (DurationOut.duration_minutes out)
  /\ 0 < DurationOut.duration_minutes out
  /\ DurationOut.duration_hours out = hours_2dp (DurationOut.duration_minutes out).
Proof.
  unfold parse_duration.
  destruct (_parse_duration_minutes utterance) as [mins|] eqn:Hm; [|done].
  assert (0 < mins) as Hpos.
  { unfold _parse_duration_minutes in Hm.
    destruct (negb (Str.truthy utterance)); [done|].
    cbv zeta in Hm.
    match type of Hm with
    | (let '(_, _) := ?p in _) = _ => destruct p as [h m]
    end.
    destruct (0 <? _) eqn:Hlt in Hm; [|done].
    simplify_eq. lia. }
  destruct (Str.opt_truthy start_time).
  - destruct (isoparse _); [|done]. intros [= <-]. done.
  - intros [= <-]. done.
Qed.

Section DurationPrice.

Context (cfg : config) (isoparse : string -> option DT.datetime).

(** The duration in hours that [/parse-duration] returns is rounded to
    hundredths; a booking made with it ends within twelve seconds of the
    parsed number of minutes and costs what those minutes cost. *)
Theorem parsed_hours_price utterance start_time out (start : DT.datetime) vehicle_type :
  parse_duration isoparse utterance start_time = Returned out ->
  Z.abs (DT.hours (DurationOut.duration_hours out)
         - DT.minutes (DurationOut.duration_minutes out)) <= 12 * DT.US_PER_SECOND
  /\ _compute_price_cents cfg start (start + DT.hours (DurationOut.duration_hours out))
       vehicle_type
     = _compute_price_cents cfg start (start + DT.minutes (DurationOut.duration_minutes out))
         vehicle_type.
Proof.
  intros Hout. apply parse_duration_Returned in Hout as (_ & _ & ->).
  generalize (DurationOut.duration_minutes out). intros mins.
  destruct (hours_2dp_hundredths mins) as (r & -> & Hr).
  rewrite hours_of_hundredths.
  unfold DT.minutes, _compute_price_cents, DT.whole_minutes, ceil_div.
  change DT.US_PER_MINUTE with 60000000. change DT.US_PER_SECOND with 1000000.
  split; [lia|]. f_equal.
  replace (start + r * 36000000 - start) with (r * 36000000) by lia.
  replace (start + mins * 60000000 - start) with (mins * 60000000) by lia.
  rewrite Z.div_mul by lia.
  generalize (MIN_CHARGE_MINUTES cfg). intros mc.
  f_equal.
  pose proof (Z.div_mod (r * 36000000) 60000000 ltac:(lia)) as H1.
  pose proof (Z.mod_pos_bound (r * 36000000) 60000000 ltac:(lia)) as H2.
  set (w := r * 36000000 / 60000000) in *.
  pose proof (Z.div_mod (- Z.max (Z.max 0 w) mc) 60 ltac:(lia)) as H3.
  pose proof (Z.mod_pos_bound (- Z.max (Z.max 0 w) mc) 60 ltac:(lia)) as H4.
  pose proof (Z.div_mod (- Z.max (Z.max 0 mins) mc) 60 ltac:(lia)) as H5.
  pose proof (Z.mod_pos_bound (- Z.max (Z.max 0 mins) mc) 60 ltac:(lia)) as H6.
  lia.
Qed.

End DurationPrice.

Lemma parsed_hours_price_witness :
  parse_duration Scenario.no_isoparse "59 minutes" None
  = Returned {| DurationOut.duration_minutes := 59;
                DurationOut.duration_hours := 98 # 100;
                DurationOut.end_time := None |}
  /\ _compute_price_cents default_config Scenario.T (Scenario.T + DT.hours (98 # 100)) None
     = _compute_price_cents default_config Scenario.T (Scenario.T + DT.minutes 59) None.
Proof.
  split; [vm_compute; reflexivity|].
  apply (parsed_hours_price default_config Scenario.no_isoparse "59 minutes" None
           {| DurationOut.duration_minutes := 59;
              DurationOut.duration_hours := 98 # 100;
              DurationOut.end_time := None |} Scenario.T None).
  vm_compute. reflexivity.
Defined.

(** *** Texts without a digit *)

Lemma chars_append (a b : string) : Str.chars (a +:+ b) = (Str.chars a ++ Str.chars b)%list.
Proof.
  induction a as [|c a IH]; [done|]. rewrite append_String. simpl. by rewrite IH.
Qed.

Section Kept.

Context (P : ascii -> Prop).

Lemma lstrip_Forall (s : string) :
  Forall P (Str.chars s) -> Forall P (Str.chars (Str.lstrip s)).
Proof.
  induction s as [|c s IH]; [done|]. simpl. intros H.
  destruct (Str.is_space c); [|done]. apply IH. by inversion H.
Qed.

Lemma rstrip_Forall (s : string) :
  Forall P (Str.chars s) -> Forall P (Str.chars (Str.rstrip s)).
Proof.
  induction s as [|c s IH]; [done|]. simpl. intros H.
  inversion H as [|? ? Hc Hs]; subst. specialize (IH Hs).
  destruct (Str.rstrip s) as [|c' t].
  - destruct (Str.is_space c); simpl; by constructor.
  - simpl. by constructor.
Qed.

Lemma replace_from_Forall (old new s : string) (skip : nat) :
  Forall P (Str.chars new) -> Forall P (Str.chars s) ->
  Forall P (Str.chars (Str.replace_from skip old new s)).
Proof.
  intros Hnew. revert skip. induction s as [|c s IH]; intros skip Hs; [done|].
  inversion Hs as [|? ? Hc Hs']; subst. cbn [Str.replace_from].
  destruct skip as [|k]; [|by apply IH].
  destruct (String.prefix old (String c s)).
  - rewrite chars_append. apply Forall_app. split; [done|by apply IH].
  - simpl. constructor; [done|by apply IH].
Qed.

End Kept.

Lemma is_digit_lower_char (c : ascii) : Str.is_digit (Str.lower_char c) = Str.is_digit c.
Proof.
  destruct c as [[] [] [] [] [] [] [] []]; vm_compute; reflexivity.
Qed.

Lemma lower_digit_free (s : string) : digit_free s -> digit_free (Str.lower s).
Proof.
  unfold digit_free, Str.lower. induction s as [|c s IH]; [done|]. simpl.
  intros H. inversion H; subst. constructor; [by rewrite is_digit_lower_char|by apply IH].
Qed.

Lemma span_no_head (p : ascii -> bool) (l : list ascii) :
  match l with c :: _ => p c = false | [] => True end -> DurRe.span p l = ([], l).
Proof. destruct l as [|c l]; [done|]. simpl. by intros ->. Qed.

Lemma span_rest_Forall (P : ascii -> Prop) (p : ascii -> bool) (l : list ascii) :
  Forall P l -> Forall P (DurRe.span p l).2.
Proof.
  induction 1 as [|c l Hc Hl IH]; [done|]. simpl.
  destruct (p c); simpl; [done|by constructor].
Qed.

Lemma starts_with_Forall (P : ascii -> Prop) (u : list ascii) : forall l rest,
  DurRe.starts_with u l = Some rest -> Forall P l -> Forall P rest.
Proof.
  induction u as [|a u IH]; intros l rest; simpl.
  - by intros [= ->].
  - destruct l as [|c l]; [done|]. destruct (Ascii.eqb a c); [|done].
    intros H Hl. inversion Hl; subst. by eapply IH.
Qed.

Lemma span_digit_free (l : list ascii) :
  Forall (fun c => Str.is_digit c = false) l -> DurRe.span Str.is_digit l = ([], l).
Proof. intros H. apply span_no_head. by destruct H. Qed.

Lemma whole_here_digit_free (units : list string) (l : list ascii) :
  Forall (fun c => Str.is_digit c = false) l -> DurRe.whole_here units l = None.
Proof. intros H. unfold DurRe.whole_here. by rewrite span_digit_free. Qed.

Lemma decimal_here_digit_free (units : list string) (l : list ascii) :
  Forall (fun c => Str.is_digit c = false) l -> DurRe.decimal_here units l = None.
Proof. intros H. unfold DurRe.decimal_here. by rewrite span_digit_free. Qed.

Lemma for_here_digit_free (units : list string) (l : list ascii) :
  Forall (fun c => Str.is_digit c = false) l -> DurRe.for_here units l = None.
Proof.
  intros H. unfold DurRe.for_here.
  destruct (DurRe.starts_with (Str.chars "for") l) as [r|] eqn:Hr; [|done].
  pose proof (starts_with_Forall _ _ _ _ Hr H) as Hrest.
  pose proof (span_rest_Forall _ Str.is_space r Hrest) as Hrest'.
  destruct (DurRe.span Str.is_space r) as [w r']. simpl in Hrest'.
  destruct w; [done|]. by apply whole_here_digit_free.
Qed.

Lemma search_digit_free (here : list ascii -> option (list ascii)) (l : list ascii) :
  (forall l', Forall (fun c => Str.is_digit c = false) l' -> here l' = None) ->
  Forall (fun c => Str.is_digit c = false) l -> DurRe.search here l = None.
Proof.
  intros Hhere. induction 1 as [|c l Hc Hl IH]; simpl.
  - by apply Hhere.
  - rewrite Hhere by (by constructor). exact IH.
Qed.

Section NeedsDigits.

Context (isoparse : string -> option DT.datetime).

(** A duration has to be given in figures: an utterance without a digit,
    [two hours] say, is not parsed, and [/parse-duration] answers 400. *)
Theorem parse_duration_needs_digits (utterance : string) (start_time : option string) :
  digit_free utterance ->
  _parse_duration_minutes utterance = None
  /\ parse_duration isoparse utterance start_time
     = HTTPException 400 "Could not parse duration".
Proof.
  intros Hfree.
  assert (_parse_duration_minutes utterance = None) as Hnone.
  { unfold _parse_duration_minutes.
    destruct (negb (Str.truthy utterance)); [done|]. cbv zeta.
    assert (Forall (fun c => Str.is_digit c = false)
              (Str.chars (Str.replace "hour and" "hour"
                 (Str.replace "hours and" "hours" (Str.strip (Str.lower utterance))))))
      as Htext.
    { apply replace_from_Forall; [by repeat constructor|].
      apply replace_from_Forall; [by repeat constructor|].
      apply rstrip_Forall, lstrip_Forall. by apply lower_digit_free. }
    rewrite !search_digit_free;
      auto using decimal_here_digit_free, whole_here_digit_free, for_here_digit_free. }
  split; [done|]. unfold parse_duration. by rewrite Hnone.
Qed.

End NeedsDigits.

Lemma parse_duration_needs_digits_witness :
  _parse_duration_minutes "two hours" = None
  /\ parse_duration Scenario.no_isoparse "two hours" None
     = HTTPException 400 "Could not parse duration".
Proof.
  apply (parse_duration_needs_digits Scenario.no_isoparse "two hours" None).
  unfold digit_free. vm_compute. repeat constructor.
Defined.


(** ** The listing *)

Lemma pretty_N_go_nonempty (x : N) (s : string) : s <> "" -> pretty_N_go x s <> "".
Proof.
  revert s. induction (N.lt_wf_0 x) as [x _ IH]. intros s Hs.
  destruct (decide (0 < x)%N) as [Hx|Hx].
  - rewrite pretty_N_go_step by done. apply IH; [by apply N.div_lt|done].
  - assert (x = 0%N) as -> by lia. by rewrite pretty_N_go_0.
Qed.

Lemma pretty_Z_nonempty (n : Z) : pretty n <> "".
Proof.
  destruct n as [|p|p]; [done| |].
  - change (pretty (Z.pos p)) with (pretty_N_go (N.pos p) "").
    rewrite pretty_N_go_step by lia. by apply pretty_N_go_nonempty.
  - change (pretty (Z.neg p)) with ("-" +:+ pretty p). by rewrite append_String.
Qed.

Lemma spot_label_truthy (lot_name : string) (spot_number : option Z) (label : string) :
  _spot_label lot_name spot_number = Some label -> Str.truthy label = true.
Proof.
  unfold _spot_label. destruct spot_number as [n|]; [|done].
  destruct (n =? 0); [done|]. cbv zeta.
  match goal with
  | |- context [if Str.truthy ?z then Some (?z +:+ pretty n) else _] => generalize z
  end.
  intros zone. destruct zone as [|c zone]; simpl.
  - intros [= <-]. pose proof (pretty_Z_nonempty n). by destruct (pretty n).
  - intros [= <-]. by rewrite append_String.
Qed.

Lemma insert_desc_last (r : Reservation.t) (rows : store) :
  Forall (fun r' => default 0 (Reservation.id r) <= default 0 (Reservation.id r')) rows ->
  insert_desc r rows = (rows ++ [r])%list.
Proof.
  induction 1 as [|r' rows Hle _ IH]; [done|]. simpl.
  destruct (_ <? _) eqn:Hlt; [lia|]. by rewrite IH.
Qed.

Lemma order_by_desc_id_numbered (session : store) (base : Z) :
  (forall i r, session !! i = Some r -> Reservation.id r = Some (Z.of_nat i + base)) ->
  order_by_desc_id session = reverse session.
Proof.
  revert base. induction session as [|r session IH]; intros base Hnum; [done|].
  unfold order_by_desc_id in *. simpl. rewrite reverse_cons.
  rewrite (IH (base + 1)).
  - apply insert_desc_last. apply Forall_forall. intros r' Hr'.
    rewrite elem_of_reverse in Hr'. apply list_elem_of_lookup_1 in Hr' as [i Hi].
    rewrite (Hnum 0%nat r eq_refl), (Hnum (S i) r' Hi). simpl. lia.
  - intros i r' Hi. rewrite (Hnum (S i) r' Hi). f_equal. lia.
Qed.

Section Listing.

Context (cfg : config) (isoparse : string -> option DT.datetime).

Lemma served_numbered (session : store) :
  served cfg isoparse session ->
  forall i r, session !! i = Some r -> Reservation.id r = Some (Z.of_nat i + 1).
Proof.
  intros Hs i r Hi. by destruct (served_rows_as_written cfg isoparse session Hs i r Hi).
Qed.

Lemma create_reservation_out session now created data out session' tasks :
  create_reservation cfg session now created data = (Returned out, session', tasks) ->
  exists r, session' = (session ++ [r])%list /\ out = reservation_out r.
Proof.
  unfold create_reservation.
  destruct (create_reservation_checks now data) as [[start end_]|]; [|done].
  destruct (_assign_spot cfg session (LOT_NAME cfg) start end_) as [spot|]; [|done].
  destruct (_spot_label (LOT_NAME cfg) (Some spot)) as [label|] eqn:Hl;
    intros [= <- <- _]; (eexists; split; [reflexivity|]); unfold reservation_out;
    cbn [Reservation.id Reservation.confirmation_code Reservation.lot_name
         Reservation.spot_number Reservation.vehicle_type Reservation.start_time
         Reservation.end_time Reservation.price_cents];
    rewrite Hl; [by rewrite (spot_label_truthy _ _ _ Hl)|done].
Qed.

(** On every table the service produces, the listing is the last [limit]
    reservations made, the newest first. *)
Theorem list_reservations_newest_first (session : store) (limit : Z) :
  served cfg isoparse session ->
  list_reservations session limit
  = reservation_out <$> take (Z.to_nat limit) (reverse session).
Proof.
  intros Hs. unfold list_reservations.
  by rewrite (order_by_desc_id_numbered session 1 (served_numbered session Hs)).
Qed.

(** A reservation just made heads the listing, in the form in which the
    reserve request returned it, and the earlier listing follows. *)
Theorem reserve_then_list session now created data out session' tasks (limit : Z) :
  served cfg isoparse session ->
  create_reservation cfg session now created data = (Returned out, session', tasks) ->
  1 <= limit ->
  list_reservations session' limit = out :: list_reservations session (limit - 1).
Proof.
  intros Hs Hcr Hlimit.
  assert (served cfg isoparse session') as Hs'.
  { pose proof (served_reserve cfg isoparse session now created data Hs) as H.
    by rewrite Hcr in H. }
  apply create_reservation_out in Hcr as (r & -> & ->).
  unfold list_reservations.
  rewrite (order_by_desc_id_numbered _ 1 (served_numbered _ Hs')).
  rewrite (order_by_desc_id_numbered _ 1 (served_numbered _ Hs)).
  rewrite reverse_app. simpl.
  replace (Z.to_nat limit) with (S (Z.to_nat (limit - 1))) by lia.
  done.
Qed.

End Listing.

Lemma list_reservations_newest_first_witness :
  list_reservations Scenario.after_first 50
  = reservation_out <$> take 50 (reverse Scenario.after_first).
Proof.
  apply (list_reservations_newest_first Scenario.one_spot Scenario.no_isoparse
           Scenario.after_first 50).
  exact (served_reserve _ _ [] Scenario.T Scenario.T _ (served_empty _ _)).
Defined.

Lemma reserve_then_list_witness :
  exists out,
    (create_reservation Scenario.one_spot [] Scenario.T Scenario.T
       (Scenario.two_hours_from Scenario.T)).1.1 = Returned out
    /\ list_reservations Scenario.after_first 50 = [out].
Proof.
  eexists. split; [vm_compute; reflexivity|].
  eapply (reserve_then_list Scenario.one_spot Scenario.no_isoparse [] Scenario.T Scenario.T
            (Scenario.two_hours_from Scenario.T) _ Scenario.after_first _ 50).
  - exact (served_empty _ _).
  - vm_compute. reflexivity.
  - lia.
Defined.
